(** * Portfolio page scripts (docs/js/main.js): a shallow embedding

    The page wires four independent pieces at load time: the split-pane
    drag controller (together with a second, stand-alone touch handler
    on the same divider), the canvas animation, the scroll observer and
    the two project feed renderers.  Each is embedded below as state
    passing over the part of the page it reads and writes.  The smaller
    handlers follow them: the reveal sections of the scroll observer,
    the two toggles of the profile image, the mobile view switch, and
    the layout reset as the earlier version of the script had it.

    ECMAScript Numbers are IEEE-754 binary64 values.  The code is
    embedded once, over an interface [Number] of the arithmetic it uses,
    and the interface has two instances: [binary64], the arithmetic the
    script really runs on (Rocq's [SpecFloat] at precision 53), and
    [exact], the same arithmetic with the rounding removed (rationals
    extended with the two infinities and NaN).  Statements that hold
    whatever the arithmetic are proved over the interface; statements
    about sums and products are proved over [exact]; the bounds that
    [Math.max] and [Math.min] enforce are proved for both; and
    [binary64] evaluates the code on concrete inputs. *)

From Stdlib Require Import ZArith QArith Qround Lqa Lia List String Bool DecimalString.
From Stdlib Require Import Sorting.Sorted Sorting.Permutation.
From Stdlib Require Import Floats.SpecFloat.
From Stdlib Require Import Qpower Qabs Qminmax.
From stdpp Require Import base gmap strings list.

Local Open Scope Z_scope.

(** ** The Number interface *)

Class Number (num : Type) : Type := {
  (** the value of the decimal literal [n/d] of the source text *)
  lit : Z -> positive -> num;
  num_add : num -> num -> num;
  num_sub : num -> num -> num;
  num_mul : num -> num -> num;
  num_div : num -> num -> num;
  (** [a < b] and [a <= b]; both are false when an operand is NaN *)
  num_ltb : num -> num -> bool;
  num_leb : num -> num -> bool;
  Math_max : num -> num -> num;
  Math_min : num -> num -> num;
  Math_floor : num -> num;
  (** the array index a Number denotes, if it is a non-negative integer *)
  to_index : num -> option N;
}.

Declare Scope js_scope.
Delimit Scope js_scope with js.
Infix "+" := num_add : js_scope.
Infix "-" := num_sub : js_scope.
Infix "*" := num_mul : js_scope.
Infix "/" := num_div : js_scope.
Infix "<?" := num_ltb : js_scope.
Infix "<=?" := num_leb : js_scope.
Notation "a >? b" := (num_ltb b a) : js_scope.
Notation "a >=? b" := (num_leb b a) : js_scope.

Definition int {num} `{Number num} (z : Z) : num := lit z 1.

(** [arr[i]] for a Number [i]: [None] is [undefined]. *)
Definition array_get {num} `{Number num} {A} (arr : list A) (i : num) : option A :=
  match to_index i with
  | Some k => nth_error arr (N.to_nat k)
  | None => None
  end.

(** ** binary64: the arithmetic of the script *)

Module B64.

Definition prec : Z := 53.
Definition emax : Z := 1024.

Definition of_Z (z : Z) : spec_float := binary_normalize prec emax z 0 false.

(** A decimal literal denotes the double nearest to it; the quotient of
    two exactly represented integers is rounded that way. *)
Definition literal (n : Z) (d : positive) : spec_float :=
  SFdiv prec emax (of_Z n) (of_Z (Zpos d)).

Definition max (a b : spec_float) : spec_float :=
  match SFcompare a b with
  | None => S754_nan
  | Some Lt => b
  | Some Gt => a
  | Some Eq => match a with S754_zero true => b | _ => a end
  end.

Definition min (a b : spec_float) : spec_float :=
  match SFcompare a b with
  | None => S754_nan
  | Some Lt => a
  | Some Gt => b
  | Some Eq => match a with S754_zero false => b | _ => a end
  end.

Definition floor (x : spec_float) : spec_float :=
  match x with
  | S754_finite s m e =>
      if 0 <=? e then x
      else binary_normalize prec emax (cond_Zopp s (Zpos m) / 2 ^ (- e)) 0 s
  | _ => x
  end.

Definition index (x : spec_float) : option N :=
  match x with
  | S754_zero _ => Some 0%N
  | S754_finite false m e =>
      if 0 <=? e then Some (Z.to_N (Zpos m * 2 ^ e))
      else if Zpos m mod 2 ^ (- e) =? 0 then Some (Z.to_N (Zpos m / 2 ^ (- e)))
      else None
  | _ => None
  end.

(** One admissible [Math.hypot] (the standard leaves its accuracy to the
    implementation): the rounded square root of the rounded sum of the
    rounded squares, and infinity as soon as an argument is infinite. *)
Definition hypot (x y : spec_float) : spec_float :=
  match x, y with
  | S754_infinity _, _ | _, S754_infinity _ => S754_infinity false
  | _, _ => SFsqrt prec emax
              (SFadd prec emax (SFmul prec emax x x) (SFmul prec emax y y))
  end.

End B64.

#[export] Instance binary64 : Number spec_float := {|
  lit := B64.literal;
  num_add := SFadd B64.prec B64.emax;
  num_sub := SFsub B64.prec B64.emax;
  num_mul := SFmul B64.prec B64.emax;
  num_div := SFdiv B64.prec B64.emax;
  num_ltb := SFltb;
  num_leb := SFleb;
  Math_max := B64.max;
  Math_min := B64.min;
  Math_floor := B64.floor;
  to_index := B64.index;
|}.

(** ** exact: the same arithmetic without rounding *)

Inductive xnum : Type :=
| XNaN
| XInf (neg : bool)
| XFin (q : Q).

Module Exact.

Definition is_neg (q : Q) : bool := (Qnum q <? 0)%Z.
Definition is_zero (q : Q) : bool := (Qnum q =? 0)%Z.

Definition opp (a : xnum) : xnum :=
  match a with
  | XNaN => XNaN
  | XInf s => XInf (negb s)
  | XFin q => XFin (- q)
  end.

Definition add (a b : xnum) : xnum :=
  match a, b with
  | XNaN, _ | _, XNaN => XNaN
  | XInf s, XInf t => if Bool.eqb s t then a else XNaN
  | XInf _, XFin _ => a
  | XFin _, XInf _ => b
  | XFin p, XFin q => XFin (p + q)
  end.

Definition sub (a b : xnum) : xnum := add a (opp b).

Definition mul (a b : xnum) : xnum :=
  match a, b with
  | XNaN, _ | _, XNaN => XNaN
  | XInf s, XInf t => XInf (xorb s t)
  | XInf s, XFin q | XFin q, XInf s =>
      if is_zero q then XNaN else XInf (xorb s (is_neg q))
  | XFin p, XFin q => XFin (p * q)
  end.

Definition div (a b : xnum) : xnum :=
  match a, b with
  | XNaN, _ | _, XNaN => XNaN
  | XInf _, XInf _ => XNaN
  | XInf s, XFin q => XInf (xorb s (is_neg q))
  | XFin _, XInf _ => XFin 0
  | XFin p, XFin q =>
      if is_zero q then (if is_zero p then XNaN else XInf (is_neg p))
      else XFin (p / q)
  end.

Definition compare (a b : xnum) : option comparison :=
  match a, b with
  | XNaN, _ | _, XNaN => None
  | XInf s, XInf t =>
      Some (if s then (if t then Eq else Lt) else (if t then Gt else Eq))
  | XInf s, XFin _ => Some (if s then Lt else Gt)
  | XFin _, XInf t => Some (if t then Gt else Lt)
  | XFin p, XFin q => Some (p ?= q)%Q
  end.

Definition ltb (a b : xnum) : bool :=
  match compare a b with Some Lt => true | _ => false end.

Definition leb (a b : xnum) : bool :=
  match compare a b with Some (Lt | Eq) => true | _ => false end.

Definition max (a b : xnum) : xnum :=
  match compare a b with
  | None => XNaN
  | Some Lt => b
  | Some _ => a
  end.

Definition min (a b : xnum) : xnum :=
  match compare a b with
  | None => XNaN
  | Some Gt => b
  | Some _ => a
  end.

Definition floor (a : xnum) : xnum :=
  match a with
  | XFin q => XFin (inject_Z (Qfloor q))
  | _ => a
  end.

Definition index (a : xnum) : option N :=
  match a with
  | XFin q =>
      let r := Qred q in
      if ((0 <=? Qnum r)%Z && (Qden r =? 1)%positive)%bool
      then Some (Z.to_N (Qnum r)) else None
  | _ => None
  end.

End Exact.

#[export] Instance exact : Number xnum := {|
  lit := fun n d => XFin (n # d);
  num_add := Exact.add;
  num_sub := Exact.sub;
  num_mul := Exact.mul;
  num_div := Exact.div;
  num_ltb := Exact.ltb;
  num_leb := Exact.leb;
  Math_max := Exact.max;
  Math_min := Exact.min;
  Math_floor := Exact.floor;
  to_index := Exact.index;
|}.

(** ** The part of the page the split pane reads and writes *)

Module DOM.
Section DOM.
Context {num : Type} `{Number num}.

(** A length as the script writes it into a style property. *)
Inductive css_size : Type :=
| percent (v : num)
| vh (v : num)
| px (v : num).

Record style : Type := {
  width : option css_size;
  height : option css_size;
  overflowY : option string;
  webkitOverflowScrolling : option string;
}.

Definition no_style : style :=
  {| width := None; height := None; overflowY := None;
     webkitOverflowScrolling := None |}.

Definition set_width (s : style) (v : css_size) : style :=
  {| width := Some v; height := height s; overflowY := overflowY s;
     webkitOverflowScrolling := webkitOverflowScrolling s |}.

Definition set_height (s : style) (v : css_size) : style :=
  {| width := width s; height := Some v; overflowY := overflowY s;
     webkitOverflowScrolling := webkitOverflowScrolling s |}.

Definition set_overflowY (s : style) (v : string) : style :=
  {| width := width s; height := height s; overflowY := Some v;
     webkitOverflowScrolling := webkitOverflowScrolling s |}.

Definition set_webkitOverflowScrolling (s : style) (v : string) : style :=
  {| width := width s; height := height s; overflowY := overflowY s;
     webkitOverflowScrolling := Some v |}.

(** What the script writes: the inline styles of #dev-section and
    #design-section, the cursor of the body, the class of the divider. *)
Record page : Type := {
  primarySection : style;
  secondarySection : style;
  cursor : option string;
  divider_active : bool;
}.

Definition initial_page : page :=
  {| primarySection := no_style; secondarySection := no_style;
     cursor := None; divider_active := false |}.

Definition set_primary (p : page) (s : style) : page :=
  {| primarySection := s; secondarySection := secondarySection p;
     cursor := cursor p; divider_active := divider_active p |}.

Definition set_secondary (p : page) (s : style) : page :=
  {| primarySection := primarySection p; secondarySection := s;
     cursor := cursor p; divider_active := divider_active p |}.

Definition set_cursor (p : page) (c : string) : page :=
  {| primarySection := primarySection p; secondarySection := secondarySection p;
     cursor := Some c; divider_active := divider_active p |}.

Definition set_divider_active (p : page) (b : bool) : page :=
  {| primarySection := primarySection p; secondarySection := secondarySection p;
     cursor := cursor p; divider_active := b |}.

(** What the script reads and the layout engine decides: the viewport
    and the boxes of #portfolio-container and #dev-section. *)
Record layout : Type := {
  innerWidth : num;
  innerHeight : num;
  container_offsetWidth : num;
  container_offsetHeight : num;
  leftPanel_offsetHeight : num;
}.

(** The first touch point of a touch event, or the mouse pointer. *)
Record pointer : Type := { clientX : num; clientY : num }.

End DOM.
Arguments css_size : clear implicits.
Arguments style : clear implicits.
Arguments page : clear implicits.
Arguments layout : clear implicits.
Arguments pointer : clear implicits.
End DOM.
Import DOM.

(** ** class SplitPaneController *)

Module SplitPaneController.
Section SplitPaneController.
Context {num : Type} `{Number num}.

Record t : Type := {
  isDragging : bool;
  MIN_SIZE_PERCENTAGE : num;
  MAX_SIZE_PERCENTAGE : num;
}.

Definition constructor : t :=
  {| isDragging := false;
     MIN_SIZE_PERCENTAGE := int 20;
     MAX_SIZE_PERCENTAGE := int 80 |}.

Definition set_isDragging (this : t) (b : bool) : t :=
  {| isDragging := b;
     MIN_SIZE_PERCENTAGE := MIN_SIZE_PERCENTAGE this;
     MAX_SIZE_PERCENTAGE := MAX_SIZE_PERCENTAGE this |}.

Definition isDesktopViewport (w : layout num) : bool :=
  (innerWidth w >=? int 1024)%js.

Definition getCursorStyle (w : layout num) : string :=
  if isDesktopViewport w then "col-resize"%string else "row-resize"%string.

(** Keep percentage within allowed bounds (main.js writes the same
    expression out in both resize handlers). *)
Definition getBoundedPercentage (this : t) (percentage : num) : num :=
  Math_max (MIN_SIZE_PERCENTAGE this)
           (Math_min (MAX_SIZE_PERCENTAGE this) percentage).

Definition handleHorizontalResize (this : t) (w : layout num) (p : page num)
    (clientX : num) : page num :=
  let containerWidth := container_offsetWidth w in
  let percentage := (clientX / containerWidth * int 100)%js in
  let boundedPercentage := getBoundedPercentage this percentage in
  let p := set_primary p (set_width (primarySection p) (percent boundedPercentage)) in
  set_secondary p
    (set_width (secondarySection p) (percent (int 100 - boundedPercentage)%js)).

Definition handleVerticalResize (this : t) (w : layout num) (p : page num)
    (clientY : num) : page num :=
  let containerHeight := container_offsetHeight w in
  let percentage := (clientY / containerHeight * int 100)%js in
  let boundedPercentage := getBoundedPercentage this percentage in
  let p := set_primary p (set_height (primarySection p) (vh boundedPercentage)) in
  set_secondary p
    (set_height (secondarySection p) (vh (int 100 - boundedPercentage)%js)).

Definition handleDragStart (this : t) (w : layout num) (p : page num)
    : t * page num :=
  (set_isDragging this true, set_cursor p (getCursorStyle w)).

Definition handleDragMove (this : t) (w : layout num) (p : page num)
    (e : pointer num) : page num :=
  if negb (isDragging this) then p
  else if isDesktopViewport w then handleHorizontalResize this w p (clientX e)
  else handleVerticalResize this w p (clientY e).

Definition handleDragEnd (this : t) (p : page num) : t * page num :=
  (set_isDragging this false, set_cursor p "default").

Definition resetDesktopLayout (p : page num) : page num :=
  let p := set_primary p (set_height (primarySection p) (percent (int 100))) in
  set_secondary p (set_height (secondarySection p) (percent (int 100))).

Definition resetMobileLayout (p : page num) : page num :=
  let half (s : style num) :=
    set_webkitOverflowScrolling
      (set_overflowY
         (set_height (set_width s (percent (int 100))) (vh (int 50)))
         "auto")
      "touch" in
  let p := set_primary p (half (primarySection p)) in
  set_secondary p (half (secondarySection p)).

Definition handleWindowResize (w : layout num) (p : page num) : page num :=
  if isDesktopViewport w then resetDesktopLayout p else resetMobileLayout p.

(** The three touch listeners of [initializeEventListeners]; the
    boolean tells whether the listener called [e.preventDefault()]. *)
Definition on_touchstart (this : t) (w : layout num) (p : page num)
    : t * page num * bool :=
  (handleDragStart this w p, true).

Definition on_touchmove (this : t) (w : layout num) (p : page num)
    (touch : pointer num) : page num * bool :=
  (handleDragMove this w p touch, isDragging this).

Definition on_touchend (this : t) (p : page num) : t * page num :=
  handleDragEnd this p.

End SplitPaneController.
Arguments t : clear implicits.
End SplitPaneController.

(** ** The stand-alone touch handlers (first DOMContentLoaded block) *)

Module TouchBlock.
Section TouchBlock.
Context {num : Type} `{Number num}.

(** The variables the four listeners close over. *)
Record t : Type := {
  isDragging : bool;
  startY : num;
  startHeight : num;
}.

Definition initial : t :=
  {| isDragging := false; startY := int 0; startHeight := int 0 |}.

Definition divider_touchstart (w : layout num) (p : page num)
    (touch : pointer num) : t * page num * bool :=
  ({| isDragging := true;
      startY := clientY touch;
      startHeight := leftPanel_offsetHeight w |},
   set_divider_active p true,
   true).

Definition newHeight (c : t) (w : layout num) (touch : pointer num) : num :=
  let deltaY := (clientY touch - startY c)%js in
  Math_max (int 100)
           (Math_min (startHeight c + deltaY)%js (innerHeight w - int 100)%js).

Definition document_touchmove (c : t) (w : layout num) (p : page num)
    (touch : pointer num) : page num * bool :=
  if negb (isDragging c) then (p, false)
  else
    let h := newHeight c w touch in
    let p := set_primary p (set_height (primarySection p) (px h)) in
    (set_secondary p
       (set_height (secondarySection p) (px (innerHeight w - h)%js)),
     true).

Definition document_touchend (c : t) (p : page num) : t * page num :=
  ({| isDragging := false; startY := startY c; startHeight := startHeight c |},
   set_divider_active p false).

(** "Prevent scrolling when touching the divider" *)
Definition divider_touchmove : bool := true.

End TouchBlock.
Arguments t : clear implicits.
End TouchBlock.

(** ** Listener dispatch on the divider and the document

    Both DOMContentLoaded blocks register listeners for the same events.
    A listener on the divider runs when the event is targeted at the
    divider, a listener on the document runs for every event (nothing
    stops propagation), and listeners of one node run in the order of
    their registration: the stand-alone block first. *)

Module Listeners.
Section Listeners.
Context {num : Type} `{Number num}.

Inductive target : Type := divider | elsewhere.

Inductive event : Type :=
| mousedown (on : target) (e : pointer num)
| mousemove (e : pointer num)
| mouseup
| touchstart (on : target) (touch : pointer num)
| touchmove (on : target) (touch : pointer num)
| touchend
| resize.

Record state : Type := {
  controller : SplitPaneController.t num;
  block : TouchBlock.t num;
  dom : page num;
}.

Definition initial : state :=
  {| controller := SplitPaneController.constructor;
     block := TouchBlock.initial;
     dom := initial_page |}.

Definition on_divider (on : target) : bool :=
  match on with divider => true | elsewhere => false end.

(** The state after the listeners of [ev] have run, and whether one of
    them called [preventDefault]. *)
Definition dispatch (s : state) (w : layout num) (ev : event) : state * bool :=
  match ev with
  | mousedown divider _ =>
      let '(c, p) := SplitPaneController.handleDragStart (controller s) w (dom s) in
      ({| controller := c; block := block s; dom := p |}, false)
  | mousedown elsewhere _ => (s, false)
  | mousemove e =>
      ({| controller := controller s; block := block s;
          dom := SplitPaneController.handleDragMove (controller s) w (dom s) e |},
       false)
  | mouseup =>
      let '(c, p) := SplitPaneController.handleDragEnd (controller s) (dom s) in
      ({| controller := c; block := block s; dom := p |}, false)
  | touchstart divider touch =>
      let '(b, p, d1) := TouchBlock.divider_touchstart w (dom s) touch in
      let '(c, p, d2) := SplitPaneController.on_touchstart (controller s) w p in
      ({| controller := c; block := b; dom := p |}, d1 || d2)
  | touchstart elsewhere _ => (s, false)
  | touchmove on touch =>
      let d0 := on_divider on && TouchBlock.divider_touchmove in
      let '(p, d1) := TouchBlock.document_touchmove (block s) w (dom s) touch in
      let '(p, d2) := SplitPaneController.on_touchmove (controller s) w p touch in
      ({| controller := controller s; block := block s; dom := p |},
       d0 || d1 || d2)
  | touchend =>
      let '(b, p) := TouchBlock.document_touchend (block s) (dom s) in
      let '(c, p) := SplitPaneController.on_touchend (controller s) p in
      ({| controller := c; block := b; dom := p |}, false)
  | resize =>
      ({| controller := controller s; block := block s;
          dom := SplitPaneController.handleWindowResize w (dom s) |},
       false)
  end.

(** A sequence of events, each with the layout it finds. *)
Fixpoint run (s : state) (evs : list (layout num * event)) : state :=
  match evs with
  | [] => s
  | (w, ev) :: evs => run (fst (dispatch s w ev)) evs
  end.

End Listeners.
Arguments event : clear implicits.
Arguments state : clear implicits.
End Listeners.

(** ** class CanvasAnimationController

    The drawing calls on the 2d context and the size of the canvas leave
    no trace in the state below and are not embedded.  [Math.random()] is an input: a frame is given the
    three draws it may consume, in the order of the calls.  [Math.hypot]
    is a parameter, since its accuracy is left to the implementation. *)

Module CanvasAnimationController.
Section CanvasAnimationController.
Context {num : Type} `{Number num}.
Variable Math_hypot : num -> num -> num.

Record point : Type := { x : num; y : num }.

Record rgba : Type := { red : num; green : num; blue : num; opacity : num }.

Record dot : Type := {
  dot_x : num;
  dot_y : num;
  scale : num;
  color : rgba;
  speed : num;
}.

(** [text] is [None] when the array read yields [undefined]. *)
Record word : Type := {
  text : option string;
  word_x : num;
  word_y : num;
  rotation : num;
  alpha : num;
}.

Record t : Type := {
  dots : list dot;
  renderedWords : list word;
  usedWords : gset (option string);
  lastTextPosition : point;
  mousePosition : point;
  designTerms : list string;
}.

Definition NUM_DOTS : nat := 5.

Definition new_dot (mouse : point) (i : nat) : dot :=
  let i := int (Z.of_nat i) in
  {| dot_x := x mouse;
     dot_y := y mouse;
     scale := (int 1 - i * lit 2 10)%js;
     color := {| red := (int 135 - i * int 10)%js;
                 green := (int 206 - i * int 5)%js;
                 blue := (int 235 - i * int 12)%js;
                 opacity := lit 6 10 |};
     speed := (lit 1 10 + i * lit 2 100)%js |}.

Definition createDots (this : t) : t :=
  {| dots := dots this ++ map (new_dot (mousePosition this)) (seq 0 NUM_DOTS);
     renderedWords := renderedWords this;
     usedWords := usedWords this;
     lastTextPosition := lastTextPosition this;
     mousePosition := mousePosition this;
     designTerms := designTerms this |}.

Definition constructor : t :=
  createDots
    {| dots := [];
       renderedWords := [];
       usedWords := ∅;
       lastTextPosition := {| x := int 0; y := int 0 |};
       mousePosition := {| x := int 0; y := int 0 |};
       designTerms :=
         ["UI Designer"; "UX Design"; "Motion"; "Prototype";
          "Wireframe"; "User Flow"; "Research"; "Figma";
          "Design System"; "User Testing"; "Interaction"]%string |}.

(** The canvas mousemove listener of [setupEventListeners]. *)
Record mouse_event : Type := {
  clientX : num;
  clientY : num;
  rect_left : num;
  rect_top : num;
}.

Definition on_mousemove (this : t) (e : mouse_event) : t :=
  {| dots := dots this;
     renderedWords := renderedWords this;
     usedWords := usedWords this;
     lastTextPosition := lastTextPosition this;
     mousePosition := {| x := (clientX e - rect_left e)%js;
                         y := (clientY e - rect_top e)%js |};
     designTerms := designTerms this |}.

Definition updateDot (mouse : point) (d : dot) : dot :=
  {| dot_x := (dot_x d + (x mouse - dot_x d) * speed d)%js;
     dot_y := (dot_y d + (y mouse - dot_y d) * speed d)%js;
     scale := scale d;
     color := color d;
     speed := speed d |}.

Definition updateDots (this : t) : t :=
  {| dots := map (updateDot (mousePosition this)) (dots this);
     renderedWords := renderedWords this;
     usedWords := usedWords this;
     lastTextPosition := lastTextPosition this;
     mousePosition := mousePosition this;
     designTerms := designTerms this |}.

Definition addText (this : t) (x0 y0 : num) (random_index random_rotation : num) : t :=
  let distance :=
    Math_hypot (x0 - x (lastTextPosition this))%js
               (y0 - y (lastTextPosition this))%js in
  if (distance <? int 150)%js then this
  else
    let availableTerms :=
      filter (fun term => Some term ∉ usedWords this) (designTerms this) in
    if (length availableTerms =? 0)%nat then
      {| dots := dots this;
         renderedWords := renderedWords this;
         usedWords := ∅;
         lastTextPosition := lastTextPosition this;
         mousePosition := mousePosition this;
         designTerms := designTerms this |}
    else
      let text :=
        array_get availableTerms
          (Math_floor (random_index * int (Z.of_nat (length availableTerms)))%js) in
      {| dots := dots this;
         renderedWords :=
           renderedWords this ++
             [{| text := text;
                 word_x := x0;
                 word_y := y0;
                 rotation := (random_rotation * int 40 - int 20)%js;
                 alpha := int 0 |}];
         usedWords := {[ text ]} ∪ usedWords this;
         lastTextPosition := {| x := x0; y := y0 |};
         mousePosition := mousePosition this;
         designTerms := designTerms this |}.

(** The three values [Math.random()] returns during one frame. *)
Record draws : Type := {
  random_generate : num;
  random_index : num;
  random_rotation : num;
}.

Definition handleWordGeneration (this : t) (r : draws) : t :=
  if ((random_generate r >? lit 95 100)%js
      && (size (usedWords this) <? length (designTerms this))%nat)%bool
  then addText this (x (mousePosition this) + int 30)%js (y (mousePosition this))
               (random_index r) (random_rotation r)
  else this.

Definition fade_in (w : word) : word :=
  {| text := text w;
     word_x := word_x w;
     word_y := word_y w;
     rotation := rotation w;
     alpha := if (alpha w <? int 1)%js then (alpha w + lit 5 100)%js else alpha w |}.

Definition drawWords (this : t) : t :=
  {| dots := dots this;
     renderedWords := map fade_in (renderedWords this);
     usedWords := usedWords this;
     lastTextPosition := lastTextPosition this;
     mousePosition := mousePosition this;
     designTerms := designTerms this |}.

Definition animateFrame (this : t) (r : draws) : t :=
  drawWords (handleWordGeneration (updateDots this) r).

Inductive event : Type :=
| mousemove (e : mouse_event)
| frame (r : draws).

Definition step (this : t) (ev : event) : t :=
  match ev with
  | mousemove e => on_mousemove this e
  | frame r => animateFrame this r
  end.

Definition run (this : t) (evs : list event) : t := fold_left step evs this.

(** Labels in the order of their placement, each at least 150 away
    (as [Math.hypot] measures it) from the one placed before it;
    [prev] is the position the first one is measured from. *)
Fixpoint spaced (prev : point) (ws : list word) : Prop :=
  match ws with
  | [] => True
  | w :: ws =>
      (Math_hypot (word_x w - x prev)%js (word_y w - y prev)%js <? int 150)%js = false
      /\ spaced {| x := word_x w; y := word_y w |} ws
  end.

Definition last_position (prev : point) (ws : list word) : point :=
  fold_left (fun _ w => {| x := word_x w; y := word_y w |}) ws prev.

End CanvasAnimationController.
Arguments point : clear implicits.
Arguments dot : clear implicits.
Arguments word : clear implicits.
Arguments t : clear implicits.
Arguments draws : clear implicits.
Arguments mouse_event : clear implicits.
Arguments event : clear implicits.
End CanvasAnimationController.

(** ** class ScrollObserverController: the parallax effect

    The browser keeps the list of callbacks handed to
    [requestAnimationFrame] and runs all of them, once each, at the next
    frame.  The conversion of a string to a Number, which [*] applies to
    the text of the [data-depth] attribute, is a parameter. *)

Module ScrollObserverController.
Section ScrollObserverController.
Context {num : Type} `{Number num}.
Variable ToNumber : string -> num.

(** [translate3d(0, ${moveY}px, 0)] *)
Inductive transform_value : Type := translate3d_0_px_0 (moveY : num).

Record layer : Type := {
  dataset_depth : option string;
  transform : option transform_value;
}.

(** [layer.dataset.depth || 0.1]: the attribute's text unless it is
    missing or empty. *)
Definition depth (l : layer) : string + num :=
  match dataset_depth l with
  | Some s => if String.eqb s "" then inr (lit 1 10) else inl s
  | None => inr (lit 1 10)
  end.

Definition depth_factor (l : layer) : num :=
  match depth l with
  | inl s => ToNumber s
  | inr n => n
  end.

Definition update_layer (scrollY : num) (l : layer) : layer :=
  let moveY := (scrollY * depth_factor l)%js in
  {| dataset_depth := dataset_depth l;
     transform := Some (translate3d_0_px_0 moveY) |}.

(** The only callback this controller ever requests. *)
Inductive callback : Type := update_parallax.

Record window : Type := {
  scrollY : num;
  layers : list layer;
  animation_frame_callbacks : list callback;
}.

Definition run_callback (w : window) (c : callback) : window :=
  match c with
  | update_parallax =>
      {| scrollY := scrollY w;
         layers := map (update_layer (scrollY w)) (layers w);
         animation_frame_callbacks := animation_frame_callbacks w |}
  end.

(** The scroll listener of [setupParallaxEffect]. *)
Definition on_scroll (w : window) : window :=
  {| scrollY := scrollY w;
     layers := layers w;
     animation_frame_callbacks := animation_frame_callbacks w ++ [update_parallax] |}.

Inductive event : Type :=
| scroll (to : num)
| animation_frame.

(** One event, and how many times it ran the recomputation. *)
Definition step (w : window) (ev : event) : window * nat :=
  match ev with
  | scroll to =>
      (on_scroll {| scrollY := to; layers := layers w;
                    animation_frame_callbacks := animation_frame_callbacks w |},
       O)
  | animation_frame =>
      let pending := animation_frame_callbacks w in
      (fold_left run_callback pending
         {| scrollY := scrollY w; layers := layers w;
            animation_frame_callbacks := [] |},
       length pending)
  end.

Definition run (w : window) (evs : list event) : window :=
  fold_left (fun w ev => fst (step w ev)) evs w.

End ScrollObserverController.
Arguments layer : clear implicits.
Arguments window : clear implicits.
Arguments event : clear implicits.
Arguments transform_value : clear implicits.
End ScrollObserverController.

(** ** The project feed renderers

    An async function is embedded as a computation over the two
    containers it writes, which either returns or throws; [await] of a
    rejected promise throws.  The network is an input: the outcome of
    each request.  Markup is kept as the sequence of blocks written into
    [innerHTML], each card remembering the record it was rendered from.
    The texts of the errors the engine raises, and the time value the
    [Date] constructor gives a JSON value, are parameters. *)

Module Feeds.
Section Feeds.
Context {num : Type}.

(** The result of [JSON.parse], and [undefined] for a missing property. *)
#[warnings="-register-all"]
Inductive value : Type :=
| undefined
| null
| boolean (b : bool)
| number (n : num)
| str (s : string)
| array (elements : list value)
| object (fields : list (string * value)).

Inductive block : Type :=
| spinner
| error_block (text : string)
| repo_card (repo : value)
| file_card (file : value).

(** [#projects-grid] and [#design-projects], when the page has them. *)
Record dom : Type := {
  projects_grid : option (list block);
  design_projects : option (list block);
}.

Inductive error : Type :=
| Error (message : string)
| TypeError (message : string)
| SyntaxError (message : string).

Definition message (e : error) : string :=
  match e with Error m | TypeError m | SyntaxError m => m end.

Inductive engine_fault : Type :=
| read_property_of (v : value) (key : string)
| set_property_of_null (key : string)
| not_iterable (v : value).

Variable fault_message : engine_fault -> string.
Variable Date_time : value -> option Z.

Inductive completion (A : Type) : Type :=
| returned (a : A)
| thrown (e : error).
Arguments returned {A} a.
Arguments thrown {A} e.

Definition M (A : Type) : Type := dom -> completion A * dom.

Definition ret {A} (a : A) : M A := fun d => (returned a, d).
Definition throw {A} (e : error) : M A := fun d => (thrown e, d).
Definition bind {A B} (c : M A) (k : A -> M B) : M B :=
  fun d => match c d with
           | (returned a, d) => k a d
           | (thrown e, d) => (thrown e, d)
           end.
Definition try_catch {A} (body : M A) (handler : error -> M A) : M A :=
  fun d => match body d with
           | (returned a, d) => (returned a, d)
           | (thrown e, d) => handler e d
           end.

Notation "'let*' x ':=' c 'in' k" := (bind c (fun x => k))
  (at level 10, x pattern, c at level 100, k at level 200).
Notation "c ';;' k" := (bind c (fun _ => k))
  (at level 100, k at level 200, right associativity).

Fixpoint mapM {A B} (f : A -> M B) (l : list A) : M (list B) :=
  match l with
  | [] => ret []
  | a :: l => let* b := f a in let* bs := mapM f l in ret (b :: bs)
  end.

(** *** Values *)

Fixpoint lookup_field (k : string) (fields : list (string * value)) : value :=
  match fields with
  | [] => undefined
  | (k', v) :: fields => if String.eqb k k' then v else lookup_field k fields
  end.

(** [v.k], for the property names this script reads: none of them is
    found on a primitive or on an array. *)
Definition get (v : value) (k : string) : M value :=
  match v with
  | undefined | null => throw (TypeError (fault_message (read_property_of v k)))
  | object fields => ret (lookup_field k fields)
  | _ => ret undefined
  end.

(** The values [for ... of] and the spread [...v] go through: the
    elements of an array, the characters of a string. *)
Definition iterate (v : value) : M (list value) :=
  match v with
  | array l => ret l
  | str s => ret (map (fun c => str (String c EmptyString)) (list_ascii_of_string s))
  | _ => throw (TypeError (fault_message (not_iterable v)))
  end.

(** *** The network *)

Inductive body : Type :=
| unparsable (message : string)
| json (v : value).

Record response : Type := { status : Z; response_body : body }.

Definition ok (r : response) : bool := (200 <=? status r) && (status r <=? 299).

Inductive fetch_result : Type :=
| rejected (message : string)
| resolved (r : response).

Definition await_fetch (f : fetch_result) : M response :=
  match f with
  | rejected m => throw (TypeError m)
  | resolved r => ret r
  end.

Definition await_json (r : response) : M value :=
  match response_body r with
  | unparsable m => throw (SyntaxError m)
  | json v => ret v
  end.

Definition string_of_status (s : Z) : string :=
  NilZero.string_of_int (Z.to_int s).

(** *** fetchGitHubRepos *)

Definition set_projects_grid (content : list block) : M unit :=
  fun d => match projects_grid d with
           | None => (thrown (TypeError (fault_message (set_property_of_null "innerHTML"))), d)
           | Some _ => (returned tt,
                        {| projects_grid := Some content;
                           design_projects := design_projects d |})
           end.

Definition render_repo (repo : value) : M block :=
  get repo "private" ;; ret (repo_card repo).

Definition fetchGitHubRepos (github : fetch_result) : M unit :=
  try_catch
    (set_projects_grid [spinner] ;;
     let* response := await_fetch github in
     if negb (ok response) then
       throw (Error ("GitHub API error: " ++ string_of_status (status response)))
     else
       let* repos := await_json response in
       match repos with
       | array l => let* cards := mapM render_repo l in set_projects_grid cards
       | _ =>
           set_projects_grid
             [error_block "Error: Could not load projects. Invalid data received from GitHub API."]
       end)
    (fun error =>
       set_projects_grid [error_block ("Error loading projects: " ++ message error)]).

(** *** The design-file feed *)

Definition getFigmaProjectFiles (files_request : value -> fetch_result)
    (projectId : value) : M value :=
  try_catch
    (let* response := await_fetch (files_request projectId) in
     let* data := await_json response in
     get data "files")
    (fun error => ret (array [])).

Definition renderFigmaProject (file : value) : M block :=
  get file "thumbnail_url" ;; ret (file_card file).

Definition set_design_projects (content : list block) : M unit :=
  fun d => match design_projects d with
           | None => (thrown (TypeError (fault_message (set_property_of_null "innerHTML"))), d)
           | Some _ => (returned tt,
                        {| projects_grid := projects_grid d;
                           design_projects := Some content |})
           end.

Definition renderFigmaProjects (files : list value) : M unit :=
  fun d => match design_projects d with
           | None => (returned tt, d)
           | Some _ =>
               (let* cards := mapM renderFigmaProject files in
                set_design_projects cards) d
           end.

(** [new Date(b.last_modified) - new Date(a.last_modified)]; [None] is NaN. *)
Definition by_last_modified (a b : value) : M (option Z) :=
  let* mb := get b "last_modified" in
  let* ma := get a "last_modified" in
  ret (match Date_time mb, Date_time ma with
       | Some tb, Some ta => Some (tb - ta)
       | _, _ => None
       end).

(** [Array.prototype.sort]: stable, [a] stays before [b] unless the
    comparator is positive on them (NaN counts as zero).  For a
    comparator that is not a consistent order the standard leaves the
    result to the implementation; this is insertion from the right.
    (An array read from JSON holds no [undefined], which [sort] would
    move to the end without comparing it.) *)
Fixpoint insert_sorted (comparefn : value -> value -> M (option Z))
    (a : value) (sorted : list value) : M (list value) :=
  match sorted with
  | [] => ret [a]
  | b :: rest =>
      let* v := comparefn a b in
      match v with
      | Some v =>
          if 0 <? v then let* rest := insert_sorted comparefn a rest in ret (b :: rest)
          else ret (a :: b :: rest)
      | None => ret (a :: b :: rest)
      end
  end.

Fixpoint sort (comparefn : value -> value -> M (option Z)) (l : list value)
    : M (list value) :=
  match l with
  | [] => ret []
  | a :: l => let* sorted := sort comparefn l in insert_sorted comparefn a sorted
  end.

(** The body of the [for ... of] loop over the projects. *)
Fixpoint collect_files (files_request : value -> fetch_result)
    (projects : list value) (allFiles : list value) : M (list value) :=
  match projects with
  | [] => ret allFiles
  | project :: projects =>
      let* id := get project "id" in
      let* files := getFigmaProjectFiles files_request id in
      let* spread := iterate files in
      collect_files files_request projects (allFiles ++ spread)
  end.

Definition fetchRecentFigmaFiles (team_request : fetch_result)
    (files_request : value -> fetch_result) : M unit :=
  fun d =>
    match design_projects d with
    | None => (returned tt, d)
    | Some _ =>
        try_catch
          (set_design_projects [spinner] ;;
           let* projectsResponse := await_fetch team_request in
           let* projectsData := await_json projectsResponse in
           let* listed := get projectsData "projects" in
           let* projects := iterate listed in
           let* allFiles := collect_files files_request projects [] in
           let* sorted := sort by_last_modified allFiles in
           let recentFiles := firstn 5 sorted in
           renderFigmaProjects recentFiles)
          (fun error => set_design_projects [error_block (message error)])
          d
    end.

(** The last-modified time of a file record, when it has a valid one. *)
Definition modified (file : value) : option Z :=
  match file with
  | object fields => Date_time (lookup_field "last_modified" fields)
  | _ => None
  end.

End Feeds.
Arguments value : clear implicits.
Arguments block : clear implicits.
Arguments dom : clear implicits.
Arguments body : clear implicits.
Arguments response : clear implicits.
Arguments fetch_result : clear implicits.
Arguments engine_fault : clear implicits.
Arguments returned {A} a.
Arguments thrown {A} e.
End Feeds.

(** ** Element.classList

    A DOMTokenList: the class tokens of an element, in order and without
    repetition. *)

Module ClassList.

Definition t : Type := list string.

Definition contains (l : t) (token : string) : bool := bool_decide (token ∈ l).

Definition add (l : t) (token : string) : t :=
  if contains l token then l else l ++ [token].

Definition remove (l : t) (token : string) : t :=
  filter (fun c => c <> token) l.

Definition toggle (l : t) (token : string) : t :=
  if contains l token then remove l token else add l token.

End ClassList.

(** ** class ScrollObserverController: the reveal sections

    The IntersectionObserver is the browser's: it calls back with
    entries for the sections it was told to observe, each entry saying
    whether its target is at least a tenth in view. *)

Module SectionObserver.
Section SectionObserver.
Context {num : Type} `{Number num}.

(** [`${index * 200}ms`] *)
Inductive duration : Type := ms (v : num).

(** An element of [document.querySelectorAll('.reveal-section')]. *)
Record section : Type := {
  transitionDelay : option duration;
  classList : ClassList.t;
  observed : bool;
}.

(** An entry; its target is an observed section, named here by its
    position among the reveal sections. *)
Record entry : Type := {
  isIntersecting : bool;
  target : nat;
}.

Definition initializeObservers (sections : list section) : list section :=
  imap (fun index s =>
          {| transitionDelay := Some (ms (int (Z.of_nat index) * int 200)%js);
             classList := classList s;
             observed := true |})
    sections.

Definition handleSectionIntersection (sections : list section) (e : entry)
    : list section :=
  if isIntersecting e then
    alter (fun s => {| transitionDelay := transitionDelay s;
                       classList := ClassList.add (classList s) "active";
                       observed := observed s |})
      (target e) sections
  else sections.

(** The callback given to the observer: [entries.forEach(...)]. *)
Definition sectionObserver (sections : list section) (entries : list entry)
    : list section :=
  fold_left handleSectionIntersection entries sections.

(** The sections after the observer has called back with each batch. *)
Definition observe (sections : list section) (batches : list (list entry))
    : list section :=
  fold_left sectionObserver batches sections.

End SectionObserver.
Arguments duration : clear implicits.
Arguments section : clear implicits.
End SectionObserver.

(** ** The profile image

    [toggleProfileVisibility] and [window.toggleProfileImage].  The
    callbacks handed to [requestAnimationFrame] and to [setTimeout] wait
    in the browser's queues; all timeouts are of 300 ms, so they fire in
    the order they were set.  No operation on a class list throws, so
    the [catch] block of [toggleProfileImage] is never entered. *)

Module Profile.

(** How a call ends. *)
Inductive completion (A : Type) : Type :=
| returned (a : A)
| thrown_TypeError.
Arguments returned {A} a.
Arguments thrown_TypeError {A}.

(** [container] is the class list of #profileContainer, [None] when the
    page has no such element. *)
Definition toggleProfileVisibility (container : option ClassList.t)
    : completion ClassList.t :=
  match container with
  | None => thrown_TypeError
  | Some classList =>
      returned (ClassList.toggle (ClassList.toggle classList "hidden") "flex")
  end.

Inductive callback : Type :=
| show_modal   (* remove translate-y-full, remove opacity-0 *)
| hide_modal.  (* add hidden *)

Record t : Type := {
  (** the class list of #profile-modal, [None] without the element *)
  modal : option ClassList.t;
  animation_frame_callbacks : list callback;
  timeouts : list callback;
  console_errors : nat;
}.

Definition toggleProfileImage (s : t) : t :=
  match modal s with
  | None =>
      {| modal := None;
         animation_frame_callbacks := animation_frame_callbacks s;
         timeouts := timeouts s;
         console_errors := S (console_errors s) |}
  | Some classList =>
      if ClassList.contains classList "hidden" then
        {| modal := Some (ClassList.remove classList "hidden");
           animation_frame_callbacks := animation_frame_callbacks s ++ [show_modal];
           timeouts := timeouts s;
           console_errors := console_errors s |}
      else
        {| modal := Some (ClassList.add (ClassList.add classList "translate-y-full")
                            "opacity-0");
           animation_frame_callbacks := animation_frame_callbacks s;
           timeouts := timeouts s ++ [hide_modal];
           console_errors := console_errors s |}
  end.

Definition run_callback (classList : ClassList.t) (c : callback) : ClassList.t :=
  match c with
  | show_modal =>
      ClassList.remove (ClassList.remove classList "translate-y-full") "opacity-0"
  | hide_modal => ClassList.add classList "hidden"
  end.

Inductive event : Type :=
| click            (* a call of toggleProfileImage *)
| animation_frame  (* the next frame: every requested callback runs *)
| timeout.         (* the oldest pending timeout fires *)

Definition step (s : t) (ev : event) : t :=
  match ev with
  | click => toggleProfileImage s
  | animation_frame =>
      {| modal := option_map (fun l => fold_left run_callback (animation_frame_callbacks s) l)
                    (modal s);
         animation_frame_callbacks := [];
         timeouts := timeouts s;
         console_errors := console_errors s |}
  | timeout =>
      match timeouts s with
      | [] => s
      | c :: rest =>
          {| modal := option_map (fun l => run_callback l c) (modal s);
             animation_frame_callbacks := animation_frame_callbacks s;
             timeouts := rest;
             console_errors := console_errors s |}
      end
  end.

Definition run (s : t) (evs : list event) : t := fold_left step evs s.

(** The modal out of sight: what the closing branch and its timeout
    leave behind. *)
Definition closed (classList : ClassList.t) : Prop :=
  ClassList.contains classList "hidden" = true
  /\ ClassList.contains classList "translate-y-full" = true
  /\ ClassList.contains classList "opacity-0" = true.

(** The modal in full view. *)
Definition open (classList : ClassList.t) : Prop :=
  ClassList.contains classList "hidden" = false
  /\ ClassList.contains classList "translate-y-full" = false
  /\ ClassList.contains classList "opacity-0" = false.

End Profile.

(** ** The mobile view switch (last DOMContentLoaded block) *)

Module ViewSwitch.

(** The inline [display] of the two sections (the empty string when
    unset) and the text of #toggle-section. *)
Record t : Type := {
  designSection_display : string;
  devSection_display : string;
  toggleButton_textContent : string;
}.

(** The click listener of the button. *)
Definition on_click (s : t) : t :=
  if String.eqb (designSection_display s) "none" then
    {| designSection_display := "block";
       devSection_display := "none";
       toggleButton_textContent := "Switch to Dev Portfolio" |}
  else
    {| designSection_display := "none";
       devSection_display := "block";
       toggleButton_textContent := "Switch to UI/UX Portfolio" |}.

End ViewSwitch.

(** ** The earlier version of the controller (part_000)

    It has no touch listeners, and its [resetMobileLayout] sets the two
    widths only; every other method reads as in main.js. *)

Module EarlierVersion.
Section EarlierVersion.
Context {num : Type} `{Number num}.

Definition resetMobileLayout (p : page num) : page num :=
  let p := set_primary p (set_width (primarySection p) (percent (int 100))) in
  set_secondary p (set_width (secondarySection p) (percent (int 100))).

Definition handleWindowResize (w : layout num) (p : page num) : page num :=
  if SplitPaneController.isDesktopViewport w
  then SplitPaneController.resetDesktopLayout p
  else resetMobileLayout p.

End EarlierVersion.
End EarlierVersion.

(** ** Properties the statements are written in *)

(** The squared Euclidean distance between two points of the plane. *)
Definition sq_distance (ax ay bx b_y : Q) : Q :=
  ((ax - bx) * (ax - bx) + (ay - b_y) * (ay - b_y))%Q.

Section CanvasProperties.
Import CanvasAnimationController.
Context {num : Type} `{Number num}.
Variable Math_hypot : num -> num -> num.

(** What one call of [addText] can do. *)
Inductive addText_outcome (this this' : t num) (x0 y0 : num) : Prop :=
| too_close :
    (Math_hypot (x0 - x (lastTextPosition this))%js
                (y0 - y (lastTextPosition this))%js <? int 150)%js = true ->
    this' = this ->
    addText_outcome this this' x0 y0
| reset :
    (forall term, term ∈ designTerms this -> Some term ∈ usedWords this) ->
    usedWords this' = ∅ ->
    renderedWords this' = renderedWords this ->
    lastTextPosition this' = lastTextPosition this ->
    designTerms this' = designTerms this ->
    addText_outcome this this' x0 y0
| placed (w : word num) :
    (Math_hypot (x0 - x (lastTextPosition this))%js
                (y0 - y (lastTextPosition this))%js <? int 150)%js = false ->
    word_x w = x0 -> word_y w = y0 ->
    text w ∉ usedWords this \/ text w = None ->
    renderedWords this' = renderedWords this ++ [w] ->
    usedWords this' = {[ text w ]} ∪ usedWords this ->
    lastTextPosition this' = {| x := x0; y := y0 |} ->
    designTerms this' = designTerms this ->
    addText_outcome this this' x0 y0.

(** What every state the animation reaches satisfies. *)
Definition invariant (this : t num) : Prop :=
  spaced Math_hypot {| x := int 0; y := int 0 |} (renderedWords this)
  /\ lastTextPosition this
     = last_position {| x := int 0; y := int 0 |} (renderedWords this)
  /\ (size (usedWords this) <= length (designTerms this))%nat
  /\ designTerms this = designTerms (@constructor num _)
  /\ NoDup (omap text (renderedWords this))
  /\ (forall term, term ∈ omap text (renderedWords this) -> Some term ∈ usedWords this).

End CanvasProperties.

Section Gestures.
Context {num : Type} `{Number num}.

(** One finger: it goes down on a target, moves, and lifts; every event
    of the gesture is targeted where the finger went down. *)
Record gesture : Type := {
  touched : Listeners.target;
  touch_down : layout num * pointer num;
  touch_moves : list (layout num * pointer num);
  touch_up : layout num;
}.

Definition gesture_events (g : gesture) : list (layout num * Listeners.event num) :=
  (fst (touch_down g), Listeners.touchstart (touched g) (snd (touch_down g)))
  :: map (fun m => (fst m, Listeners.touchmove (touched g) (snd m))) (touch_moves g)
  ++ [(touch_up g, Listeners.touchend)].

(** For each touch-move of a run: was the controller Dragging when it
    arrived, and was its default prevented. *)
Fixpoint touchmove_log (s : Listeners.state num)
    (evs : list (layout num * Listeners.event num)) : list (bool * bool) :=
  match evs with
  | [] => []
  | (w, ev) :: evs =>
      let '(s', prevented) := Listeners.dispatch s w ev in
      match ev with
      | Listeners.touchmove _ _ =>
          (SplitPaneController.isDragging (Listeners.controller s), prevented)
          :: touchmove_log s' evs
      | _ => touchmove_log s' evs
      end
  end.

Definition idle (s : Listeners.state num) : Prop :=
  SplitPaneController.isDragging (Listeners.controller s) = false
  /\ TouchBlock.isDragging (Listeners.block s) = false.

End Gestures.
Arguments gesture : clear implicits.

(** [a] was modified no earlier than [b], both having a valid date. *)
Definition recent_first {num : Type} (Date_time : Feeds.value num -> option Z)
    (a b : Feeds.value num) : Prop :=
  match Feeds.modified Date_time a, Feeds.modified Date_time b with
  | Some ta, Some tb => tb <= ta
  | _, _ => False
  end.

Definition nullish {num : Type} (v : Feeds.value num) : bool :=
  match v with
  | Feeds.undefined | Feeds.null => true
  | _ => false
  end.

(** The outcomes of the repository request that are failures: a
    rejection, a status outside 200-299, a body that is not JSON, a
    payload that is not an array, an array that holds a [null]. *)
Definition github_failure {num : Type} (f : Feeds.fetch_result num) : bool :=
  match f with
  | Feeds.rejected _ => true
  | Feeds.resolved r =>
      negb (Feeds.ok r)
      || match Feeds.response_body r with
         | Feeds.unparsable _ => true
         | Feeds.json (Feeds.array l) => existsb nullish l
         | Feeds.json _ => true
         end
  end.

(** The outcomes of the team request the design renderer notices: a
    rejection, a body that is not JSON, a payload whose [projects] cannot
    be iterated. *)
Definition team_failure {num : Type} (f : Feeds.fetch_result num) : bool :=
  match f with
  | Feeds.rejected _ => true
  | Feeds.resolved r =>
      match Feeds.response_body r with
      | Feeds.unparsable _ => true
      | Feeds.json (Feeds.object fields) =>
          match Feeds.lookup_field "projects" fields with
          | Feeds.array _ | Feeds.str _ => false
          | _ => true
          end
      | Feeds.json _ => true
      end
  end.

(** A file request that was rejected or whose body is not JSON. *)
Definition files_failure {num : Type} (f : Feeds.fetch_result num) : bool :=
  match f with
  | Feeds.rejected _ => true
  | Feeds.resolved r =>
      match Feeds.response_body r with
      | Feeds.unparsable _ => true
      | Feeds.json _ => false
      end
  end.

Section FeedProperties.
Import Feeds.
Context {num : Type}.

(** A computation that leaves both containers as they are. *)
Definition silent {A} (c : M A) : Prop := forall d : dom num, snd (c d) = d.

(** A computation that keeps #design-projects in the page and leaves
    #projects-grid alone. *)
Definition keeps {A} (c : M A) : Prop :=
  forall d : dom num,
    is_Some (design_projects d) ->
    is_Some (design_projects (snd (c d)))
    /\ projects_grid (snd (c d)) = projects_grid d.

End FeedProperties.

Section ListenerProperties.
Context {num : Type} `{Number num}.

(** An event that neither presses the divider nor resizes the window. *)
Definition quiet (ev : Listeners.event num) : bool :=
  match ev with
  | Listeners.mousedown Listeners.divider _
  | Listeners.touchstart Listeners.divider _
  | Listeners.resize => false
  | _ => true
  end.

(** The cursor of the body is one of the two resize cues. *)
Definition resize_cue (c : option string) : bool :=
  match c with
  | Some s => String.eqb s "col-resize" || String.eqb s "row-resize"
  | None => false
  end.

(** A series of drag-moves, each with the layout it finds. *)
Definition drag_moves (this : SplitPaneController.t num) (p : page num)
    (moves : list (layout num * pointer num)) : page num :=
  fold_left (fun p m => SplitPaneController.handleDragMove this (fst m) p (snd m))
    moves p.

End ListenerProperties.

(** The inline style [resetMobileLayout] gives each section. *)
Definition half_viewport_style {num : Type} `{Number num} : style num :=
  {| width := Some (percent (int 100));
     height := Some (vh (int 50));
     overflowY := Some "auto"%string;
     webkitOverflowScrolling := Some "touch"%string |}.

Section CanvasRunProperties.
Import CanvasAnimationController.
Context {num : Type} `{Number num}.

(** What a label keeps for good: its term, its position, its rotation. *)
Definition placement (w : word num) : option string * num * num * num :=
  (text w, word_x w, word_y w, rotation w).

(** What a dot keeps for good. *)
Definition appearance (d : dot num) : num * rgba (num := num) * num :=
  (scale d, color d, speed d).

Definition is_frame (ev : event num) : bool :=
  match ev with frame _ => true | mousemove _ => false end.

End CanvasRunProperties.

(** A value [Math.random()] may return, in exact arithmetic: a rational
    in [0, 1). *)
Definition unit_interval (v : xnum) : bool :=
  match v with
  | XFin q => Qle_bool 0 q && negb (Qle_bool 1 q)
  | _ => false
  end.

(** The frame draws its array index and its rotation within [0, 1). *)
Definition draws_in_unit_interval (ev : CanvasAnimationController.event xnum) : bool :=
  match ev with
  | CanvasAnimationController.frame r =>
      unit_interval (CanvasAnimationController.random_index r)
      && unit_interval (CanvasAnimationController.random_rotation r)
  | CanvasAnimationController.mousemove _ => true
  end.

(** A label that shows a term of the vocabulary, turned by at least -20
    and less than 20 degrees. *)
Definition well_formed_label (terms : list string)
    (w : CanvasAnimationController.word xnum) : Prop :=
  exists (term : string) (q : Q),
    CanvasAnimationController.text w = Some term /\ term ∈ terms
    /\ CanvasAnimationController.rotation w = XFin q /\ (-20 <= q < 20)%Q.

(** The invariant of the animation together with: every label is well
    formed, and the labels are as many as the words in use. *)
Definition counted (Math_hypot : xnum -> xnum -> xnum)
    (this : CanvasAnimationController.t xnum) : Prop :=
  invariant Math_hypot this
  /\ Forall (well_formed_label (CanvasAnimationController.designTerms this))
       (CanvasAnimationController.renderedWords this)
  /\ length (CanvasAnimationController.renderedWords this)
     = size (CanvasAnimationController.usedWords this).

(** The number a double stands for, when it is finite. *)
Definition exact_value (v : spec_float) : option Q :=
  match v with
  | S754_zero _ => Some 0%Q
  | S754_finite s m e => Some (inject_Z (cond_Zopp s (Zpos m)) * 2 ^ e)%Q
  | _ => None
  end.

Definition is_finite (v : xnum) : bool :=
  match v with XFin _ => true | _ => false end.

(** A mouse move whose coordinates, and the canvas corner they are taken
    from, are finite numbers. *)
Definition finite_pointer (ev : CanvasAnimationController.event xnum) : bool :=
  match ev with
  | CanvasAnimationController.mousemove e =>
      is_finite (CanvasAnimationController.clientX e)
      && is_finite (CanvasAnimationController.clientY e)
      && is_finite (CanvasAnimationController.rect_left e)
      && is_finite (CanvasAnimationController.rect_top e)
  | CanvasAnimationController.frame _ => true
  end.

(** A [Math.hypot] that reports 150 or more only for offsets whose
    Euclidean length is at least 150. *)
Definition sound_at_150 (Math_hypot : xnum -> xnum -> xnum) : Prop :=
  forall a b : Q,
    (Math_hypot (XFin a) (XFin b) <? int 150)%js = false ->
    (150 * 150 <= a * a + b * b)%Q.

(** Labels in the order of their placement, each at a Euclidean distance
    of at least 150 from the one placed before it; the first one is
    measured from [(px, py)]. *)
Fixpoint euclidean_spaced (px py : Q) (ws : list (CanvasAnimationController.word xnum))
    : Prop :=
  match ws with
  | [] => True
  | w :: ws =>
      exists x y : Q,
        CanvasAnimationController.word_x w = XFin x
        /\ CanvasAnimationController.word_y w = XFin y
        /\ (150 * 150 <= sq_distance x y px py)%Q
        /\ euclidean_spaced x y ws
  end.

(** The pointer and every label lie at finite coordinates. *)
Definition located (this : CanvasAnimationController.t xnum) : Prop :=
  is_finite (CanvasAnimationController.x (CanvasAnimationController.mousePosition this))
  = true
  /\ is_finite (CanvasAnimationController.y (CanvasAnimationController.mousePosition this))
     = true
  /\ Forall (fun w => is_finite (CanvasAnimationController.word_x w) = true
                      /\ is_finite (CanvasAnimationController.word_y w) = true)
       (CanvasAnimationController.renderedWords this).

(** The two views the switch alternates between. *)
Definition design_view : ViewSwitch.t :=
  {| ViewSwitch.designSection_display := "block";
     ViewSwitch.devSection_display := "none";
     ViewSwitch.toggleButton_textContent := "Switch to Dev Portfolio" |}.

Definition dev_view : ViewSwitch.t :=
  {| ViewSwitch.designSection_display := "none";
     ViewSwitch.devSection_display := "block";
     ViewSwitch.toggleButton_textContent := "Switch to UI/UX Portfolio" |}.

(** Does a batch of entries report section [i] as intersecting? *)
Definition reports_intersecting (i : nat) (entries : list SectionObserver.entry) : bool :=
  existsb (fun e => SectionObserver.isIntersecting e
                    && (SectionObserver.target e =? i)%nat) entries.

(** What one project adds to [allFiles]: the files its listing holds,
    or nothing when its file request fails (see [files_failure]). *)
Inductive project_files {num : Type}
    (files_request : Feeds.value num -> Feeds.fetch_result num)
    : Feeds.value num -> list (Feeds.value num) -> Prop :=
| files_listed (fields : list (string * Feeds.value num)) (r : Feeds.response num)
      (g : list (string * Feeds.value num)) (files : list (Feeds.value num)) :
    files_request (Feeds.lookup_field "id" fields) = Feeds.resolved r ->
    Feeds.response_body r = Feeds.json (Feeds.object g) ->
    Feeds.lookup_field "files" g = Feeds.array files ->
    project_files files_request (Feeds.object fields) files
| files_missing (fields : list (string * Feeds.value num)) :
    files_failure (files_request (Feeds.lookup_field "id" fields)) = true ->
    project_files files_request (Feeds.object fields) [].

(** A value that [for ... of] and the spread can go through. *)
Definition iterable {num : Type} (v : Feeds.value num) : bool :=
  match v with
  | Feeds.array _ | Feeds.str _ => true
  | _ => false
  end.

(** ** Concrete pages, events and responses *)

(** A desktop window, in exact arithmetic. *)
Definition desktop_layout : layout xnum :=
  {| innerWidth := int 1280; innerHeight := int 720;
     container_offsetWidth := int 1280; container_offsetHeight := int 720;
     leftPanel_offsetHeight := int 720 |}.

(** A phone held upright, in exact arithmetic. *)
Definition tall_viewport : layout xnum :=
  {| innerWidth := int 390; innerHeight := int 844;
     container_offsetWidth := int 390; container_offsetHeight := int 844;
     leftPanel_offsetHeight := int 422 |}.

(** The same phone, in doubles. *)
Definition phone : layout spec_float :=
  {| innerWidth := int 390; innerHeight := int 844;
     container_offsetWidth := int 390; container_offsetHeight := int 844;
     leftPanel_offsetHeight := int 422 |}.

(** The phone with a container that has collapsed to no height. *)
Definition collapsed_layout : layout spec_float :=
  {| innerWidth := int 390; innerHeight := int 844;
     container_offsetWidth := int 390; container_offsetHeight := int 0;
     leftPanel_offsetHeight := int 422 |}.

(** A viewport 150 pixels high. *)
Definition short_viewport : layout spec_float :=
  {| innerWidth := int 667; innerHeight := int 150;
     container_offsetWidth := int 667; container_offsetHeight := int 150;
     leftPanel_offsetHeight := int 75 |}.

Definition pointer_at (a b : Z) : CanvasAnimationController.event spec_float :=
  CanvasAnimationController.mousemove
    {| CanvasAnimationController.clientX := int a;
       CanvasAnimationController.clientY := int b;
       CanvasAnimationController.rect_left := int 0;
       CanvasAnimationController.rect_top := int 0 |}.

(** A frame whose first draw is [generate/100], and which would pick the
    first available term. *)
Definition frame_drawing (generate : Z) : CanvasAnimationController.event spec_float :=
  CanvasAnimationController.frame
    {| CanvasAnimationController.random_generate := lit generate 100;
       CanvasAnimationController.random_index := int 0;
       CanvasAnimationController.random_rotation := lit 5 10 |}.

Definition two_placements : list (CanvasAnimationController.event spec_float) :=
  [pointer_at 200 0; frame_drawing 99; pointer_at 0 0; frame_drawing 99].

(** Eleven placements, the pointer swinging 200 pixels between them. *)
Definition exhausting_events : list (CanvasAnimationController.event spec_float) :=
  two_placements ++ two_placements ++ two_placements ++ two_placements
  ++ two_placements ++ [pointer_at 200 0; frame_drawing 99].

(** The pointer moves to (100, 50) and stays there for 400 frames. *)
Definition resting_events : list (CanvasAnimationController.event spec_float) :=
  pointer_at 100 50 :: repeat (frame_drawing 0) 400.

(** A dot with a speed strictly between 0 and 1 that lies strictly to
    the upper left of the pointer. *)
Definition short_of (mouse : CanvasAnimationController.point spec_float)
    (d : CanvasAnimationController.dot spec_float) : bool :=
  ((int 0 <? CanvasAnimationController.speed d)%js
   && (CanvasAnimationController.speed d <? int 1)%js
   && (CanvasAnimationController.dot_x d <? CanvasAnimationController.x mouse)%js
   && (CanvasAnimationController.dot_y d <? CanvasAnimationController.y mouse)%js)%bool.

Definition exact_pointer : CanvasAnimationController.point xnum :=
  {| CanvasAnimationController.x := int 100; CanvasAnimationController.y := int 50 |}.

Definition exact_first_dot : CanvasAnimationController.dot xnum :=
  CanvasAnimationController.new_dot
    {| CanvasAnimationController.x := int 0; CanvasAnimationController.y := int 0 |} 0.

(** Every [data-depth] on this page reads "0.5". *)
Definition half_depth (s : string) : spec_float := lit 5 10.

Definition parallax_page : ScrollObserverController.window spec_float :=
  {| ScrollObserverController.scrollY := int 0;
     ScrollObserverController.layers :=
       [{| ScrollObserverController.dataset_depth := Some "0.5"%string;
           ScrollObserverController.transform := None |};
        {| ScrollObserverController.dataset_depth := None;
           ScrollObserverController.transform := None |}];
     ScrollObserverController.animation_frame_callbacks := [] |}.

Definition engine_text (f : Feeds.engine_fault spec_float) : string :=
  match f with
  | Feeds.read_property_of v key =>
      String.append
        (if nullish v then
           match v with
           | Feeds.null => "Cannot read properties of null (reading '"
           | _ => "Cannot read properties of undefined (reading '"
           end
         else "Cannot read properties (reading '")
        (String.append key "')")
  | Feeds.set_property_of_null key =>
      String.append "Cannot set properties of null (setting '" (String.append key "')")
  | Feeds.not_iterable _ => "object is not iterable"
  end%string.

(** A page that has both containers, still empty. *)
Definition loaded_page : Feeds.dom spec_float :=
  {| Feeds.projects_grid := Some []; Feeds.design_projects := Some [] |}.

Definition iso_dates : list (string * Z) :=
  [("2024-01-01T00:00:00Z", 1704067200000);
   ("2024-01-02T00:00:00Z", 1704153600000);
   ("2024-01-03T00:00:00Z", 1704240000000);
   ("2024-01-04T00:00:00Z", 1704326400000);
   ("2024-01-05T00:00:00Z", 1704412800000);
   ("2024-01-06T00:00:00Z", 1704499200000);
   ("2024-01-07T00:00:00Z", 1704585600000)]%string.

Fixpoint assoc (k : string) (table : list (string * Z)) : option Z :=
  match table with
  | [] => None
  | (k', t) :: table => if String.eqb k k' then Some t else assoc k table
  end.

(** The time value of the seven dates above; any other value is taken
    for an invalid date. *)
Definition iso_time (v : Feeds.value spec_float) : option Z :=
  match v with
  | Feeds.str s => assoc s iso_dates
  | _ => None
  end.

Definition design_file (name date : string) : Feeds.value spec_float :=
  Feeds.object [("key", Feeds.str name); ("name", Feeds.str name);
                ("thumbnail_url", Feeds.null); ("last_modified", Feeds.str date)]%string.

Definition first_project_files : list (Feeds.value spec_float) :=
  [design_file "landing" "2024-01-03T00:00:00Z";
   design_file "icons" "2024-01-07T00:00:00Z";
   design_file "wireframes" "2024-01-01T00:00:00Z";
   design_file "checkout" "2024-01-05T00:00:00Z"]%string.

Definition second_project_files : list (Feeds.value spec_float) :=
  [design_file "onboarding" "2024-01-02T00:00:00Z";
   design_file "dashboard" "2024-01-06T00:00:00Z";
   design_file "settings" "2024-01-04T00:00:00Z"]%string.

Definition first_project : list (string * Feeds.value spec_float) :=
  [("id", Feeds.str "11"); ("name", Feeds.str "Web")]%string.

Definition second_project : list (string * Feeds.value spec_float) :=
  [("id", Feeds.str "22"); ("name", Feeds.str "Mobile")]%string.

Definition team_data : list (string * Feeds.value spec_float) :=
  [("name", Feeds.str "Portfolio");
   ("projects", Feeds.array [Feeds.object first_project; Feeds.object second_project])]%string.

Definition team_listing : Feeds.response spec_float :=
  {| Feeds.status := 200; Feeds.response_body := Feeds.json (Feeds.object team_data) |}.

Definition files_data (files : list (Feeds.value spec_float))
    : list (string * Feeds.value spec_float) :=
  [("name", Feeds.str "project"); ("files", Feeds.array files)]%string.

Definition files_listing (files : list (Feeds.value spec_float)) : Feeds.response spec_float :=
  {| Feeds.status := 200; Feeds.response_body := Feeds.json (Feeds.object (files_data files)) |}.

Definition not_found : Feeds.response spec_float :=
  {| Feeds.status := 404;
     Feeds.response_body :=
       Feeds.json (Feeds.object [("message", Feeds.str "Not Found")]%string) |}.

(** The design API answering for the two projects. *)
Definition files_online (id : Feeds.value spec_float) : Feeds.fetch_result spec_float :=
  match id with
  | Feeds.str s =>
      if String.eqb s "11" then Feeds.resolved (files_listing first_project_files)
      else if String.eqb s "22" then Feeds.resolved (files_listing second_project_files)
      else Feeds.resolved not_found
  | _ => Feeds.resolved not_found
  end.

(** The connection dropping after the team request. *)
Definition files_offline (id : Feeds.value spec_float) : Feeds.fetch_result spec_float :=
  Feeds.rejected "Failed to fetch".

(** [Math.hypot] of an offset along one axis: when one of the two
    arguments is zero the result is the absolute value of the other,
    without rounding. *)
Definition axis_distance (a b : xnum) : xnum :=
  Math_max (Math_max a (Exact.opp a)) (Math_max b (Exact.opp b)).

(** In exact arithmetic: the pointer swings 200 pixels along the x axis
    between two frames that each place a label. *)
Definition exact_placements : list (CanvasAnimationController.event xnum) :=
  [CanvasAnimationController.mousemove
     {| CanvasAnimationController.clientX := int 200;
        CanvasAnimationController.clientY := int 0;
        CanvasAnimationController.rect_left := int 0;
        CanvasAnimationController.rect_top := int 0 |};
   CanvasAnimationController.frame
     {| CanvasAnimationController.random_generate := lit 99 100;
        CanvasAnimationController.random_index := lit 1 2;
        CanvasAnimationController.random_rotation := lit 1 4 |};
   CanvasAnimationController.mousemove
     {| CanvasAnimationController.clientX := int 0;
        CanvasAnimationController.clientY := int 0;
        CanvasAnimationController.rect_left := int 0;
        CanvasAnimationController.rect_top := int 0 |};
   CanvasAnimationController.frame
     {| CanvasAnimationController.random_generate := lit 97 100;
        CanvasAnimationController.random_index := lit 9 10;
        CanvasAnimationController.random_rotation := lit 3 4 |}].

(** The square root of the sum of the squares, rounded down to a whole
    number: a [Math.hypot] for exact arithmetic, where the root itself
    is in general not a rational. *)
Definition whole_hypot (a b : xnum) : xnum :=
  match a, b with
  | XInf _, _ | _, XInf _ => XInf false
  | XNaN, _ | _, XNaN => XNaN
  | XFin p, XFin q => XFin (inject_Z (Z.sqrt (Qfloor (p * p + q * q))))
  end.

(** The pointer at [a] on the top edge of a canvas that begins 0.3
    pixels right of the viewport's left edge. *)
Definition pointer_over_offset_canvas (a : Z) : CanvasAnimationController.event spec_float :=
  CanvasAnimationController.mousemove
    {| CanvasAnimationController.clientX := int a;
       CanvasAnimationController.clientY := int 0;
       CanvasAnimationController.rect_left := lit 3 10;
       CanvasAnimationController.rect_top := int 0 |}.

(** Over that canvas the pointer goes to 150 and then to 0, and each of
    the two frames places a label. *)
Definition close_placements : list (CanvasAnimationController.event spec_float) :=
  [pointer_over_offset_canvas 150; frame_drawing 99;
   pointer_over_offset_canvas 0; frame_drawing 99].

(** A desktop window, in doubles. *)
Definition wide_window : layout spec_float :=
  {| innerWidth := int 1280; innerHeight := int 720;
     container_offsetWidth := int 1280; container_offsetHeight := int 720;
     leftPanel_offsetHeight := int 720 |}.

(** * Theorems *)

(** ** Order facts of the two arithmetics *)

Lemma exact_min_fin (a b : Q) :
  exists c : Q, Exact.min (XFin a) (XFin b) = XFin c
    /\ (c <= a)%Q /\ (c <= b)%Q /\ (c == a \/ c == b)%Q.
Proof.
  unfold Exact.min. cbn [Exact.compare].
  destruct (Qcompare_spec a b) as [E|L|G];
    [exists a | exists a | exists b]; repeat split; auto with qarith; try lra.
Qed.

Lemma exact_max_fin (a b : Q) :
  exists c : Q, Exact.max (XFin a) (XFin b) = XFin c
    /\ (a <= c)%Q /\ (b <= c)%Q /\ (c == a \/ c == b)%Q.
Proof.
  unfold Exact.max. cbn [Exact.compare].
  destruct (Qcompare_spec a b) as [E|L|G];
    [exists a | exists b | exists a]; repeat split; auto with qarith; try lra.
Qed.

Lemma exact_sub_fin (p q : Q) : (XFin p - XFin q)%js = XFin (p + - q).
Proof. reflexivity. Qed.

(** [Math.max(lo, Math.min(hi, v))] in exact arithmetic, for any [v]
    that is a number, infinite or not. *)
Lemma exact_clamp (lo hi : Q) (v : xnum) :
  v <> XNaN ->
  exists b : Q,
    Exact.max (XFin lo) (Exact.min (XFin hi) v) = XFin b
    /\ (lo <= b)%Q /\ ((lo <= hi)%Q -> (b <= hi)%Q).
Proof.
  intros Hv. destruct v as [| s | q]; [congruence | |].
  - destruct s; cbn.
    + exists lo. repeat split; auto with qarith.
    + destruct (exact_max_fin lo hi) as (c & E & L & U & [Hc | Hc]).
      * exists c. split; [exact E |]. split; [lra | intros; lra].
      * exists c. split; [exact E |]. split; [lra | intros; lra].
  - destruct (exact_min_fin hi q) as (m & Em & Hm1 & Hm2 & Hm3). rewrite Em.
    destruct (exact_max_fin lo m) as (c & Ec & Hc1 & Hc2 & Hc3).
    exists c. split; [exact Ec |]. split; [exact Hc1 |].
    intros Hle. destruct Hc3 as [Hc3 | Hc3]; lra.
Qed.

Lemma exact_percentage_bounded (v : xnum) :
  v <> XNaN ->
  exists b : Q,
    Math_max (int 20) (Math_min (int 80) v) = XFin b /\ (20 <= b <= 80)%Q.
Proof.
  intros Hv.
  destruct (exact_clamp 20 80 v Hv) as (b & E & L & U).
  exists b. split; [exact E | split; [exact L | apply U; lra]].
Qed.

Lemma SFcompare_swap (a b : spec_float) :
  SFcompare b a = option_map CompOpp (SFcompare a b).
Proof.
  destruct a as [sa | sa | | sa ma ea], b as [sb | sb | | sb mb eb]; cbn;
    try reflexivity;
    try (destruct sa; reflexivity); try (destruct sb; reflexivity);
    try (destruct sa, sb; reflexivity).
  pose proof (Pos.compare_cont_antisym ma mb Eq) as Hm. cbn [CompOpp] in Hm.
  destruct sa, sb; try reflexivity; cbn;
    rewrite (Z.compare_antisym ea eb);
    destruct (ea ?= eb) eqn:E; cbn; try reflexivity;
    rewrite <- Hm; try rewrite CompOpp_involutive; reflexivity.
Qed.

Lemma SFcompare_refl (a : spec_float) : a <> S754_nan -> SFcompare a a = Some Eq.
Proof.
  destruct a as [s | s | | s m e]; intros Ha; try congruence; cbn;
    try (destruct s; reflexivity).
  rewrite Z.compare_refl, Pos.compare_cont_refl. destruct s; reflexivity.
Qed.

Lemma SFcompare_nan (a b : spec_float) :
  SFcompare a b = None <-> a = S754_nan \/ b = S754_nan.
Proof.
  split.
  - destruct a, b; cbn; intros E; try discriminate; auto.
  - intros [-> | ->]; [reflexivity | destruct a; reflexivity].
Qed.

Lemma SFleb_refl (a : spec_float) : a <> S754_nan -> SFleb a a = true.
Proof. intros Ha. unfold SFleb. rewrite SFcompare_refl by exact Ha. reflexivity. Qed.

Lemma b64_max_cases (a b : spec_float) :
  a <> S754_nan -> b <> S754_nan ->
  (B64.max a b = a \/ B64.max a b = b)
  /\ SFleb a (B64.max a b) = true
  /\ SFleb b (B64.max a b) = true.
Proof.
  intros Ha Hb. unfold B64.max.
  pose proof (SFcompare_swap a b) as Hswap.
  destruct (SFcompare a b) as [[| |] |] eqn:E; cbn in Hswap.
  - assert (Hab : SFleb a b = true) by (unfold SFleb; rewrite E; reflexivity).
    assert (Hba : SFleb b a = true) by (unfold SFleb; rewrite Hswap; reflexivity).
    destruct a as [[|] | | |]; auto using SFleb_refl.
  - split; [right; reflexivity |]. split; [| apply SFleb_refl; exact Hb].
    unfold SFleb. rewrite E. reflexivity.
  - split; [left; reflexivity |]. split; [apply SFleb_refl; exact Ha |].
    unfold SFleb. rewrite Hswap. reflexivity.
  - apply SFcompare_nan in E. tauto.
Qed.

Lemma b64_min_cases (a b : spec_float) :
  a <> S754_nan -> b <> S754_nan ->
  (B64.min a b = a \/ B64.min a b = b)
  /\ SFleb (B64.min a b) a = true
  /\ SFleb (B64.min a b) b = true.
Proof.
  intros Ha Hb. unfold B64.min.
  pose proof (SFcompare_swap a b) as Hswap.
  destruct (SFcompare a b) as [[| |] |] eqn:E; cbn in Hswap.
  - assert (Hab : SFleb a b = true) by (unfold SFleb; rewrite E; reflexivity).
    assert (Hba : SFleb b a = true) by (unfold SFleb; rewrite Hswap; reflexivity).
    destruct a as [[|] | | |]; auto using SFleb_refl.
  - split; [left; reflexivity |]. split; [apply SFleb_refl; exact Ha |].
    unfold SFleb. rewrite E. reflexivity.
  - split; [right; reflexivity |]. split; [| apply SFleb_refl; exact Hb].
    unfold SFleb. rewrite Hswap. reflexivity.
  - apply SFcompare_nan in E. tauto.
Qed.

(** [Math.max(lo, Math.min(a, b))] on doubles that are numbers. *)
Lemma b64_clamp (lo a b : spec_float) :
  lo <> S754_nan -> a <> S754_nan -> b <> S754_nan ->
  let r := B64.max lo (B64.min a b) in
  r <> S754_nan
  /\ SFleb lo r = true
  /\ (SFleb lo a = true -> SFleb r a = true)
  /\ (SFleb lo b = true -> SFleb r b = true).
Proof.
  intros Hlo Ha Hb r.
  destruct (b64_min_cases a b Ha Hb) as (Hm & Hma & Hmb).
  assert (Hmn : B64.min a b <> S754_nan) by (destruct Hm as [-> | ->]; assumption).
  destruct (b64_max_cases lo (B64.min a b) Hlo Hmn) as (Hr & Hrl & Hrm).
  fold r in Hr, Hrl, Hrm.
  split; [destruct Hr as [-> | ->]; assumption |].
  split; [exact Hrl |].
  split; intros Hle; destruct Hr as [-> | ->]; assumption.
Qed.

Lemma SFleb_ltb_trans (a b c : spec_float) :
  SFleb a b = true -> SFltb b c = true -> SFltb a c = true.
Proof.
  unfold SFleb, SFltb.
  destruct a as [sa | sa | | sa ma ea], b as [sb | sb | | sb mb eb],
           c as [sc | sc | | sc mc ec]; cbn;
    try discriminate; try reflexivity;
    try (destruct sa; cbn; try discriminate; try reflexivity; fail);
    try (destruct sb; cbn; try discriminate; try reflexivity; fail);
    try (destruct sc; cbn; try discriminate; try reflexivity; fail);
    try (destruct sa, sb; cbn; try discriminate; try reflexivity; fail);
    try (destruct sa, sc; cbn; try discriminate; try reflexivity; fail);
    try (destruct sb, sc; cbn; try discriminate; try reflexivity; fail);
    try (destruct sa, sb, sc; cbn; try discriminate; try reflexivity; fail).
  all: change (Pos.compare_cont Eq) with Pos.compare.
  all: destruct sa, sb, sc; cbn; try discriminate; try reflexivity.
  all: destruct (Z.compare_spec ea eb), (Z.compare_spec eb ec), (Z.compare_spec ea ec);
    cbn; try discriminate; try reflexivity; try lia.
  all: destruct (Pos.compare_spec ma mb), (Pos.compare_spec mb mc),
         (Pos.compare_spec ma mc); cbn; try discriminate; try reflexivity; try lia.
Qed.

(** Once the upper bound [b] lies below the lower bound [lo], the lower
    bound is what [Math.max(lo, Math.min(a, b))] returns. *)
Lemma b64_clamp_low (lo a b : spec_float) :
  a <> S754_nan -> b <> S754_nan ->
  SFltb b lo = true ->
  B64.max lo (B64.min a b) = lo.
Proof.
  intros Ha Hb Hlt.
  destruct (b64_min_cases a b Ha Hb) as (_ & _ & Hmb).
  pose proof (SFleb_ltb_trans _ _ _ Hmb Hlt) as Hm.
  unfold SFltb in Hm. unfold B64.max.
  rewrite (SFcompare_swap (B64.min a b) lo).
  destruct (SFcompare (B64.min a b) lo) as [[| |] |]; try discriminate Hm.
  reflexivity.
Qed.

(** ** SplitPaneController: a drag-move *)

(** In the doubles the script computes with, the bounded percentage of a
    percentage that is a number lies between 20 and 80. *)
Lemma bounded_percentage_in_doubles (this : SplitPaneController.t spec_float)
    (percentage : spec_float) :
  SplitPaneController.MIN_SIZE_PERCENTAGE this = int 20 ->
  SplitPaneController.MAX_SIZE_PERCENTAGE this = int 80 ->
  percentage <> S754_nan ->
  let b := SplitPaneController.getBoundedPercentage this percentage in
  b <> S754_nan /\ (int 20 <=? b)%js = true /\ (b <=? int 80)%js = true.
Proof.
  intros Hmin Hmax Hp b. subst b.
  unfold SplitPaneController.getBoundedPercentage. rewrite Hmin, Hmax.
  destruct (b64_clamp (int 20) (int 80) percentage) as (Hn & Hlo & Hhi & _);
    [vm_compute; discriminate | vm_compute; discriminate | exact Hp |].
  split; [exact Hn |]. split; [exact Hlo |]. apply Hhi. vm_compute. reflexivity.
Qed.

(** Away from NaN, and without rounding.  While the controller is
    Dragging, a drag-move whose raw percentage (pointer coordinate over
    container extent, times 100) is not NaN computes a bounded
    percentage [b] in [20, 80] and writes [b] and [100 - b] to the
    primary and the secondary section, as width percent in horizontal
    mode and as height vh in vertical mode; in exact arithmetic the two
    sum to exactly 100. *)
Lemma drag_move_bounded_and_complementary :
  forall (this : SplitPaneController.t xnum) (w : layout xnum) (p : page xnum)
         (e : pointer xnum),
    SplitPaneController.isDragging this = true ->
    SplitPaneController.MIN_SIZE_PERCENTAGE this = int 20 ->
    SplitPaneController.MAX_SIZE_PERCENTAGE this = int 80 ->
    let desktop := SplitPaneController.isDesktopViewport w in
    let position := if desktop then clientX e else clientY e in
    let extent := if desktop then container_offsetWidth w else container_offsetHeight w in
    let percentage := (position / extent * int 100)%js in
    percentage <> XNaN ->
    exists b c : Q,
      SplitPaneController.getBoundedPercentage this percentage = XFin b
      /\ (20 <= b <= 80)%Q
      /\ (b + c == 100)%Q
      /\ let p' := SplitPaneController.handleDragMove this w p e in
         if desktop
         then width (primarySection p') = Some (percent (XFin b))
              /\ width (secondarySection p') = Some (percent (XFin c))
         else height (primarySection p') = Some (vh (XFin b))
              /\ height (secondarySection p') = Some (vh (XFin c)).
Proof.
  intros this w p e Hdrag Hmin Hmax desktop position extent percentage Hnan.
  destruct (exact_percentage_bounded percentage Hnan) as (b & Hb & Hrange).
  exists b, (100 - b)%Q.
  assert (Hbounded : SplitPaneController.getBoundedPercentage this percentage = XFin b).
  { unfold SplitPaneController.getBoundedPercentage. rewrite Hmin, Hmax. exact Hb. }
  split; [exact Hbounded |]. split; [exact Hrange |]. split; [lra |].
  unfold SplitPaneController.handleDragMove. rewrite Hdrag. cbn [negb].
  subst percentage position extent desktop.
  destruct (SplitPaneController.isDesktopViewport w).
  - unfold SplitPaneController.handleHorizontalResize. cbv zeta.
    rewrite Hbounded. cbn. split; reflexivity.
  - unfold SplitPaneController.handleVerticalResize. cbv zeta.
    rewrite Hbounded. cbn. split; reflexivity.
Qed.

(** A drag to a quarter of a 1280 pixel wide container. *)
Lemma drag_move_bounded_and_complementary_witness :
  exists b c : Q,
    SplitPaneController.getBoundedPercentage
      (SplitPaneController.set_isDragging SplitPaneController.constructor true)
      (int 320 / int 1280 * int 100)%js = XFin b
    /\ (20 <= b <= 80)%Q
    /\ (b + c == 100)%Q
    /\ width (primarySection
                (SplitPaneController.handleDragMove
                   (SplitPaneController.set_isDragging SplitPaneController.constructor true)
                   desktop_layout initial_page
                   {| clientX := int 320; clientY := int 200 |}))
       = Some (percent (XFin b))
    /\ width (secondarySection
                (SplitPaneController.handleDragMove
                   (SplitPaneController.set_isDragging SplitPaneController.constructor true)
                   desktop_layout initial_page
                   {| clientX := int 320; clientY := int 200 |}))
       = Some (percent (XFin c)).
Proof.
  apply (drag_move_bounded_and_complementary
           (SplitPaneController.set_isDragging SplitPaneController.constructor true)
           desktop_layout initial_page {| clientX := int 320; clientY := int 200 |});
    [reflexivity | reflexivity | reflexivity | vm_compute; discriminate].
Defined.

(** C1, where the code departs from it.  [getBoundedPercentage] is
    there to keep the percentage within the allowed bounds, but a
    drag-move whose pointer coordinate and container extent are both
    zero divides 0 by 0: the raw percentage is NaN, [Math.min] and
    [Math.max] pass it on, and the bounded percentage is NaN, neither at
    least 20 nor at most 80.  NaN is what both sections are given, as a
    width on a viewport at least 1024 pixels wide and as a height on a
    narrower one. *)
Theorem drag_move_zero_over_zero_escapes_the_bounds :
  forall (this : SplitPaneController.t spec_float) (w : layout spec_float)
         (p : page spec_float) (e : pointer spec_float) (s s0 : bool),
    SplitPaneController.isDragging this = true ->
    SplitPaneController.MIN_SIZE_PERCENTAGE this = int 20 ->
    SplitPaneController.MAX_SIZE_PERCENTAGE this = int 80 ->
    let desktop := SplitPaneController.isDesktopViewport w in
    let position := if desktop then clientX e else clientY e in
    let extent := if desktop then container_offsetWidth w else container_offsetHeight w in
    position = S754_zero s ->
    extent = S754_zero s0 ->
    let b := SplitPaneController.getBoundedPercentage this
               (position / extent * int 100)%js in
    b = S754_nan
    /\ (int 20 <=? b)%js = false
    /\ (b <=? int 80)%js = false
    /\ let p' := SplitPaneController.handleDragMove this w p e in
       if desktop
       then width (primarySection p') = Some (percent S754_nan)
            /\ width (secondarySection p') = Some (percent S754_nan)
       else height (primarySection p') = Some (vh S754_nan)
            /\ height (secondarySection p') = Some (vh S754_nan).
Proof.
  intros this w p e s s0 Hdrag Hmin Hmax desktop position extent Hpos Hext b.
  assert (Hb : b = S754_nan).
  { subst b. unfold SplitPaneController.getBoundedPercentage.
    rewrite Hmin, Hmax, Hpos, Hext. destruct s, s0; vm_compute; reflexivity. }
  split; [exact Hb |]. rewrite Hb.
  split; [reflexivity |]. split; [reflexivity |].
  cbv zeta. unfold SplitPaneController.handleDragMove. rewrite Hdrag. cbn [negb].
  subst b position extent desktop.
  destruct (SplitPaneController.isDesktopViewport w).
  - unfold SplitPaneController.handleHorizontalResize. cbv zeta. rewrite Hb.
    split; reflexivity.
  - unfold SplitPaneController.handleVerticalResize. cbv zeta. rewrite Hb.
    split; reflexivity.
Qed.

(** The phone, its container collapsed to no height, the pointer dragged
    to the top edge. *)
Lemma drag_move_zero_over_zero_escapes_the_bounds_witness :
  let this := SplitPaneController.set_isDragging SplitPaneController.constructor true in
  let e := {| clientX := int 120; clientY := int 0 |} in
  let b := SplitPaneController.getBoundedPercentage this
             (clientY e / container_offsetHeight collapsed_layout * int 100)%js in
  b = S754_nan
  /\ (int 20 <=? b)%js = false
  /\ (b <=? int 80)%js = false
  /\ let p' := SplitPaneController.handleDragMove this collapsed_layout initial_page e in
     height (primarySection p') = Some (vh S754_nan)
     /\ height (secondarySection p') = Some (vh S754_nan).
Proof.
  exact (drag_move_zero_over_zero_escapes_the_bounds
           (SplitPaneController.set_isDragging SplitPaneController.constructor true)
           collapsed_layout initial_page {| clientX := int 120; clientY := int 0 |}
           false false eq_refl eq_refl eq_refl eq_refl eq_refl).
Defined.

(** Away from NaN the second size is [100 - b] as doubles subtract, and
    that difference is rounded: a drag to 322 of 1280 pixels writes
    25.156250000000004 and 74.84375, two numbers within the bounds whose
    sum is 100 + 2^-48, and which add up to 100 when added as doubles. *)
Example drag_move_sizes_in_doubles :
  let this := SplitPaneController.set_isDragging SplitPaneController.constructor true in
  let p' := SplitPaneController.handleDragMove this wide_window initial_page
              {| clientX := int 322; clientY := int 200 |} in
  let b := S754_finite false 7080854882877441 (-48) in
  let c := S754_finite false 5266660697047040 (-46) in
  width (primarySection p') = Some (percent b)
  /\ width (secondarySection p') = Some (percent c)
  /\ (int 20 <=? b)%js = true
  /\ (b <=? int 80)%js = true
  /\ c = lit 7484375 100000
  /\ (b + c)%js = int 100
  /\ exists qb qc : Q,
       exact_value b = Some qb
       /\ exact_value c = Some qc
       /\ (qb + qc == 100 + 1 / 2 ^ 48)%Q.
Proof.
  cbv zeta. split; [vm_compute; reflexivity |]. split; [vm_compute; reflexivity |].
  split; [vm_compute; reflexivity |]. split; [vm_compute; reflexivity |].
  split; [vm_compute; reflexivity |]. split; [vm_compute; reflexivity |].
  do 2 eexists. split; [vm_compute; reflexivity |]. split; [vm_compute; reflexivity |].
  vm_compute. reflexivity.
Qed.

(** Zero over zero is NaN in exact arithmetic as well. *)
Example exact_percentage_zero_over_zero :
  SplitPaneController.getBoundedPercentage
    (SplitPaneController.set_isDragging SplitPaneController.constructor true)
    (int 0 / int 0 * int 100)%js = XNaN.
Proof. reflexivity. Qed.

(** ** The stand-alone touch handler: a touch-move *)

(** In doubles: the new height is at least 100, and at most
    [innerHeight - 100] whenever that is itself at least 100. *)
Lemma new_height_in_doubles (c : TouchBlock.t spec_float) (w : layout spec_float)
    (touch : pointer spec_float) :
  (TouchBlock.startHeight c + (clientY touch - TouchBlock.startY c))%js <> S754_nan ->
  (innerHeight w - int 100)%js <> S754_nan ->
  let h := TouchBlock.newHeight c w touch in
  (int 100 <=? h)%js = true
  /\ ((int 100 <=? innerHeight w - int 100)%js = true ->
      (h <=? innerHeight w - int 100)%js = true).
Proof.
  intros Hv Hu h. subst h. unfold TouchBlock.newHeight.
  destruct (b64_clamp (int 100)
              (TouchBlock.startHeight c + (clientY touch - TouchBlock.startY c))%js
              (innerHeight w - int 100)%js) as (_ & Hlo & _ & Hhi);
    [vm_compute; discriminate | exact Hv | exact Hu |].
  split; [exact Hlo | exact Hhi].
Qed.

(** On a viewport narrower than 1024 pixels the controller's listener
    runs after the block's and writes the primary height again, in vh:
    what the page keeps after such a touch-move is the controller's
    bounded percentage. *)
Lemma controller_rewrites_height_in_vertical_mode {num : Type} `{Number num}
    (s : Listeners.state num) (w : layout num) (on : Listeners.target)
    (touch : pointer num) :
  SplitPaneController.isDragging (Listeners.controller s) = true ->
  SplitPaneController.isDesktopViewport w = false ->
  height (primarySection
            (Listeners.dom (fst (Listeners.dispatch s w (Listeners.touchmove on touch)))))
  = Some (vh (SplitPaneController.getBoundedPercentage (Listeners.controller s)
                (clientY touch / container_offsetHeight w * int 100)%js)).
Proof.
  intros Hdrag Hmobile. cbn.
  destruct (TouchBlock.document_touchmove (Listeners.block s) w (Listeners.dom s) touch)
    as [p d1].
  unfold SplitPaneController.on_touchmove, SplitPaneController.handleDragMove.
  rewrite Hdrag, Hmobile. reflexivity.
Qed.

(** C10, as amended.  While the block's drag flag is set, a touch-move
    prevents the default and sets the primary panel's height to
    [Math.max(100, Math.min(startHeight + deltaY, innerHeight - 100))]
    pixels and the secondary panel's to [innerHeight] minus that.  In
    doubles, when neither [startHeight + deltaY] nor [innerHeight - 100]
    is NaN, that height is at least 100, at most [innerHeight - 100]
    whenever that is itself at least 100, and exactly 100 whenever
    [innerHeight - 100] is below 100.  In exact arithmetic, for finite
    coordinates, it is the rational [max(100, min(startHeight + deltaY,
    innerHeight - 100))]: at least 100, at most [innerHeight - 100] in
    a viewport at least 200 high, exactly 100 in a lower one; and the
    two heights sum to the viewport height.  These are pixel bounds; no
    percentage is involved. *)
Theorem touch_block_move_pixel_heights :
  (forall (c : TouchBlock.t spec_float) (w : layout spec_float) (p : page spec_float)
          (touch : pointer spec_float),
      TouchBlock.isDragging c = true ->
      let moved := (TouchBlock.startHeight c + (clientY touch - TouchBlock.startY c))%js in
      let room := (innerHeight w - int 100)%js in
      moved <> S754_nan ->
      room <> S754_nan ->
      let h := Math_max (int 100) (Math_min moved room) in
      let '(p', prevented) := TouchBlock.document_touchmove c w p touch in
      prevented = true
      /\ height (primarySection p') = Some (px h)
      /\ height (secondarySection p') = Some (px (innerHeight w - h)%js)
      /\ (int 100 <=? h)%js = true
      /\ ((int 100 <=? room)%js = true -> (h <=? room)%js = true)
      /\ ((room <? int 100)%js = true -> h = int 100))
  /\ (forall (c : TouchBlock.t xnum) (w : layout xnum) (p : page xnum)
             (touch : pointer xnum) (y y0 h0 ih : Q),
         TouchBlock.isDragging c = true ->
         clientY touch = XFin y ->
         TouchBlock.startY c = XFin y0 ->
         TouchBlock.startHeight c = XFin h0 ->
         innerHeight w = XFin ih ->
         exists h s : Q,
           let '(p', prevented) := TouchBlock.document_touchmove c w p touch in
           prevented = true
           /\ height (primarySection p') = Some (px (XFin h))
           /\ height (secondarySection p') = Some (px (XFin s))
           /\ (h == Qmax 100 (Qmin (h0 + (y - y0)) (ih - 100)))%Q
           /\ (100 <= h)%Q
           /\ ((200 <= ih)%Q -> (h <= ih - 100)%Q)
           /\ ((ih < 200)%Q -> (h == 100)%Q)
           /\ (h + s == ih)%Q).
Proof.
  split.
  - intros c w p touch Hdrag moved room Hv Hu h.
    unfold TouchBlock.document_touchmove. rewrite Hdrag. cbn [negb].
    change (TouchBlock.newHeight c w touch) with h.
    destruct (new_height_in_doubles c w touch Hv Hu) as [Hlo Hhi].
    change (TouchBlock.newHeight c w touch) with h in Hlo, Hhi.
    split; [reflexivity |]. split; [reflexivity |]. split; [reflexivity |].
    split; [exact Hlo |]. split; [exact Hhi |].
    intros Hlow. apply b64_clamp_low; assumption.
  - intros c w p touch y y0 h0 ih Hdrag Hy Hy0 Hh0 Hih.
    unfold TouchBlock.document_touchmove, TouchBlock.newHeight.
    rewrite Hdrag, Hy, Hy0, Hh0, Hih. cbn [negb].
    change (int 100 : xnum) with (XFin 100).
    rewrite !exact_sub_fin.
    change (XFin h0 + XFin (y + - y0))%js with (XFin (h0 + (y + - y0))).
    change (@Math_max xnum exact) with Exact.max.
    change (@Math_min xnum exact) with Exact.min.
    destruct (exact_min_fin (h0 + (y + - y0)) (ih + Qopp 100)) as (m & Em & Hm1 & Hm2 & Hm3).
    rewrite Em.
    destruct (exact_max_fin 100 m) as (h & Eh & Hh1 & Hh2 & Hh3).
    rewrite Eh. rewrite exact_sub_fin.
    exists h, (ih + - h)%Q. cbn.
    split; [reflexivity |]. split; [reflexivity |]. split; [reflexivity |].
    split.
    { destruct (Q.min_spec (h0 + (y - y0)) (ih - 100)) as [[Hlt Emin] | [Hle Emin]];
        destruct (Q.max_spec 100 (Qmin (h0 + (y - y0)) (ih - 100)))
          as [[Hlt' Emax] | [Hle' Emax]];
        rewrite Emax; try rewrite Emin; rewrite Emin in *;
        destruct Hh3 as [E | E]; destruct Hm3 as [E' | E']; lra. }
    repeat split; intros; destruct Hh3 as [E | E]; destruct Hm3 as [E' | E']; lra.
Qed.

(** A finger that started at mid-height of the phone, dragged down to
    603.5: in doubles, and in exact arithmetic. *)
Lemma touch_block_move_pixel_heights_witness :
  (let c := {| TouchBlock.isDragging := true;
               TouchBlock.startY := int 422;
               TouchBlock.startHeight := int 422 |} in
   let touch := {| clientX := int 200; clientY := lit 6035 10 |} in
   let moved := (TouchBlock.startHeight c + (clientY touch - TouchBlock.startY c))%js in
   let room := (innerHeight phone - int 100)%js in
   let h := Math_max (int 100) (Math_min moved room) in
   let '(p', prevented) := TouchBlock.document_touchmove c phone initial_page touch in
   prevented = true
   /\ height (primarySection p') = Some (px h)
   /\ height (secondarySection p') = Some (px (innerHeight phone - h)%js)
   /\ (int 100 <=? h)%js = true
   /\ ((int 100 <=? room)%js = true -> (h <=? room)%js = true)
   /\ ((room <? int 100)%js = true -> h = int 100))
  /\ exists h s : Q,
       let '(p', prevented) :=
         TouchBlock.document_touchmove
           {| TouchBlock.isDragging := true;
              TouchBlock.startY := int 422;
              TouchBlock.startHeight := int 422 |}
           tall_viewport initial_page {| clientX := int 200; clientY := lit 6035 10 |} in
       prevented = true
       /\ height (primarySection p') = Some (px (XFin h))
       /\ height (secondarySection p') = Some (px (XFin s))
       /\ (h == Qmax 100 (Qmin (422 + ((6035 # 10) - 422)) (844 - 100)))%Q
       /\ (100 <= h)%Q
       /\ ((200 <= 844)%Q -> (h <= 844 - 100)%Q)
       /\ ((844 < 200)%Q -> (h == 100)%Q)
       /\ (h + s == 844)%Q.
Proof.
  split.
  - refine (proj1 touch_block_move_pixel_heights
              {| TouchBlock.isDragging := true;
                 TouchBlock.startY := int 422;
                 TouchBlock.startHeight := int 422 |}
              phone initial_page {| clientX := int 200; clientY := lit 6035 10 |}
              eq_refl _ _); vm_compute; discriminate.
  - apply (proj2 touch_block_move_pixel_heights
             {| TouchBlock.isDragging := true;
                TouchBlock.startY := int 422;
                TouchBlock.startHeight := int 422 |}
             tall_viewport initial_page {| clientX := int 200; clientY := lit 6035 10 |}
             (6035 # 10)%Q 422%Q 422%Q 844%Q); reflexivity.
Defined.

(** C10 fails as stated, in two ways.  In a viewport lower than 200
    pixels the upper bound gives way: at [innerHeight] 150 the primary
    height is 100 pixels, above [innerHeight - 100 = 50], and the
    secondary height is 50.  And in doubles the secondary height is a
    rounded difference: on the phone, 844 pixels high, a finger that
    went down at mid-height and moved up to 100.3 leaves the heights
    100.30000000000001 and 743.7, two numbers whose sum exceeds 844 (by
    2^-44), although adding them as doubles gives 844. *)
Lemma touch_block_move_misses_bound_and_sum :
  (let '(c, p, _) :=
     TouchBlock.divider_touchstart short_viewport initial_page
       {| clientX := int 300; clientY := int 75 |} in
   let '(p', _) :=
     TouchBlock.document_touchmove c short_viewport p
       {| clientX := int 300; clientY := int 85 |} in
   height (primarySection p') = Some (px (int 100))
   /\ height (secondarySection p') = Some (px (int 50))
   /\ (int 100 <=? innerHeight short_viewport - int 100)%js = false)
  /\ (let '(c, p, _) :=
        TouchBlock.divider_touchstart phone initial_page
          {| clientX := int 195; clientY := int 422 |} in
      let '(p', _) :=
        TouchBlock.document_touchmove c phone p
          {| clientX := int 195; clientY := lit 1003 10 |} in
      let h := S754_finite false 7057985041019700 (-46) in
      let s := lit 7437 10 in
      height (primarySection p') = Some (px h)
      /\ height (secondarySection p') = Some (px s)
      /\ (h + s)%js = int 844
      /\ exists qh qs : Q,
           exact_value h = Some qh
           /\ exact_value s = Some qs
           /\ (qh + qs == 844 + 1 / 2 ^ 44)%Q).
Proof.
  split; [vm_compute; repeat split |].
  cbv zeta.
  split; [vm_compute; reflexivity |]. split; [vm_compute; reflexivity |].
  split; [vm_compute; reflexivity |].
  do 2 eexists. split; [vm_compute; reflexivity |]. split; [vm_compute; reflexivity |].
  vm_compute. reflexivity.
Qed.

(** ** Touch listeners and the default action *)

Section GestureFacts.
Context {num : Type} `{Number num}.

Lemma touchmove_log_app (s : Listeners.state num)
    (evs evs' : list (layout num * Listeners.event num)) :
  touchmove_log s (evs ++ evs')
  = touchmove_log s evs ++ touchmove_log (Listeners.run s evs) evs'.
Proof.
  revert s. induction evs as [| [w ev] evs IH]; intros s; [reflexivity |].
  cbn [app touchmove_log Listeners.run].
  destruct (Listeners.dispatch s w ev) as [s' prevented] eqn:E.
  cbn [fst]. destruct ev; rewrite IH; reflexivity.
Qed.

Lemma listeners_run_app (s : Listeners.state num)
    (evs evs' : list (layout num * Listeners.event num)) :
  Listeners.run s (evs ++ evs') = Listeners.run (Listeners.run s evs) evs'.
Proof.
  revert s. induction evs as [| [w ev] evs IH]; intros s; [reflexivity |].
  cbn [app Listeners.run]. apply IH.
Qed.

(** A touch-move changes neither drag flag, and its default is prevented
    exactly when a flag is set or the divider is its target. *)
Lemma touchmove_dispatch (s : Listeners.state num) (w : layout num)
    (t : Listeners.target) (touch : pointer num) :
  let '(s', prevented) := Listeners.dispatch s w (Listeners.touchmove t touch) in
  Listeners.controller s' = Listeners.controller s
  /\ Listeners.block s' = Listeners.block s
  /\ prevented = SplitPaneController.isDragging (Listeners.controller s)
                 || TouchBlock.isDragging (Listeners.block s)
                 || Listeners.on_divider t.
Proof.
  cbn. unfold TouchBlock.document_touchmove, TouchBlock.divider_touchmove.
  destruct (TouchBlock.isDragging (Listeners.block s)),
    (SplitPaneController.isDragging (Listeners.controller s)), t;
    cbn; repeat split.
Qed.

Lemma moves_keep_flags (s : Listeners.state num) (t : Listeners.target)
    (ms : list (layout num * pointer num)) :
  let evs := map (fun m => (fst m, Listeners.touchmove t (snd m))) ms in
  SplitPaneController.isDragging (Listeners.controller (Listeners.run s evs))
  = SplitPaneController.isDragging (Listeners.controller s)
  /\ TouchBlock.isDragging (Listeners.block (Listeners.run s evs))
     = TouchBlock.isDragging (Listeners.block s)
  /\ Forall (fun entry =>
               entry = (SplitPaneController.isDragging (Listeners.controller s),
                        SplitPaneController.isDragging (Listeners.controller s)
                        || TouchBlock.isDragging (Listeners.block s)
                        || Listeners.on_divider t))
       (touchmove_log s evs).
Proof.
  revert s. induction ms as [| [w p] ms IH]; intros s; cbn zeta.
  - repeat split. constructor.
  - cbn [map fst snd Listeners.run touchmove_log].
    pose proof (touchmove_dispatch s w t p) as Hd.
    destruct (Listeners.dispatch s w (Listeners.touchmove t p)) as [s' prevented].
    destruct Hd as (Hc & Hb & Hp). cbn [fst].
    destruct (IH s') as (Hc' & Hb' & Hlog). rewrite Hc, Hb in *.
    split; [exact Hc' |]. split; [exact Hb' |].
    constructor; [rewrite Hp; reflexivity | exact Hlog].
Qed.

Lemma gesture_from_idle (s : Listeners.state num) (g : gesture num) :
  idle s ->
  idle (Listeners.run s (gesture_events g))
  /\ Forall (fun entry => snd entry = fst entry) (touchmove_log s (gesture_events g)).
Proof.
  intros [Hc Hb]. unfold gesture_events.
  change ((fst (touch_down g), Listeners.touchstart (touched g) (snd (touch_down g)))
          :: map (fun m => (fst m, Listeners.touchmove (touched g) (snd m))) (touch_moves g)
          ++ [(touch_up g, Listeners.touchend)])
    with ([(fst (touch_down g), Listeners.touchstart (touched g) (snd (touch_down g)))]
          ++ map (fun m => (fst m, Listeners.touchmove (touched g) (snd m))) (touch_moves g)
          ++ [(touch_up g, Listeners.touchend)]).
  rewrite !listeners_run_app, !touchmove_log_app.
  set (s1 := Listeners.run s
               [(fst (touch_down g), Listeners.touchstart (touched g) (snd (touch_down g)))]).
  assert (H1 : SplitPaneController.isDragging (Listeners.controller s1)
               = Listeners.on_divider (touched g)
               /\ TouchBlock.isDragging (Listeners.block s1)
                  = Listeners.on_divider (touched g)).
  { subst s1. destruct (touched g); cbn; [split; reflexivity | split; assumption]. }
  destruct H1 as [H1c H1b].
  destruct (moves_keep_flags s1 (touched g) (touch_moves g)) as (_ & _ & Hlog).
  split.
  - split; reflexivity.
  - apply Forall_app. split.
    + cbn. destruct (touched g); constructor.
    + apply Forall_app. split.
      * eapply Forall_impl; [exact Hlog |]. cbn beta.
        intros entry ->. cbn [fst snd]. rewrite H1c, H1b.
        destruct (Listeners.on_divider (touched g)); reflexivity.
      * cbn. constructor.
Qed.

Lemma gestures_from_idle (s : Listeners.state num) (gs : list (gesture num)) :
  idle s ->
  idle (Listeners.run s (concat (map gesture_events gs)))
  /\ Forall (fun entry => snd entry = fst entry)
       (touchmove_log s (concat (map gesture_events gs))).
Proof.
  revert s. induction gs as [| g gs IH]; intros s Hidle.
  - split; [exact Hidle | constructor].
  - cbn [map concat]. rewrite listeners_run_app, touchmove_log_app.
    destruct (gesture_from_idle s g Hidle) as [Hidle' Hlog].
    destruct (IH _ Hidle') as [Hidle'' Hlog'].
    split; [exact Hidle'' | apply Forall_app; split; assumption].
Qed.

End GestureFacts.

(** C5, as amended.  Every touch-start on the divider prevents the
    default, and every touch-end clears both drag flags.  The
    controller's own touch-move listener prevents the default exactly
    when the controller is Dragging; over all the listeners of the page,
    the default of a touch-move is prevented exactly when the controller
    is Dragging, or the stand-alone block's drag flag is set, or the
    move is targeted at the divider.  Along one-finger gestures from the
    initial state this is exactly when the controller is Dragging. *)
Theorem touch_listeners_prevent_default :
  forall {num : Type} `{Number num} (s : Listeners.state num) (w : layout num)
         (gs : list (gesture num)),
    (forall touch,
       snd (Listeners.dispatch s w (Listeners.touchstart Listeners.divider touch)) = true)
    /\ (forall touch,
          snd (SplitPaneController.on_touchmove (Listeners.controller s) w
                 (Listeners.dom s) touch)
          = SplitPaneController.isDragging (Listeners.controller s))
    /\ (forall on touch,
          snd (Listeners.dispatch s w (Listeners.touchmove on touch))
          = SplitPaneController.isDragging (Listeners.controller s)
            || TouchBlock.isDragging (Listeners.block s)
            || Listeners.on_divider on)
    /\ idle (fst (Listeners.dispatch s w Listeners.touchend))
    /\ Forall (fun entry => snd entry = fst entry)
         (touchmove_log Listeners.initial (concat (map gesture_events gs))).
Proof.
  intros num N s w gs.
  split; [intros touch; reflexivity |].
  split; [intros touch; reflexivity |].
  split.
  { intros on touch. pose proof (touchmove_dispatch s w on touch) as Hd.
    destruct (Listeners.dispatch s w (Listeners.touchmove on touch)) as [s' prevented].
    destruct Hd as (_ & _ & Hp). exact Hp. }
  split; [split; reflexivity |].
  apply gestures_from_idle. split; reflexivity.
Qed.

(** C5 fails as stated: a first finger goes down on the divider, a
    second finger taps elsewhere and lifts, which ends the drag; the
    next move of the first finger, still targeted at the divider, has
    its default prevented although the controller is not Dragging. *)
Lemma touch_move_prevented_when_idle :
  let first_finger := {| clientX := int 195; clientY := int 422 |} in
  let second_finger := {| clientX := int 100; clientY := int 700 |} in
  let s := Listeners.run Listeners.initial
             [(phone, Listeners.touchstart Listeners.divider first_finger);
              (phone, Listeners.touchstart Listeners.elsewhere second_finger);
              (phone, Listeners.touchend)] in
  SplitPaneController.isDragging (Listeners.controller s) = false
  /\ snd (Listeners.dispatch s phone
            (Listeners.touchmove Listeners.divider
               {| clientX := int 195; clientY := int 430 |})) = true.
Proof. vm_compute. split; reflexivity. Qed.

(** ** CanvasAnimationController: word placement *)

Section CanvasFacts.
Import CanvasAnimationController.
Context {num : Type} `{Number num}.
Variable Math_hypot : num -> num -> num.

Abbreviation origin := {| x := int 0; y := int 0 |}.

Lemma spaced_snoc (prev : point num) (ws : list (word num)) (w : word num) :
  spaced Math_hypot prev (ws ++ [w]) <->
  spaced Math_hypot prev ws
  /\ (Math_hypot (word_x w - x (last_position prev ws))%js
                 (word_y w - y (last_position prev ws))%js <? int 150)%js = false.
Proof.
  revert prev. induction ws as [| v ws IH]; intros prev; cbn.
  - tauto.
  - rewrite IH. tauto.
Qed.

Lemma last_position_snoc (prev : point num) (ws : list (word num)) (w : word num) :
  last_position prev (ws ++ [w]) = {| x := word_x w; y := word_y w |}.
Proof. unfold last_position. rewrite fold_left_app. reflexivity. Qed.

Lemma spaced_fade_in (prev : point num) (ws : list (word num)) :
  spaced Math_hypot prev (map fade_in ws) <-> spaced Math_hypot prev ws.
Proof.
  revert prev. induction ws as [| v ws IH]; intros prev; cbn; [tauto |].
  rewrite IH. tauto.
Qed.

Lemma last_position_fade_in (prev : point num) (ws : list (word num)) :
  last_position prev (map fade_in ws) = last_position prev ws.
Proof.
  revert prev. induction ws as [| v ws IH]; intros prev; cbn; [reflexivity |].
  apply IH.
Qed.

Lemma text_fade_in (ws : list (word num)) : map text (map fade_in ws) = map text ws.
Proof. rewrite map_map. reflexivity. Qed.

Lemma array_get_elem_of {A} (l : list A) (i : num) (a : A) :
  array_get l i = Some a -> a ∈ l.
Proof.
  unfold array_get. destruct (to_index i); [| discriminate].
  intros E. apply list_elem_of_In. eapply nth_error_In. exact E.
Qed.

Lemma addText_cases (this : t num) (x0 y0 r1 r2 : num) :
  addText_outcome Math_hypot this (addText Math_hypot this x0 y0 r1 r2) x0 y0.
Proof.
  unfold addText.
  destruct (Math_hypot _ _ <? int 150)%js eqn:Hd.
  - apply too_close; [exact Hd | reflexivity].
  - destruct (length _ =? 0)%nat eqn:Hlen.
    + apply reset; try reflexivity.
      intros term Hin. apply Nat.eqb_eq in Hlen. apply length_zero_iff_nil in Hlen.
      destruct (decide (Some term ∈ usedWords this)) as [Hu | Hu]; [exact Hu |].
      assert (Hf : term ∈ filter (λ term, Some term ∉ usedWords this) (designTerms this)).
      { apply list_elem_of_filter. split; assumption. }
      rewrite Hlen in Hf. inversion Hf.
    + match goal with
      | |- addText_outcome _ _ ?st _ _ =>
          apply (placed Math_hypot this st x0 y0
                   {| text := array_get
                                (filter (λ term, Some term ∉ usedWords this) (designTerms this))
                                (Math_floor
                                   (r1 * int (Z.of_nat
                                      (length (filter (λ term, Some term ∉ usedWords this)
                                                 (designTerms this)))))%js);
                      word_x := x0; word_y := y0;
                      rotation := (r2 * int 40 - int 20)%js;
                      alpha := int 0 |})
      end; try reflexivity; try exact Hd.
      cbn. destruct (array_get _ _) as [term |] eqn:Hget; [left | right; reflexivity].
      apply array_get_elem_of in Hget. apply list_elem_of_filter in Hget. tauto.
Qed.

Lemma size_add (u : gset (option string)) (o : option string) :
  (size ({[ o ]} ∪ u) <= S (size u))%nat.
Proof.
  rewrite size_union_alt, size_singleton.
  assert (Hsub : u ∖ {[ o ]} ⊆ u) by (apply subseteq_difference_l; reflexivity).
  apply subseteq_size in Hsub. lia.
Qed.

(** Once all eleven terms are in the set, the set has eleven elements. *)
Lemma all_terms_used_size (u : gset (option string)) :
  (forall term, term ∈ designTerms (@constructor num _) -> Some term ∈ u) ->
  (length (designTerms (@constructor num _)) <= size u)%nat.
Proof.
  intros Hall.
  assert (Hsub : (list_to_set (map Some (designTerms (@constructor num _)))
                  : gset (option string)) ⊆ u).
  { intros o Ho. apply elem_of_list_to_set in Ho.
    apply list_elem_of_In, in_map_iff in Ho. destruct Ho as (term & <- & Hin).
    apply Hall, list_elem_of_In, Hin. }
  apply subseteq_size in Hsub.
  cbn [designTerms constructor createDots] in *.
  assert (E : size (list_to_set
                      (map Some
                         ["UI Designer"; "UX Design"; "Motion"; "Prototype";
                          "Wireframe"; "User Flow"; "Research"; "Figma";
                          "Design System"; "User Testing"; "Interaction"]%string)
                    : gset (option string)) = 11%nat) by (vm_compute; reflexivity).
  rewrite E in Hsub. exact Hsub.
Qed.

Lemma placed_terms_fade_in (ws : list (word num)) :
  omap text (map fade_in ws) = omap text ws.
Proof. induction ws as [| w ws IH]; cbn; [reflexivity |]. rewrite IH. reflexivity. Qed.

Lemma invariant_constructor : invariant Math_hypot constructor.
Proof.
  unfold invariant. cbn. repeat split.
  - rewrite size_empty. lia.
  - constructor.
  - intros term Hin. inversion Hin.
Qed.

(** [handleWordGeneration] keeps the invariant and never empties the
    set: its guard lets [addText] run only while a term is unused. *)
Lemma invariant_handleWordGeneration (this : t num) (r : draws num) :
  invariant Math_hypot this ->
  invariant Math_hypot (handleWordGeneration Math_hypot this r)
  /\ usedWords this ⊆ usedWords (handleWordGeneration Math_hypot this r).
Proof.
  intros (Hs & Hl & Hn & Ht & Hnd & Hin). unfold handleWordGeneration.
  destruct (_ && _)%bool eqn:Hg; [| split; [repeat split; assumption | reflexivity]].
  apply andb_true_iff in Hg. destruct Hg as [_ Hg]. apply Nat.ltb_lt in Hg.
  destruct (addText_cases this (x (mousePosition this) + int 30)%js
              (y (mousePosition this)) (random_index r) (random_rotation r))
    as [Hd E | Hall Hu Hw Hp Hd | w Hd Hx Hy Hfresh Hw Hu Hp Hterms].
  - rewrite E. split; [repeat split; assumption | reflexivity].
  - exfalso. rewrite Ht in Hall, Hg. apply all_terms_used_size in Hall. lia.
  - split.
    + unfold invariant. rewrite Hw, Hu, Hp, Hterms.
      split; [| split; [| split; [| split; [| split]]]].
      * apply spaced_snoc. split; [exact Hs |]. rewrite <- Hl, Hx, Hy. exact Hd.
      * rewrite last_position_snoc, Hx, Hy. reflexivity.
      * pose proof (size_add (usedWords this) (text w)). lia.
      * exact Ht.
      * rewrite omap_app. cbn. destruct (text w) as [term |] eqn:Htext; cbn;
          [| rewrite app_nil_r; exact Hnd].
        apply NoDup_app. split; [exact Hnd |]. split; [| apply NoDup_singleton].
        intros other Hother Hsame. apply list_elem_of_singleton in Hsame. subst other.
        destruct Hfresh as [Hfresh | Hfresh]; [| discriminate].
        apply Hfresh, Hin, Hother.
      * intros term Hterm. rewrite omap_app in Hterm.
        apply elem_of_app in Hterm. destruct Hterm as [Hterm | Hterm].
        -- apply elem_of_union_r, Hin, Hterm.
        -- cbn in Hterm. destruct (text w) as [term' |] eqn:Htext; cbn in Hterm;
             [| inversion Hterm].
           apply list_elem_of_singleton in Hterm. subst term'.
           apply elem_of_union_l, elem_of_singleton. reflexivity.
    + rewrite Hu. apply union_subseteq_r.
Qed.

Lemma invariant_step (this : t num) (ev : event num) :
  invariant Math_hypot this ->
  invariant Math_hypot (step Math_hypot this ev)
  /\ usedWords this ⊆ usedWords (step Math_hypot this ev).
Proof.
  intros Hinv. destruct ev as [e | r]; cbn.
  - split; [exact Hinv | reflexivity].
  - unfold animateFrame.
    assert (Hup : invariant Math_hypot (updateDots this)) by exact Hinv.
    destruct (invariant_handleWordGeneration _ r Hup)
      as [(Hs & Hl & Hn & Ht & Hnd & Hin) Hsub].
    split; [| exact Hsub].
    unfold invariant, drawWords.
    cbn [renderedWords lastTextPosition usedWords designTerms].
    rewrite spaced_fade_in, last_position_fade_in, placed_terms_fade_in.
    repeat split; assumption.
Qed.

Lemma invariant_run (evs : list (event num)) (this : t num) :
  invariant Math_hypot this ->
  invariant Math_hypot (run Math_hypot this evs)
  /\ usedWords this ⊆ usedWords (run Math_hypot this evs).
Proof.
  revert this. induction evs as [| ev evs IH]; intros this Hinv; cbn;
    [split; [exact Hinv | reflexivity] |].
  destruct (invariant_step this ev Hinv) as [Hinv' Hsub].
  destruct (IH _ Hinv') as [Hinv'' Hsub'].
  split; [exact Hinv'' | etransitivity; eassumption].
Qed.

(** The set of used words never loses a word: the reset in [addText] is
    out of reach of the animation loop. *)
Lemma used_words_never_shrink (evs evs' : list (event num)) :
  usedWords (run Math_hypot constructor evs)
  ⊆ usedWords (run Math_hypot constructor (evs ++ evs')).
Proof.
  unfold run at 2. rewrite fold_left_app. fold (run Math_hypot constructor evs).
  apply invariant_run.
  apply invariant_run, invariant_constructor.
Qed.

(** No term of the vocabulary is placed twice. *)
Lemma terms_placed_once (evs : list (event num)) :
  NoDup (omap text (renderedWords (run Math_hypot constructor evs))).
Proof.
  destruct (invariant_run evs constructor invariant_constructor)
    as [(_ & _ & _ & _ & Hnd & _) _].
  exact Hnd.
Qed.

Lemma exhausted_step (this : t num) (ev : event num) :
  size (usedWords this) = length (designTerms this) ->
  usedWords (step Math_hypot this ev) = usedWords this
  /\ map text (renderedWords (step Math_hypot this ev)) = map text (renderedWords this)
  /\ designTerms (step Math_hypot this ev) = designTerms this.
Proof.
  intros Hfull. destruct ev as [e | r]; cbn; [repeat split |].
  unfold animateFrame, handleWordGeneration.
  cbn [usedWords designTerms updateDots].
  rewrite Hfull, Nat.ltb_irrefl, andb_false_r. cbn.
  rewrite text_fade_in. repeat split.
Qed.

(** Once every term is used, no frame places a word or changes the set. *)
Lemma exhausted_run (evs : list (event num)) (this : t num) :
  size (usedWords this) = length (designTerms this) ->
  usedWords (run Math_hypot this evs) = usedWords this
  /\ map text (renderedWords (run Math_hypot this evs)) = map text (renderedWords this)
  /\ designTerms (run Math_hypot this evs) = designTerms this.
Proof.
  revert this. induction evs as [| ev evs IH]; intros this Hfull; cbn; [repeat split |].
  destruct (exhausted_step this ev Hfull) as (Hu & Hw & Ht).
  destruct (IH (step Math_hypot this ev)) as (Hu' & Hw' & Ht').
  { rewrite Hu, Ht. exact Hfull. }
  unfold run in *. rewrite Hu', Hw', Ht'. repeat split; assumption.
Qed.

End CanvasFacts.

(** *** Euclidean spacing, in exact arithmetic *)

Section SpacingFacts.
Import CanvasAnimationController.
Variable Math_hypot : xnum -> xnum -> xnum.
Hypothesis Hsound : sound_at_150 Math_hypot.

Lemma is_finite_fin (v : xnum) : is_finite v = true -> exists q : Q, v = XFin q.
Proof. destruct v as [| s | q]; try discriminate. intros _. exists q. reflexivity. Qed.

(** Between finite positions, what passes the test of [addText] is at
    least 150 away. *)
Lemma spaced_euclidean (ws : list (word xnum)) (prev : point xnum) (px py : Q) :
  x prev = XFin px -> y prev = XFin py ->
  Forall (fun w => is_finite (word_x w) = true /\ is_finite (word_y w) = true) ws ->
  spaced Math_hypot prev ws ->
  euclidean_spaced px py ws.
Proof.
  revert prev px py. induction ws as [| w ws IH]; intros prev px py Hx Hy Hfin Hs;
    [exact I |].
  inversion Hfin as [| ? ? [Hwx Hwy] Hrest]; subst.
  destruct (is_finite_fin _ Hwx) as [wx Ewx]. destruct (is_finite_fin _ Hwy) as [wy Ewy].
  destruct Hs as [Hd Hs]. rewrite Hx, Hy, Ewx, Ewy in Hd. rewrite !exact_sub_fin in Hd.
  apply Hsound in Hd.
  cbn [euclidean_spaced]. exists wx, wy.
  split; [exact Ewx |]. split; [exact Ewy |]. split.
  - unfold sq_distance. eapply Qle_trans; [exact Hd |]. apply Qle_lteq. right.
    unfold Qminus. reflexivity.
  - apply (IH {| x := word_x w; y := word_y w |}); [exact Ewx | exact Ewy | exact Hrest |].
    exact Hs.
Qed.

Lemma located_constructor : located constructor.
Proof. repeat split. constructor. Qed.

Lemma located_addText (this : t xnum) (x0 y0 r1 r2 : xnum) :
  is_finite x0 = true -> is_finite y0 = true ->
  located this -> located (addText Math_hypot this x0 y0 r1 r2).
Proof.
  intros Hx0 Hy0 (Hmx & Hmy & Hws). unfold addText.
  destruct (Math_hypot _ _ <? int 150)%js; [repeat split; assumption |].
  destruct (length _ =? 0)%nat; [repeat split; assumption |].
  split; [exact Hmx |]. split; [exact Hmy |].
  cbn [renderedWords]. apply Forall_app. split; [exact Hws |].
  constructor; [split; assumption | constructor].
Qed.

Lemma located_step (this : t xnum) (ev : event xnum) :
  finite_pointer ev = true -> located this -> located (step Math_hypot this ev).
Proof.
  intros Hev (Hmx & Hmy & Hws). destruct ev as [e | r]; cbn [step].
  - cbn in Hev. apply andb_true_iff in Hev. destruct Hev as [Hev Ht].
    apply andb_true_iff in Hev. destruct Hev as [Hev Hl].
    apply andb_true_iff in Hev. destruct Hev as [Hcx Hcy].
    destruct (is_finite_fin _ Hcx) as [cx Ecx]. destruct (is_finite_fin _ Hcy) as [cy Ecy].
    destruct (is_finite_fin _ Hl) as [l El]. destruct (is_finite_fin _ Ht) as [tp Et].
    unfold located, on_mousemove. cbn [mousePosition renderedWords x y].
    rewrite Ecx, Ecy, El, Et. repeat split. exact Hws.
  - unfold animateFrame.
    assert (Hgen : located (handleWordGeneration Math_hypot (updateDots this) r)).
    { unfold handleWordGeneration. destruct (_ && _)%bool.
      - apply located_addText.
        + cbn [updateDots mousePosition]. destruct (is_finite_fin _ Hmx) as [mx Emx].
          rewrite Emx. reflexivity.
        + exact Hmy.
        + repeat split; assumption.
      - repeat split; assumption. }
    destruct Hgen as (Hmx' & Hmy' & Hws').
    unfold located, drawWords. cbn [mousePosition renderedWords].
    split; [exact Hmx' |]. split; [exact Hmy' |].
    apply Forall_map. eapply Forall_impl; [exact Hws' |]. intros w Hw. exact Hw.
Qed.

Lemma located_run (evs : list (event xnum)) (this : t xnum) :
  Forall (fun ev => finite_pointer ev = true) evs ->
  located this -> located (run Math_hypot this evs).
Proof.
  revert this. induction evs as [| ev evs IH]; intros this Hevs Hl; [exact Hl |].
  inversion Hevs as [| ? ? Hev Hrest]; subst.
  cbn [run fold_left]. apply IH; [exact Hrest |]. apply located_step; assumption.
Qed.

Lemma run_euclidean_spaced (evs : list (event xnum)) :
  Forall (fun ev => finite_pointer ev = true) evs ->
  euclidean_spaced 0 0 (renderedWords (run Math_hypot constructor evs)).
Proof.
  intros Hevs.
  destruct (invariant_run Math_hypot evs constructor (invariant_constructor Math_hypot))
    as [(Hs & _) _].
  destruct (located_run evs constructor Hevs located_constructor) as (_ & _ & Hws).
  apply (spaced_euclidean _ {| x := int 0; y := int 0 |} 0 0);
    [reflexivity | reflexivity | exact Hws | exact Hs].
Qed.

End SpacingFacts.

(** The whole part of the root is 150 or more only when the sum of the
    squares is at least 150 squared. *)
Lemma whole_hypot_sound : sound_at_150 whole_hypot.
Proof.
  intros a b Hd.
  change (Exact.ltb (XFin (inject_Z (Z.sqrt (Qfloor (a * a + b * b))))) (XFin 150) = false)
    in Hd.
  set (s := (a * a + b * b)%Q) in *.
  apply Qnot_lt_le. intros Hlt.
  assert (Hfl : (Qfloor s < 22500)%Z).
  { apply Z.lt_nge. intros Hge.
    assert (H1 : (inject_Z 22500 <= inject_Z (Qfloor s))%Q) by (rewrite <- Zle_Qle; exact Hge).
    pose proof (Qfloor_le s) as H2.
    assert (H3 : (inject_Z 22500 == 150 * 150)%Q) by reflexivity.
    lra. }
  assert (Hsq : (Z.sqrt (Qfloor s) < 150)%Z).
  { destruct (Z.lt_ge_cases (Qfloor s) 0) as [Hneg | Hpos].
    - rewrite Z.sqrt_neg by exact Hneg. lia.
    - apply Z.sqrt_lt_square; lia. }
  assert (Hq : (inject_Z (Z.sqrt (Qfloor s)) < 150)%Q).
  { change 150%Q with (inject_Z 150). rewrite <- Zlt_Qlt. exact Hsq. }
  assert (Hc : (inject_Z (Z.sqrt (Qfloor s)) ?= 150)%Q = Lt) by (apply Qlt_alt; exact Hq).
  unfold Exact.ltb, Exact.compare in Hd. rewrite Hc in Hd. discriminate Hd.
Qed.

(** C9, as amended.  In exact arithmetic, with the pointer and the
    canvas corner at finite coordinates and a [Math.hypot] that reports
    150 or more only for offsets whose Euclidean length is at least 150,
    after any sequence of mouse moves and frames every label on the
    canvas lies at a Euclidean distance of at least 150 from the label
    placed before it, the first one from the initial last position
    (0, 0).  And in either arithmetic, whatever [Math.hypot] and
    [Math.random()] return, the set of used words never holds more than
    the eleven terms of the vocabulary. *)
Theorem labels_spaced_and_vocabulary_bounded :
  (forall (Math_hypot : xnum -> xnum -> xnum)
          (evs : list (CanvasAnimationController.event xnum)),
      sound_at_150 Math_hypot ->
      Forall (fun ev => finite_pointer ev = true) evs ->
      euclidean_spaced 0 0
        (CanvasAnimationController.renderedWords
           (CanvasAnimationController.run Math_hypot
              CanvasAnimationController.constructor evs)))
  /\ (forall {num : Type} `{Number num} (Math_hypot : num -> num -> num)
             (evs : list (CanvasAnimationController.event num)),
         let st := CanvasAnimationController.run Math_hypot
                     CanvasAnimationController.constructor evs in
         (size (CanvasAnimationController.usedWords st)
          <= length (CanvasAnimationController.designTerms st))%nat
         /\ length (CanvasAnimationController.designTerms st) = 11%nat).
Proof.
  split.
  - intros Math_hypot evs Hsound Hevs. apply run_euclidean_spaced; assumption.
  - intros num N Math_hypot evs st.
    destruct (invariant_run Math_hypot evs CanvasAnimationController.constructor
                (invariant_constructor Math_hypot)) as [(_ & _ & Hn & Ht & _) _].
    split; [exact Hn |]. subst st. rewrite Ht. reflexivity.
Qed.

(** Two labels, at (230, 0) and at (30, 0), measured by the whole part
    of the root. *)
Lemma labels_spaced_and_vocabulary_bounded_witness :
  euclidean_spaced 0 0
    (CanvasAnimationController.renderedWords
       (CanvasAnimationController.run whole_hypot
          CanvasAnimationController.constructor exact_placements)).
Proof.
  apply (proj1 labels_spaced_and_vocabulary_bounded whole_hypot exact_placements).
  - exact whole_hypot_sound.
  - repeat constructor.
Defined.

(** C9 fails as stated, in the doubles the script computes with.  Over
    a canvas that begins 0.3 pixels right of the viewport's edge, the
    pointer at 150 and then at 0 has two labels placed, at the doubles
    179.7 and 29.7 of the x axis.  Their difference as doubles subtract
    is exactly -150, of which [Math.hypot] makes 150, so that the second
    label passes the test; but the two positions are less than 150
    apart (by 3 * 2^-48). *)
Lemma label_placed_closer_than_150_pixels :
  let st := CanvasAnimationController.run B64.hypot
              CanvasAnimationController.constructor close_placements in
  map CanvasAnimationController.word_x (CanvasAnimationController.renderedWords st)
  = [lit 1797 10; lit 297 10]
  /\ map CanvasAnimationController.word_y (CanvasAnimationController.renderedWords st)
     = [int 0; int 0]
  /\ (lit 297 10 - lit 1797 10)%js = (int (-150) : spec_float)
  /\ B64.hypot (int (-150)) (int 0 - int 0)%js = int 150
  /\ exists a b : Q,
       exact_value (lit 1797 10) = Some a
       /\ exact_value (lit 297 10) = Some b
       /\ (sq_distance b 0 a 0 < 150 * 150)%Q
       /\ (150 - (a - b) == 3 / 2 ^ 48)%Q.
Proof.
  cbv zeta. split; [vm_compute; reflexivity |]. split; [vm_compute; reflexivity |].
  split; [vm_compute; reflexivity |]. split; [vm_compute; reflexivity |].
  do 2 eexists. split; [vm_compute; reflexivity |]. split; [vm_compute; reflexivity |].
  split; vm_compute; reflexivity.
Qed.

(** C2, where the code departs from it.  Eleven placements use every
    term once each; from then on, whatever events follow, the set of
    used words stays full and no further word is placed: the labels on
    the canvas remain the eleven terms.  The set is never reset. *)
Theorem exhausted_vocabulary_is_never_reset :
  forall evs : list (CanvasAnimationController.event spec_float),
    let full := CanvasAnimationController.run B64.hypot
                  CanvasAnimationController.constructor exhausting_events in
    let later := CanvasAnimationController.run B64.hypot full evs in
    size (CanvasAnimationController.usedWords full)
      = length (CanvasAnimationController.designTerms full)
    /\ CanvasAnimationController.usedWords later = CanvasAnimationController.usedWords full
    /\ map CanvasAnimationController.text (CanvasAnimationController.renderedWords later)
       = map Some (CanvasAnimationController.designTerms full).
Proof.
  intros evs full later.
  assert (Hfull : size (CanvasAnimationController.usedWords full)
                  = length (CanvasAnimationController.designTerms full))
    by (vm_compute; reflexivity).
  destruct (exhausted_run B64.hypot evs full Hfull) as (Hu & Hw & _).
  split; [exact Hfull |]. split; [exact Hu |].
  subst later. rewrite Hw. vm_compute. reflexivity.
Qed.

(** ** CanvasAnimationController: trailing dots *)

(** C8, as amended.  In exact arithmetic, one update of a dot whose
    speed lies strictly between 0 and 1 scales both of its offsets from
    the pointer by [1 - speed]; hence, whenever the dot is not at the
    pointer, its (squared) distance to the pointer strictly decreases. *)
Theorem dot_step_contracts_exact_distance :
  forall (mouse : CanvasAnimationController.point xnum)
         (d : CanvasAnimationController.dot xnum) (mx my dx dy s : Q),
    CanvasAnimationController.x mouse = XFin mx ->
    CanvasAnimationController.y mouse = XFin my ->
    CanvasAnimationController.dot_x d = XFin dx ->
    CanvasAnimationController.dot_y d = XFin dy ->
    CanvasAnimationController.speed d = XFin s ->
    (0 < s < 1)%Q ->
    exists dx' dy' : Q,
      CanvasAnimationController.dot_x (CanvasAnimationController.updateDot mouse d) = XFin dx'
      /\ CanvasAnimationController.dot_y (CanvasAnimationController.updateDot mouse d) = XFin dy'
      /\ (mx - dx' == (1 - s) * (mx - dx))%Q
      /\ (my - dy' == (1 - s) * (my - dy))%Q
      /\ (~ sq_distance dx dy mx my == 0 ->
          sq_distance dx' dy' mx my < sq_distance dx dy mx my)%Q.
Proof.
  intros mouse d mx my dx dy s Hmx Hmy Hdx Hdy Hs Hrange.
  exists (dx + (mx + - dx) * s)%Q, (dy + (my + - dy) * s)%Q.
  unfold CanvasAnimationController.updateDot. cbn.
  rewrite Hmx, Hmy, Hdx, Hdy, Hs. cbn.
  split; [reflexivity |]. split; [reflexivity |].
  split; [ring |]. split; [ring |].
  unfold sq_distance. intros Hne.
  set (a := (dx - mx)%Q) in *. set (b := (dy - my)%Q) in *.
  assert (Ha : (dx + (mx + - dx) * s - mx == (1 - s) * a)%Q) by (subst a; ring).
  assert (Hb : (dy + (my + - dy) * s - my == (1 - s) * b)%Q) by (subst b; ring).
  rewrite Ha, Hb.
  assert (Hpos : (0 < a * a + b * b)%Q).
  { assert (0 <= a * a)%Q by nra. assert (0 <= b * b)%Q by nra.
    destruct (Qlt_le_dec 0 (a * a + b * b)) as [L | G]; [exact L |].
    exfalso. apply Hne. lra. }
  assert (Hk : ((1 - s) * (1 - s) < 1)%Q) by nra.
  assert (E : ((1 - s) * a * ((1 - s) * a) + (1 - s) * b * ((1 - s) * b)
               == (1 - s) * (1 - s) * (a * a + b * b))%Q) by ring.
  rewrite E.
  set (D := (a * a + b * b)%Q) in *. set (K := ((1 - s) * (1 - s))%Q) in *.
  assert (0 < (1 - K) * D)%Q by (apply Qmult_lt_0_compat; lra).
  lra.
Qed.

(** The first dot, of speed 0.1, one step from (0, 0) towards (100, 50). *)
Lemma dot_step_contracts_exact_distance_witness :
  exists dx' dy' : Q,
    CanvasAnimationController.dot_x
      (CanvasAnimationController.updateDot exact_pointer exact_first_dot) = XFin dx'
    /\ CanvasAnimationController.dot_y
         (CanvasAnimationController.updateDot exact_pointer exact_first_dot) = XFin dy'
    /\ (100 - dx' == (1 - (100 # 1000)) * (100 - 0))%Q
    /\ (50 - dy' == (1 - (100 # 1000)) * (50 - 0))%Q
    /\ (~ sq_distance 0 0 100 50 == 0 ->
        sq_distance dx' dy' 100 50 < sq_distance 0 0 100 50)%Q.
Proof.
  apply (dot_step_contracts_exact_distance exact_pointer exact_first_dot
           100 50 0 0 (100 # 1000));
    [reflexivity | reflexivity | reflexivity | reflexivity | reflexivity | lra].
Defined.

(** C8 fails as stated, in the doubles the script computes with: with
    the pointer resting at (100, 50), after 400 frames each of the five
    dots (speeds 0.1 to 0.18) still lies strictly short of the pointer
    in both coordinates, and a further update leaves every dot exactly
    where it is; the increment is lost in the rounding of the sum. *)
Lemma dots_come_to_rest_short_of_pointer :
  let st := CanvasAnimationController.run B64.hypot
              CanvasAnimationController.constructor resting_events in
  CanvasAnimationController.mousePosition st
  = {| CanvasAnimationController.x := int 100; CanvasAnimationController.y := int 50 |}
  /\ length (CanvasAnimationController.dots st) = 5%nat
  /\ forallb (short_of (CanvasAnimationController.mousePosition st))
       (CanvasAnimationController.dots st) = true
  /\ CanvasAnimationController.dots (CanvasAnimationController.updateDots st)
     = CanvasAnimationController.dots st.
Proof. vm_compute. repeat split. Qed.

(** Where the five dots rest: the first two at 100 - 4 * 2^-46, about
    99.99999999999994, the next two one unit in the last place closer,
    the last one two units closer; the pointer is at 100 = 7036874417766400
    * 2^-46. *)
Example resting_dots_abscissas :
  map CanvasAnimationController.dot_x
    (CanvasAnimationController.dots
       (CanvasAnimationController.run B64.hypot
          CanvasAnimationController.constructor resting_events))
  = [S754_finite false 7036874417766396 (-46);
     S754_finite false 7036874417766396 (-46);
     S754_finite false 7036874417766397 (-46);
     S754_finite false 7036874417766397 (-46);
     S754_finite false 7036874417766398 (-46)].
Proof. vm_compute. reflexivity. Qed.

(** ** ScrollObserverController: parallax *)

Section ParallaxFacts.
Import ScrollObserverController.
Context {num : Type} `{Number num}.
Variable ToNumber : string -> num.

Lemma run_callbacks_window (cs : list callback) (w : window num) :
  scrollY (fold_left (run_callback ToNumber) cs w) = scrollY w
  /\ animation_frame_callbacks (fold_left (run_callback ToNumber) cs w)
     = animation_frame_callbacks w.
Proof.
  revert w. induction cs as [| c cs IH]; intros w; cbn; [split; reflexivity |].
  destruct c. destruct (IH (run_callback ToNumber w update_parallax)) as (Hy & Hc).
  split; assumption.
Qed.

(** Running the recomputation again changes nothing more. *)
Lemma run_callbacks_layers (cs : list callback) (w : window num) :
  layers (fold_left (run_callback ToNumber) (update_parallax :: cs) w)
  = map (update_layer ToNumber (scrollY w)) (layers w).
Proof.
  revert w. induction cs as [| c cs IH]; intros w; [reflexivity |].
  destruct c.
  change (fold_left (run_callback ToNumber) (update_parallax :: update_parallax :: cs) w)
    with (fold_left (run_callback ToNumber) (update_parallax :: cs)
            (run_callback ToNumber w update_parallax)).
  rewrite IH. cbn. rewrite map_map. reflexivity.
Qed.

Lemma last_cons_default {A} (a d : A) (l : list A) :
  List.last (a :: l) d = List.last l a.
Proof.
  revert a d. induction l as [| b l IH]; intros a d; [reflexivity |].
  change (List.last (a :: b :: l) d) with (List.last (b :: l) d).
  rewrite (IH b d), (IH b a). reflexivity.
Qed.

Lemma parallax_run_cons (w : window num) (ev : event num) (evs : list (event num)) :
  run ToNumber w (ev :: evs) = run ToNumber (fst (step ToNumber w ev)) evs.
Proof. reflexivity. Qed.

(** Scroll events only queue callbacks. *)
Lemma run_scrolls (ys : list num) (w : window num) :
  scrollY (run ToNumber w (map scroll ys)) = List.last ys (scrollY w)
  /\ layers (run ToNumber w (map scroll ys)) = layers w
  /\ animation_frame_callbacks (run ToNumber w (map scroll ys))
     = animation_frame_callbacks w ++ repeat update_parallax (length ys).
Proof.
  revert w. induction ys as [| y ys IH]; intros w.
  - cbn. rewrite app_nil_r. repeat split.
  - rewrite map_cons, parallax_run_cons.
    destruct (IH (fst (step ToNumber w (scroll y)))) as (Hy & Hl & Hc).
    rewrite Hy, Hl, Hc, last_cons_default. cbn. rewrite <- app_assoc.
    repeat split.
Qed.

End ParallaxFacts.

(** C4, as amended.  Scroll events change no transform; each one queues
    one recomputation for the next animation frame.  After a burst of
    one or more scroll events, the next frame runs the recomputation
    once for every scroll event received since the previous frame (and
    once for every callback that was already pending), empties the
    queue, and leaves every parallax layer with the vertical translation
    [scrollY * depth], where [scrollY] is the offset of the last scroll
    event and [depth] is the Number of the layer's [data-depth] text, or
    0.1 when the attribute is missing or empty. *)
Theorem parallax_recomputed_once_per_scroll_event :
  forall {num : Type} `{Number num} (ToNumber : string -> num)
         (w : ScrollObserverController.window num) (y : num) (ys : list num),
    let burst := map ScrollObserverController.scroll (y :: ys) in
    let w' := ScrollObserverController.run ToNumber w burst in
    let frame := ScrollObserverController.step ToNumber w'
                   ScrollObserverController.animation_frame in
    snd frame
      = (length (ScrollObserverController.animation_frame_callbacks w) + S (length ys))%nat
    /\ ScrollObserverController.layers w' = ScrollObserverController.layers w
    /\ ScrollObserverController.animation_frame_callbacks (fst frame) = []
    /\ ScrollObserverController.scrollY (fst frame) = List.last ys y
    /\ ScrollObserverController.layers (fst frame)
       = map (fun l =>
                {| ScrollObserverController.dataset_depth :=
                     ScrollObserverController.dataset_depth l;
                   ScrollObserverController.transform :=
                     Some (ScrollObserverController.translate3d_0_px_0
                             (List.last ys y
                              * match ScrollObserverController.dataset_depth l with
                                | Some s => if String.eqb s "" then lit 1 10 else ToNumber s
                                | None => lit 1 10
                                end)%js) |})
           (ScrollObserverController.layers w).
Proof.
  intros num N ToNumber w y ys burst w' frame.
  destruct (run_scrolls ToNumber (y :: ys) w) as (Hy & Hl & Hc).
  fold burst in Hy, Hl, Hc. fold w' in Hy, Hl, Hc.
  rewrite last_cons_default in Hy.
  subst frame. unfold ScrollObserverController.step. cbn [fst snd].
  rewrite Hc.
  split.
  { rewrite length_app, repeat_length. reflexivity. }
  split; [exact Hl |].
  destruct (ScrollObserverController.animation_frame_callbacks w
            ++ repeat ScrollObserverController.update_parallax (length (y :: ys)))
    as [| c cs] eqn:Hq.
  { exfalso. apply app_eq_nil in Hq. destruct Hq as [_ Hq]. discriminate Hq. }
  destruct c.
  destruct (run_callbacks_window ToNumber cs
       (ScrollObserverController.run_callback ToNumber
          {| ScrollObserverController.scrollY := ScrollObserverController.scrollY w';
             ScrollObserverController.layers := ScrollObserverController.layers w';
             ScrollObserverController.animation_frame_callbacks := [] |}
          ScrollObserverController.update_parallax)) as (Ey & Ec).
  split; [exact Ec |].
  split; [cbn; cbn in Ey; rewrite Ey; exact Hy |].
  rewrite run_callbacks_layers.
  cbn [ScrollObserverController.scrollY ScrollObserverController.layers].
  rewrite Hl, Hy. apply map_ext. intros l.
  unfold ScrollObserverController.update_layer, ScrollObserverController.depth_factor,
    ScrollObserverController.depth.
  destruct (ScrollObserverController.dataset_depth l) as [s |]; [| reflexivity].
  destruct (String.eqb s ""); reflexivity.
Qed.

(** C4 fails as stated: three scroll events before one frame make that
    frame run the recomputation three times. *)
Lemma scroll_burst_recomputes_thrice_in_one_frame :
  let w := ScrollObserverController.run half_depth parallax_page
             [ScrollObserverController.scroll (int 10);
              ScrollObserverController.scroll (int 20);
              ScrollObserverController.scroll (int 30)] in
  snd (ScrollObserverController.step half_depth w
         ScrollObserverController.animation_frame) = 3%nat.
Proof. vm_compute. reflexivity. Qed.

(** ** The repository feed *)

(** C6.  When #projects-grid is in the page: a response with a status
    in 200-299 whose body is the empty array leaves the grid with no
    block at all, neither card nor error; a response with status 404,
    whatever its body, leaves it with exactly one error block, whose
    text ends with the message made from the status, "GitHub API
    error: 404". *)
Theorem repository_feed_empty_list_and_not_found :
  forall {num : Type} (fault_message : Feeds.engine_fault num -> string)
         (d : Feeds.dom num) (content : list (Feeds.block num))
         (s : Z) (b : Feeds.body num),
    Feeds.projects_grid d = Some content ->
    200 <= s <= 299 ->
    Feeds.fetchGitHubRepos fault_message
      (Feeds.resolved {| Feeds.status := s;
                         Feeds.response_body := Feeds.json (Feeds.array []) |}) d
    = (Feeds.returned tt,
       {| Feeds.projects_grid := Some [];
          Feeds.design_projects := Feeds.design_projects d |})
    /\ Feeds.fetchGitHubRepos fault_message
         (Feeds.resolved {| Feeds.status := 404; Feeds.response_body := b |}) d
       = (Feeds.returned tt,
          {| Feeds.projects_grid :=
               Some [Feeds.error_block "Error loading projects: GitHub API error: 404"];
             Feeds.design_projects := Feeds.design_projects d |}).
Proof.
  intros num fault_message d content s b Hgrid Hok.
  unfold Feeds.fetchGitHubRepos, Feeds.try_catch, Feeds.bind, Feeds.set_projects_grid,
    Feeds.await_fetch, Feeds.ret, Feeds.throw, Feeds.ok.
  rewrite Hgrid. cbn.
  replace (200 <=? s) with true by (symmetry; apply Z.leb_le; lia).
  replace (s <=? 299) with true by (symmetry; apply Z.leb_le; lia).
  cbn. split; reflexivity.
Qed.

(** Status 200 with an empty array, and the API's own 404 answer. *)
Lemma repository_feed_empty_list_and_not_found_witness :
  Feeds.fetchGitHubRepos engine_text
    (Feeds.resolved {| Feeds.status := 200;
                       Feeds.response_body := Feeds.json (Feeds.array []) |}) loaded_page
  = (Feeds.returned tt,
     {| Feeds.projects_grid := Some [];
        Feeds.design_projects := Feeds.design_projects loaded_page |})
  /\ Feeds.fetchGitHubRepos engine_text
       (Feeds.resolved {| Feeds.status := 404;
                          Feeds.response_body := Feeds.response_body not_found |})
       loaded_page
     = (Feeds.returned tt,
        {| Feeds.projects_grid :=
             Some [Feeds.error_block "Error loading projects: GitHub API error: 404"];
           Feeds.design_projects := Feeds.design_projects loaded_page |}).
Proof.
  apply (repository_feed_empty_list_and_not_found engine_text loaded_page [] 200
           (Feeds.response_body not_found)); [reflexivity | lia].
Defined.

(** ** The design-file feed *)

Section FeedFacts.
Import Feeds.
Context {num : Type}.
Variable fault_message : engine_fault num -> string.
Variable Date_time : value num -> option Z.

Abbreviation dated := (fun f : value num => is_Some (modified Date_time f)).

Lemma bind_returned {A B} (c : M A) (k : A -> M B) (d d' : dom num) (a : A) :
  c d = (returned a, d') -> bind c k d = k a d'.
Proof. intros E. unfold bind. rewrite E. reflexivity. Qed.

Lemma modified_object (f : value num) (t : Z) :
  modified Date_time f = Some t ->
  exists fields, f = object fields
                 /\ Date_time (lookup_field "last_modified" fields) = Some t.
Proof. destruct f; try discriminate. intros E. eexists. split; [reflexivity | exact E]. Qed.

Lemma by_last_modified_dated (a b : value num) (ta tb : Z) (d : dom num) :
  modified Date_time a = Some ta ->
  modified Date_time b = Some tb ->
  by_last_modified fault_message Date_time a b d = (returned (Some (tb - ta)), d).
Proof.
  intros Ha Hb.
  apply modified_object in Ha. destruct Ha as (fa & -> & Ha).
  apply modified_object in Hb. destruct Hb as (fb & -> & Hb).
  unfold by_last_modified, bind, get, ret. rewrite Ha, Hb. reflexivity.
Qed.

Lemma recent_first_trans (a b c : value num) :
  recent_first Date_time a b -> recent_first Date_time b c -> recent_first Date_time a c.
Proof.
  unfold recent_first.
  destruct (modified Date_time a), (modified Date_time b), (modified Date_time c);
    try tauto. lia.
Qed.

(** Insertion keeps a list of dated files sorted, newest first. *)
Lemma insert_sorted_dated (sorted : list (value num)) (a : value num) (d : dom num) :
  dated a ->
  Forall dated sorted ->
  StronglySorted (recent_first Date_time) sorted ->
  exists l,
    insert_sorted (by_last_modified fault_message Date_time) a sorted d = (returned l, d)
    /\ Permutation (a :: sorted) l
    /\ StronglySorted (recent_first Date_time) l
    /\ Forall dated l.
Proof.
  intros [ta Ha]. induction sorted as [| b rest IH]; intros Hdated Hsorted.
  - exists [a]. split; [reflexivity |]. split; [reflexivity |]. split.
    + constructor; constructor.
    + constructor; [eexists; exact Ha | constructor].
  - inversion Hdated as [| ? ? [tb Hb] Hrest]; subst.
    inversion Hsorted as [| ? ? Hs Hall]; subst.
    cbn [insert_sorted].
    rewrite (bind_returned _ _ d d (Some (tb - ta)))
      by (apply by_last_modified_dated; assumption).
    destruct (0 <? tb - ta) eqn:Hcmp.
    + destruct (IH Hrest Hs) as (l & El & Pl & Sl & Dl).
      rewrite (bind_returned _ _ d d l El).
      exists (b :: l). unfold ret. split; [reflexivity |]. split; [| split].
      * rewrite perm_swap. constructor. exact Pl.
      * constructor; [exact Sl |].
        eapply Permutation_Forall; [exact Pl |].
        constructor; [| exact Hall].
        unfold recent_first. rewrite Ha, Hb. apply Z.ltb_lt in Hcmp. lia.
      * constructor; [eexists; exact Hb | exact Dl].
    + exists (a :: b :: rest). unfold ret. split; [reflexivity |]. split; [| split].
      * reflexivity.
      * assert (Hab : recent_first Date_time a b).
        { unfold recent_first. rewrite Ha, Hb. apply Z.ltb_ge in Hcmp. lia. }
        constructor; [exact Hsorted |].
        constructor; [exact Hab |].
        eapply Forall_impl; [exact Hall |].
        intros c Hbc. eapply recent_first_trans; eassumption.
      * constructor; [eexists; exact Ha | exact Hdated].
Qed.

Lemma sort_dated (l : list (value num)) (d : dom num) :
  Forall dated l ->
  exists sorted,
    sort (by_last_modified fault_message Date_time) l d = (returned sorted, d)
    /\ Permutation l sorted
    /\ StronglySorted (recent_first Date_time) sorted
    /\ Forall dated sorted.
Proof.
  induction l as [| a l IH]; intros Hdated.
  - exists []. split; [reflexivity |]. split; [reflexivity |]. split; constructor.
  - inversion Hdated as [| ? ? Ha Hl]; subst.
    destruct (IH Hl) as (s & Es & Ps & Ss & Ds).
    destruct (insert_sorted_dated s a d Ha Ds Ss) as (s' & Es' & Ps' & Ss' & Ds').
    exists s'. cbn [sort].
    rewrite (bind_returned _ _ d d s Es).
    split; [exact Es' |]. split; [| split; assumption].
    rewrite <- Ps'. constructor. exact Ps.
Qed.

(** In a sorted list, whatever is kept comes before whatever is cut. *)
Lemma sorted_prefix_dominates (n : nat) (l : list (value num)) (kept cut : value num) :
  StronglySorted (recent_first Date_time) l ->
  In kept (firstn n l) -> In cut (skipn n l) ->
  recent_first Date_time kept cut.
Proof.
  revert n. induction l as [| a l IH]; intros n Hsorted Hkept Hcut.
  - destruct n; contradiction.
  - inversion Hsorted as [| ? ? Hs Hall]; subst.
    destruct n as [| n]; [contradiction |].
    cbn in Hkept, Hcut. destruct Hkept as [<- | Hkept].
    + rewrite Forall_forall in Hall. apply Hall.
      apply (subseteq_drop n l). apply list_elem_of_In. exact Hcut.
    + eapply IH; eassumption.
Qed.

Lemma render_dated (l : list (value num)) (d : dom num) :
  Forall dated l ->
  mapM (renderFigmaProject fault_message) l d = (returned (map file_card l), d).
Proof.
  induction l as [| f l IH]; intros Hdated; [reflexivity |].
  inversion Hdated as [| ? ? [t Hf] Hl]; subst.
  apply modified_object in Hf. destruct Hf as (fields & -> & _).
  cbn [mapM map]. unfold bind at 1. unfold renderFigmaProject at 1.
  unfold bind at 1. cbn [get ret]. unfold bind at 1. rewrite (IH Hl). reflexivity.
Qed.

Lemma getFigmaProjectFiles_listed (files_request : value num -> fetch_result num)
    (id : value num) (r : response num) (g : list (string * value num)) (d : dom num) :
  files_request id = resolved r ->
  response_body r = json (object g) ->
  getFigmaProjectFiles fault_message files_request id d
  = (returned (lookup_field "files" g), d).
Proof.
  intros Hreq Hbody.
  unfold getFigmaProjectFiles, try_catch, bind, await_fetch, await_json, ret, get.
  rewrite Hreq, Hbody. reflexivity.
Qed.

End FeedFacts.



(** On those responses the five cards are those of 7, 6, 5, 4 and 3
    January, in that order. *)
Example design_feed_renders_newest_first :
  Feeds.fetchRecentFigmaFiles engine_text iso_time (Feeds.resolved team_listing)
    files_online loaded_page
  = (Feeds.returned tt,
     {| Feeds.projects_grid := Some [];
        Feeds.design_projects :=
          Some (map Feeds.file_card
                  [design_file "icons" "2024-01-07T00:00:00Z";
                   design_file "dashboard" "2024-01-06T00:00:00Z";
                   design_file "checkout" "2024-01-05T00:00:00Z";
                   design_file "settings" "2024-01-04T00:00:00Z";
                   design_file "landing" "2024-01-03T00:00:00Z"]%string) |}).
Proof. vm_compute. reflexivity. Qed.

(** ** Failures at the two renderers *)

Section FeedFailures.
Import Feeds.
Context {num : Type}.
Variable fault_message : engine_fault num -> string.
Variable Date_time : value num -> option Z.

Lemma silent_ret {A} (a : A) : silent (@ret num A a).
Proof. intros d. reflexivity. Qed.

Lemma silent_bind {A B} (c : @M num A) (k : A -> @M num B) :
  silent c -> (forall a, silent (k a)) -> silent (bind c k).
Proof.
  intros Hc Hk d. unfold bind. specialize (Hc d).
  destruct (c d) as [[a | e] d']; cbn in Hc; subst d'; [apply Hk | reflexivity].
Qed.

Lemma silent_try_catch {A} (c : @M num A) (h : error -> @M num A) :
  silent c -> (forall e, silent (h e)) -> silent (try_catch c h).
Proof.
  intros Hc Hh d. unfold try_catch. specialize (Hc d).
  destruct (c d) as [[a | e] d']; cbn in Hc; subst d'; [reflexivity | apply Hh].
Qed.

Lemma silent_get (v : value num) (k : string) : silent (get fault_message v k).
Proof. intros d. destruct v; reflexivity. Qed.

Lemma silent_iterate (v : value num) : silent (iterate fault_message v).
Proof. intros d. destruct v; reflexivity. Qed.

Lemma silent_await_fetch (f : fetch_result num) : silent (await_fetch f).
Proof. intros d. destruct f; reflexivity. Qed.

Lemma silent_await_json (r : response num) : silent (await_json r).
Proof. intros d. unfold await_json. destruct (response_body r); reflexivity. Qed.

Lemma silent_mapM {A B} (f : A -> @M num B) (l : list A) :
  (forall a, silent (f a)) -> silent (mapM f l).
Proof.
  intros Hf. induction l as [| a l IH]; cbn [mapM]; [apply silent_ret |].
  apply silent_bind; [apply Hf | intros b].
  apply silent_bind; [exact IH | intros bs; apply silent_ret].
Qed.

Lemma silent_renderFigmaProject (v : value num) : silent (renderFigmaProject fault_message v).
Proof. apply silent_bind; [apply silent_get | intros; apply silent_ret]. Qed.

Lemma silent_by_last_modified (a b : value num) :
  silent (by_last_modified fault_message Date_time a b).
Proof.
  apply silent_bind; [apply silent_get | intros mb].
  apply silent_bind; [apply silent_get | intros ma; apply silent_ret].
Qed.

Lemma silent_insert_sorted (a : value num) (l : list (value num)) :
  silent (insert_sorted (by_last_modified fault_message Date_time) a l).
Proof.
  induction l as [| b rest IH]; cbn [insert_sorted]; [apply silent_ret |].
  apply silent_bind; [apply silent_by_last_modified | intros [v |]];
    [| apply silent_ret].
  destruct (0 <? v); [| apply silent_ret].
  apply silent_bind; [exact IH | intros; apply silent_ret].
Qed.

Lemma silent_sort (l : list (value num)) :
  silent (sort (by_last_modified fault_message Date_time) l).
Proof.
  induction l as [| a l IH]; cbn [sort]; [apply silent_ret |].
  apply silent_bind; [exact IH | intros; apply silent_insert_sorted].
Qed.

Lemma silent_getFigmaProjectFiles (files_request : value num -> fetch_result num)
    (id : value num) :
  silent (getFigmaProjectFiles fault_message files_request id).
Proof.
  apply silent_try_catch; [| intros; apply silent_ret].
  apply silent_bind; [apply silent_await_fetch | intros r].
  apply silent_bind; [apply silent_await_json | intros data; apply silent_get].
Qed.

Lemma silent_collect_files (files_request : value num -> fetch_result num)
    (projects acc : list (value num)) :
  silent (collect_files fault_message files_request projects acc).
Proof.
  revert acc. induction projects as [| p projects IH]; intros acc; cbn [collect_files];
    [apply silent_ret |].
  apply silent_bind; [apply silent_get | intros id].
  apply silent_bind; [apply silent_getFigmaProjectFiles | intros files].
  apply silent_bind; [apply silent_iterate | intros spread; apply IH].
Qed.

(** A failed file request is taken for an empty file list. *)
Lemma getFigmaProjectFiles_failed (files_request : value num -> fetch_result num)
    (id : value num) (d : dom num) :
  files_failure (files_request id) = true ->
  getFigmaProjectFiles fault_message files_request id d = (returned (array []), d).
Proof.
  unfold files_failure, getFigmaProjectFiles, try_catch, bind, await_fetch, await_json.
  destruct (files_request id) as [m | r]; [reflexivity |].
  cbn. destruct (response_body r); [reflexivity | discriminate].
Qed.

Lemma render_repo_value (v : value num) (d : dom num) :
  render_repo fault_message v d
  = if nullish v
    then (thrown (TypeError (fault_message (read_property_of v "private"))), d)
    else (returned (repo_card v), d).
Proof. destruct v; reflexivity. Qed.

Lemma render_repos (l : list (value num)) (d : dom num) :
  if existsb nullish l
  then exists e, mapM (render_repo fault_message) l d = (thrown e, d)
  else mapM (render_repo fault_message) l d = (returned (map repo_card l), d).
Proof.
  induction l as [| v l IH]; [reflexivity |].
  cbn [existsb]. destruct (nullish v) eqn:Hv; cbn [orb].
  - cbn [mapM]. unfold bind at 1. rewrite render_repo_value, Hv.
    eexists. reflexivity.
  - destruct (existsb nullish l).
    + destruct IH as [e IH]. cbn [mapM]. unfold bind at 1.
      rewrite render_repo_value, Hv. unfold bind at 1. rewrite IH.
      eexists. reflexivity.
    + cbn [mapM map]. unfold bind at 1.
      rewrite render_repo_value, Hv. unfold bind at 1. rewrite IH. reflexivity.
Qed.

(** The repository renderer always returns, and a failure leaves exactly
    one error block in the grid. *)
Lemma fetchGitHubRepos_settles (github : fetch_result num)
    (grid : list (block num)) (design : option (list (block num))) :
  exists content,
    fetchGitHubRepos fault_message github
      {| projects_grid := Some grid; design_projects := design |}
    = (returned tt, {| projects_grid := Some content; design_projects := design |})
    /\ (github_failure github = true -> exists text, content = [error_block text]).
Proof.
  unfold fetchGitHubRepos, try_catch.
  unfold bind at 1. unfold set_projects_grid at 1. cbn [projects_grid design_projects].
  destruct github as [m | r].
  - cbn. eexists. split; [reflexivity | intros _; eexists; reflexivity].
  - unfold bind at 1. cbn [await_fetch ret]. unfold github_failure.
    destruct (ok r); cbn [negb orb throw].
    2:{ cbn. eexists. split; [reflexivity | intros _; eexists; reflexivity]. }
    unfold bind at 1. unfold await_json.
    destruct (response_body r) as [m | v]; cbn [throw ret].
    { cbn. eexists. split; [reflexivity | intros _; eexists; reflexivity]. }
    destruct v as [| | b | n | s | l | fields];
      try (cbn; eexists; split; [reflexivity | intros _; eexists; reflexivity]).
    unfold bind at 1.
    pose proof (render_repos l
                  {| projects_grid := Some [spinner]; design_projects := design |}) as Hr.
    destruct (existsb nullish l).
    + destruct Hr as [e Hr]. rewrite Hr. cbn.
      eexists. split; [reflexivity | intros _; eexists; reflexivity].
    + rewrite Hr. cbn. eexists. split; [reflexivity | discriminate].
Qed.

Lemma keeps_silent {A} (c : @M num A) : silent c -> keeps c.
Proof. intros Hc d Hd. rewrite Hc. split; [exact Hd | reflexivity]. Qed.

Lemma keeps_bind {A B} (c : @M num A) (k : A -> @M num B) :
  keeps c -> (forall a, keeps (k a)) -> keeps (bind c k).
Proof.
  intros Hc Hk d Hd. unfold bind. specialize (Hc d Hd).
  destruct (c d) as [[a | e] d']; cbn in Hc; destruct Hc as [Hs Hg].
  - destruct (Hk a d' Hs) as [Hs' Hg']. split; [exact Hs' | congruence].
  - split; assumption.
Qed.

Lemma keeps_set_design_projects (content : list (block num)) :
  keeps (set_design_projects fault_message content).
Proof.
  intros d [c Hd]. unfold set_design_projects. rewrite Hd. cbn.
  split; [eexists; reflexivity | reflexivity].
Qed.

Lemma keeps_renderFigmaProjects (files : list (value num)) :
  keeps (renderFigmaProjects fault_message files).
Proof.
  intros d [c Hd]. unfold renderFigmaProjects. rewrite Hd.
  apply (keeps_bind (mapM (renderFigmaProject fault_message) files)
           (fun cards => set_design_projects fault_message cards)).
  - apply keeps_silent, silent_mapM. intros a. apply silent_renderFigmaProject.
  - intros cards. apply keeps_set_design_projects.
  - eexists. exact Hd.
Qed.

Lemma set_design_projects_returns (content : list (block num)) (d : dom num) :
  is_Some (design_projects d) ->
  set_design_projects fault_message content d
  = (returned tt, {| projects_grid := projects_grid d; design_projects := Some content |}).
Proof. intros [c Hd]. unfold set_design_projects. rewrite Hd. reflexivity. Qed.

(** The design renderer always returns, with or without its container. *)
Lemma fetchRecentFigmaFiles_returns (team : fetch_result num)
    (files_request : value num -> fetch_result num) (d : dom num) :
  exists d',
    fetchRecentFigmaFiles fault_message Date_time team files_request d = (returned tt, d')
    /\ projects_grid d' = projects_grid d.
Proof.
  unfold fetchRecentFigmaFiles.
  destruct (design_projects d) as [content |] eqn:Hd;
    [| exists d; split; reflexivity].
  unfold try_catch.
  match goal with
  | |- context [match ?body d with _ => _ end] =>
      assert (Hkeeps : keeps body)
  end.
  { apply keeps_bind; [apply keeps_set_design_projects | intros _].
    apply keeps_bind; [apply keeps_silent, silent_await_fetch | intros r].
    apply keeps_bind; [apply keeps_silent, silent_await_json | intros data].
    apply keeps_bind; [apply keeps_silent, silent_get | intros listed].
    apply keeps_bind; [apply keeps_silent, silent_iterate | intros projects].
    apply keeps_bind; [apply keeps_silent, silent_collect_files | intros allFiles].
    apply keeps_bind; [apply keeps_silent, silent_sort | intros sorted].
    apply keeps_renderFigmaProjects. }
  specialize (Hkeeps d). rewrite Hd in Hkeeps.
  destruct Hkeeps as [Hs Hg]; [eexists; reflexivity |].
  match goal with
  | |- context [match ?body d with _ => _ end] => destruct (body d) as [[[] | e] d']
  end; cbn [snd] in Hs, Hg.
  - exists d'. split; [reflexivity | exact Hg].
  - rewrite (set_design_projects_returns _ d' Hs).
    eexists. split; [reflexivity | exact Hg].
Qed.

(** A failure of the team request leaves exactly one error block. *)
Lemma fetchRecentFigmaFiles_team_failure (team : fetch_result num)
    (files_request : value num -> fetch_result num)
    (grid : option (list (block num))) (content : list (block num)) :
  team_failure team = true ->
  exists text,
    fetchRecentFigmaFiles fault_message Date_time team files_request
      {| projects_grid := grid; design_projects := Some content |}
    = (returned tt,
       {| projects_grid := grid; design_projects := Some [error_block text] |}).
Proof.
  unfold team_failure, fetchRecentFigmaFiles. cbn [design_projects].
  unfold try_catch. unfold bind at 1. unfold set_design_projects at 1.
  cbn [design_projects projects_grid].
  destruct team as [m | r]; [intros _; eexists; reflexivity |].
  unfold bind at 1. cbn [await_fetch ret]. unfold bind at 1. unfold await_json.
  destruct (response_body r) as [m | v]; [intros _; eexists; reflexivity |].
  cbn [ret].
  destruct v as [| | b | n | s | l | fields];
    try (intros _; eexists; reflexivity).
  unfold bind at 1. cbn [get ret].
  destruct (lookup_field "projects" fields);
    try discriminate; intros _; eexists; reflexivity.
Qed.

End FeedFailures.

(** C3, as amended.  Neither renderer lets a failure out: with its
    container in the page the repository renderer always returns, and
    the design renderer always returns.  The repository renderer turns a
    fetch rejection, a status outside 200-299, a body that is not JSON,
    a payload that is not an array and an array that holds a [null] into
    exactly one inline error block that replaces the loading indicator.
    The design renderer does so for a rejection or a non-JSON body of
    the team request and for a team payload whose [projects] cannot be
    iterated; the HTTP status of the team response makes no difference
    to it, and a file request that is rejected or whose body is not JSON
    is caught where it is made and taken for an empty file list, so that
    no error is shown for it. *)
Theorem feed_failures_stay_inside_the_renderers :
  forall {num : Type} (fault_message : Feeds.engine_fault num -> string)
         (Date_time : Feeds.value num -> option Z)
         (github team : Feeds.fetch_result num)
         (files_request : Feeds.value num -> Feeds.fetch_result num)
         (d : Feeds.dom num)
         (grid : list (Feeds.block num)) (design : list (Feeds.block num))
         (id : Feeds.value num),
    (exists content,
       Feeds.fetchGitHubRepos fault_message github
         {| Feeds.projects_grid := Some grid; Feeds.design_projects := Feeds.design_projects d |}
       = (Feeds.returned tt,
          {| Feeds.projects_grid := Some content;
             Feeds.design_projects := Feeds.design_projects d |})
       /\ (github_failure github = true ->
           exists text, content = [Feeds.error_block text]))
    /\ (exists d',
          Feeds.fetchRecentFigmaFiles fault_message Date_time team files_request d
          = (Feeds.returned tt, d')
          /\ Feeds.projects_grid d' = Feeds.projects_grid d)
    /\ (team_failure team = true ->
        exists text,
          Feeds.fetchRecentFigmaFiles fault_message Date_time team files_request
            {| Feeds.projects_grid := Feeds.projects_grid d;
               Feeds.design_projects := Some design |}
          = (Feeds.returned tt,
             {| Feeds.projects_grid := Feeds.projects_grid d;
                Feeds.design_projects := Some [Feeds.error_block text] |}))
    /\ (forall (s s' : Z) (b : Feeds.body num),
          Feeds.fetchRecentFigmaFiles fault_message Date_time
            (Feeds.resolved {| Feeds.status := s; Feeds.response_body := b |})
            files_request d
          = Feeds.fetchRecentFigmaFiles fault_message Date_time
              (Feeds.resolved {| Feeds.status := s'; Feeds.response_body := b |})
              files_request d)
    /\ (files_failure (files_request id) = true ->
        Feeds.getFigmaProjectFiles fault_message files_request id d
        = (Feeds.returned (Feeds.array []), d)).
Proof.
  intros num fault_message Date_time github team files_request d grid design id.
  split; [apply fetchGitHubRepos_settles |].
  split; [apply fetchRecentFigmaFiles_returns |].
  split; [apply fetchRecentFigmaFiles_team_failure |].
  split; [intros s s' b; reflexivity |].
  apply getFigmaProjectFiles_failed.
Qed.

(** C3 fails as stated: the team request succeeds and lists two
    projects, then every file request is rejected; the design renderer
    replaces the loading indicator by nothing at all, and no error
    message is shown. *)
Lemma design_feed_hides_failed_file_requests :
  Feeds.fetchRecentFigmaFiles engine_text iso_time (Feeds.resolved team_listing)
    files_offline loaded_page
  = (Feeds.returned tt,
     {| Feeds.projects_grid := Some []; Feeds.design_projects := Some [] |}).
Proof. vm_compute. reflexivity. Qed.

(** * Further properties of the scripts *)

(** ** SplitPaneController: what a drag leaves behind *)

Section DragFacts.
Context {num : Type} `{Number num}.

Lemma drag_move_twice (this : SplitPaneController.t num) (w1 w2 : layout num)
    (p : page num) (e1 e2 : pointer num) :
  SplitPaneController.isDesktopViewport w1 = SplitPaneController.isDesktopViewport w2 ->
  SplitPaneController.handleDragMove this w2
    (SplitPaneController.handleDragMove this w1 p e1) e2
  = SplitPaneController.handleDragMove this w2 p e2.
Proof.
  intros Hmode. unfold SplitPaneController.handleDragMove.
  destruct (SplitPaneController.isDragging this); cbn [negb]; [| reflexivity].
  rewrite Hmode. destruct (SplitPaneController.isDesktopViewport w2); reflexivity.
Qed.

Lemma handleDragMove_frame (this : SplitPaneController.t num) (w : layout num)
    (p : page num) (e : pointer num) :
  cursor (SplitPaneController.handleDragMove this w p e) = cursor p
  /\ divider_active (SplitPaneController.handleDragMove this w p e) = divider_active p.
Proof.
  unfold SplitPaneController.handleDragMove.
  destruct (SplitPaneController.isDragging this); cbn [negb]; [| split; reflexivity].
  destruct (SplitPaneController.isDesktopViewport w); split; reflexivity.
Qed.

Lemma document_touchmove_frame (c : TouchBlock.t num) (w : layout num)
    (p : page num) (touch : pointer num) :
  cursor (fst (TouchBlock.document_touchmove c w p touch)) = cursor p
  /\ divider_active (fst (TouchBlock.document_touchmove c w p touch)) = divider_active p.
Proof.
  unfold TouchBlock.document_touchmove.
  destruct (TouchBlock.isDragging c); split; reflexivity.
Qed.

Lemma handleWindowResize_frame (w : layout num) (p : page num) :
  cursor (SplitPaneController.handleWindowResize w p) = cursor p
  /\ divider_active (SplitPaneController.handleWindowResize w p) = divider_active p.
Proof.
  unfold SplitPaneController.handleWindowResize.
  destruct (SplitPaneController.isDesktopViewport w); split; reflexivity.
Qed.

(** What one event does to the drag flags, the cursor and the class of
    the divider. *)
Lemma dispatch_flags (s : Listeners.state num) (w : layout num)
    (ev : Listeners.event num) :
  let s' := fst (Listeners.dispatch s w ev) in
  match ev with
  | Listeners.mousedown Listeners.divider _ =>
      SplitPaneController.isDragging (Listeners.controller s') = true
      /\ resize_cue (cursor (Listeners.dom s')) = true
      /\ Listeners.block s' = Listeners.block s
      /\ divider_active (Listeners.dom s') = divider_active (Listeners.dom s)
  | Listeners.touchstart Listeners.divider _ =>
      SplitPaneController.isDragging (Listeners.controller s') = true
      /\ resize_cue (cursor (Listeners.dom s')) = true
      /\ TouchBlock.isDragging (Listeners.block s') = true
      /\ divider_active (Listeners.dom s') = true
  | Listeners.mouseup =>
      SplitPaneController.isDragging (Listeners.controller s') = false
      /\ cursor (Listeners.dom s') = Some "default"%string
      /\ Listeners.block s' = Listeners.block s
      /\ divider_active (Listeners.dom s') = divider_active (Listeners.dom s)
  | Listeners.touchend =>
      SplitPaneController.isDragging (Listeners.controller s') = false
      /\ cursor (Listeners.dom s') = Some "default"%string
      /\ TouchBlock.isDragging (Listeners.block s') = false
      /\ divider_active (Listeners.dom s') = false
  | _ =>
      Listeners.controller s' = Listeners.controller s
      /\ cursor (Listeners.dom s') = cursor (Listeners.dom s)
      /\ Listeners.block s' = Listeners.block s
      /\ divider_active (Listeners.dom s') = divider_active (Listeners.dom s)
  end.
Proof.
  destruct ev as [[|] e | e | | [|] touch | on touch | |]; cbn.
  - unfold SplitPaneController.getCursorStyle.
    destruct (SplitPaneController.isDesktopViewport w); repeat split.
  - repeat split.
  - destruct (handleDragMove_frame (Listeners.controller s) w (Listeners.dom s) e)
      as [Hc Ha]. repeat split; assumption.
  - repeat split.
  - unfold SplitPaneController.getCursorStyle.
    destruct (SplitPaneController.isDesktopViewport w); repeat split.
  - repeat split.
  - pose proof (document_touchmove_frame (Listeners.block s) w (Listeners.dom s) touch)
      as [Hc Ha].
    destruct (TouchBlock.document_touchmove (Listeners.block s) w (Listeners.dom s) touch)
      as [p d1]. cbn [fst] in Hc, Ha. cbn.
    destruct (handleDragMove_frame (Listeners.controller s) w p touch) as [Hc' Ha'].
    repeat split; congruence.
  - repeat split.
  - destruct (handleWindowResize_frame w (Listeners.dom s)) as [Hc Ha].
    repeat split; assumption.
Qed.

Lemma run_invariant (P : Listeners.state num -> Prop) :
  (forall s w ev, P s -> P (fst (Listeners.dispatch s w ev))) ->
  forall evs s, P s -> P (Listeners.run s evs).
Proof.
  intros Hstep evs. induction evs as [| [w ev] evs IH]; intros s Hs; [exact Hs |].
  cbn [Listeners.run]. apply IH, Hstep, Hs.
Qed.

Lemma cursor_follows_flag (s : Listeners.state num) (w : layout num)
    (ev : Listeners.event num) :
  resize_cue (cursor (Listeners.dom s))
  = SplitPaneController.isDragging (Listeners.controller s) ->
  resize_cue (cursor (Listeners.dom (fst (Listeners.dispatch s w ev))))
  = SplitPaneController.isDragging (Listeners.controller (fst (Listeners.dispatch s w ev))).
Proof.
  intros Hs. pose proof (dispatch_flags s w ev) as Hd. cbv zeta in Hd.
  destruct ev as [[|] e | e | | [|] touch | on touch | |];
    destruct Hd as (Hc & Hk & Hb & Ha); rewrite ?Hc, ?Hk; try reflexivity; exact Hs.
Qed.

Lemma active_follows_flag (s : Listeners.state num) (w : layout num)
    (ev : Listeners.event num) :
  divider_active (Listeners.dom s) = TouchBlock.isDragging (Listeners.block s) ->
  divider_active (Listeners.dom (fst (Listeners.dispatch s w ev)))
  = TouchBlock.isDragging (Listeners.block (fst (Listeners.dispatch s w ev))).
Proof.
  intros Hs. pose proof (dispatch_flags s w ev) as Hd. cbv zeta in Hd.
  destruct ev as [[|] e | e | | [|] touch | on touch | |];
    destruct Hd as (Hc & Hk & Hb & Ha); rewrite ?Hb, ?Ha; try reflexivity; exact Hs.
Qed.

Lemma quiet_dispatch (s : Listeners.state num) (w : layout num)
    (ev : Listeners.event num) :
  idle s -> quiet ev = true ->
  let s' := fst (Listeners.dispatch s w ev) in
  idle s'
  /\ primarySection (Listeners.dom s') = primarySection (Listeners.dom s)
  /\ secondarySection (Listeners.dom s') = secondarySection (Listeners.dom s).
Proof.
  intros [Hc Hb] Hq.
  destruct ev as [[|] e | e | | [|] touch | on touch | |]; try discriminate Hq; cbn.
  - repeat split; assumption.
  - unfold SplitPaneController.handleDragMove. rewrite Hc. repeat split; assumption.
  - repeat split. exact Hb.
  - repeat split; assumption.
  - unfold TouchBlock.document_touchmove. rewrite Hb. cbn.
    unfold SplitPaneController.handleDragMove. rewrite Hc. repeat split; assumption.
  - repeat split.
Qed.

Lemma drag_moves_snoc (this : SplitPaneController.t num) (p : page num)
    (earlier : list (layout num * pointer num)) (m : layout num * pointer num) :
  Forall (fun m' => SplitPaneController.isDesktopViewport (fst m')
                    = SplitPaneController.isDesktopViewport (fst m)) earlier ->
  drag_moves this p (earlier ++ [m])
  = SplitPaneController.handleDragMove this (fst m) p (snd m).
Proof.
  revert p. induction earlier as [| m' earlier IH]; intros p Hmode; [reflexivity |].
  inversion Hmode as [| ? ? Hm' Hrest]; subst.
  change (drag_moves this p ((m' :: earlier) ++ [m]))
    with (drag_moves this (SplitPaneController.handleDragMove this (fst m') p (snd m'))
            (earlier ++ [m])).
  rewrite (IH _ Hrest). apply drag_move_twice. exact Hm'.
Qed.

End DragFacts.

(** X1.  Drag-moves do not accumulate.  After a series of drag-moves
    that all find the viewport on the same side of the 1024 pixel
    breakpoint, the page is what the last of them alone would have made
    of the page before the series: every move writes both sizes anew
    from the pointer position. *)
Theorem drag_moves_keep_only_the_last :
  forall {num : Type} `{Number num} (this : SplitPaneController.t num) (p : page num)
         (earlier : list (layout num * pointer num)) (w : layout num) (e : pointer num),
    Forall (fun m => SplitPaneController.isDesktopViewport (fst m)
                     = SplitPaneController.isDesktopViewport w) earlier ->
    drag_moves this p (earlier ++ [(w, e)])
    = SplitPaneController.handleDragMove this w p e.
Proof.
  intros num N this p earlier w e Hmode.
  apply (drag_moves_snoc this p earlier (w, e)). exact Hmode.
Qed.

(** Three moves across a 1280 pixel wide window. *)
Lemma drag_moves_keep_only_the_last_witness :
  drag_moves (SplitPaneController.set_isDragging SplitPaneController.constructor true)
    initial_page
    ([(desktop_layout, {| clientX := int 300; clientY := int 10 |});
      (desktop_layout, {| clientX := int 900; clientY := int 20 |})]
     ++ [(desktop_layout, {| clientX := int 640; clientY := int 30 |})])
  = SplitPaneController.handleDragMove
      (SplitPaneController.set_isDragging SplitPaneController.constructor true)
      desktop_layout initial_page {| clientX := int 640; clientY := int 30 |}.
Proof.
  apply (drag_moves_keep_only_the_last
           (SplitPaneController.set_isDragging SplitPaneController.constructor true)
           initial_page
           [(desktop_layout, {| clientX := int 300; clientY := int 10 |});
            (desktop_layout, {| clientX := int 900; clientY := int 20 |})]
           desktop_layout {| clientX := int 640; clientY := int 30 |}).
  repeat constructor.
Defined.

(** X2.  The cursor of the body tells whether the controller is
    Dragging: after any sequence of mouse, touch and resize events from
    the state the page loads in, the cursor is one of the two resize
    cues exactly when the drag flag is set. *)
Theorem cursor_is_resize_cue_exactly_while_dragging :
  forall {num : Type} `{Number num} (evs : list (layout num * Listeners.event num)),
    let s := Listeners.run Listeners.initial evs in
    resize_cue (cursor (Listeners.dom s))
    = SplitPaneController.isDragging (Listeners.controller s).
Proof.
  intros num N evs.
  apply (run_invariant
           (fun s => resize_cue (cursor (Listeners.dom s))
                     = SplitPaneController.isDragging (Listeners.controller s))).
  - intros s w ev. apply cursor_follows_flag.
  - reflexivity.
Qed.

(** X3.  The divider carries the class [active] exactly while the drag
    flag of the stand-alone touch handlers is set, after any sequence of
    events from the state the page loads in. *)
Theorem divider_is_active_exactly_while_touch_dragging :
  forall {num : Type} `{Number num} (evs : list (layout num * Listeners.event num)),
    let s := Listeners.run Listeners.initial evs in
    divider_active (Listeners.dom s) = TouchBlock.isDragging (Listeners.block s).
Proof.
  intros num N evs.
  apply (run_invariant
           (fun s => divider_active (Listeners.dom s)
                     = TouchBlock.isDragging (Listeners.block s))).
  - intros s w ev. apply active_follows_flag.
  - reflexivity.
Qed.

(** X4.  Nothing is resized before the divider is pressed: from a state
    in which neither drag flag is set, events other than a mouse-down or
    touch-start on the divider and a window resize leave the inline
    styles of both sections as they are, and leave both flags unset. *)
Theorem sections_untouched_until_divider_pressed :
  forall {num : Type} `{Number num} (s : Listeners.state num)
         (evs : list (layout num * Listeners.event num)),
    idle s ->
    Forall (fun ev => quiet (snd ev) = true) evs ->
    idle (Listeners.run s evs)
    /\ primarySection (Listeners.dom (Listeners.run s evs))
       = primarySection (Listeners.dom s)
    /\ secondarySection (Listeners.dom (Listeners.run s evs))
       = secondarySection (Listeners.dom s).
Proof.
  intros num N s evs. revert s.
  induction evs as [| [w ev] evs IH]; intros s Hidle Hquiet;
    [split; [exact Hidle | split; reflexivity] |].
  inversion Hquiet as [| ? ? Hq Hrest]; subst. cbn [snd] in Hq.
  destruct (quiet_dispatch s w ev Hidle Hq) as (Hidle' & Hp & Hs).
  cbn [Listeners.run].
  destruct (IH _ Hidle' Hrest) as (Hidle'' & Hp' & Hs').
  split; [exact Hidle'' |]. split; congruence.
Qed.

(** A mouse wandering over the page, a click off the divider, a tap. *)
Lemma sections_untouched_until_divider_pressed_witness :
  let evs :=
    [(phone, Listeners.mousemove {| clientX := int 10; clientY := int 20 |});
     (phone, Listeners.mousedown Listeners.elsewhere {| clientX := int 10; clientY := int 20 |});
     (phone, Listeners.mouseup);
     (phone, Listeners.touchstart Listeners.elsewhere {| clientX := int 50; clientY := int 60 |});
     (phone, Listeners.touchmove Listeners.elsewhere {| clientX := int 50; clientY := int 90 |});
     (phone, Listeners.touchend)] in
  idle (Listeners.run Listeners.initial evs)
  /\ primarySection (Listeners.dom (Listeners.run Listeners.initial evs))
     = primarySection (Listeners.dom Listeners.initial)
  /\ secondarySection (Listeners.dom (Listeners.run Listeners.initial evs))
     = secondarySection (Listeners.dom Listeners.initial).
Proof.
  apply (sections_untouched_until_divider_pressed Listeners.initial);
    [split; reflexivity | repeat constructor].
Defined.

(** X5.  Crossing the breakpoint.  A window resize that finds the
    viewport narrower than 1024 pixels gives both sections the same
    inline style (full width, 50vh high, scrolling on their own),
    whatever a drag or an earlier resize had written.  A resize that
    finds it at least 1024 pixels wide sets both heights to 100% and
    touches nothing else: coming from the narrow layout, both sections
    keep the inline width of 100% and their overflow settings.  A
    narrow resize after a wide one gives the narrow layout again. *)
Theorem window_resize_across_the_breakpoint :
  forall {num : Type} `{Number num} (narrow wide : layout num) (p : page num),
    SplitPaneController.isDesktopViewport narrow = false ->
    SplitPaneController.isDesktopViewport wide = true ->
    let mobile := SplitPaneController.handleWindowResize narrow p in
    let desktop := SplitPaneController.handleWindowResize wide p in
    let back := SplitPaneController.handleWindowResize wide mobile in
    let full_height (s : style num) :=
      {| width := width s; height := Some (percent (int 100));
         overflowY := overflowY s;
         webkitOverflowScrolling := webkitOverflowScrolling s |} in
    primarySection mobile = half_viewport_style
    /\ secondarySection mobile = half_viewport_style
    /\ primarySection desktop = full_height (primarySection p)
    /\ secondarySection desktop = full_height (secondarySection p)
    /\ primarySection back = full_height half_viewport_style
    /\ secondarySection back = full_height half_viewport_style
    /\ SplitPaneController.handleWindowResize narrow desktop = mobile.
Proof.
  intros num N narrow wide p Hnarrow Hwide. cbv zeta.
  unfold SplitPaneController.handleWindowResize. rewrite Hnarrow, Hwide.
  repeat split.
Qed.

(** The phone and the desktop window, the page as it loads. *)
Lemma window_resize_across_the_breakpoint_witness :
  let mobile := SplitPaneController.handleWindowResize tall_viewport initial_page in
  let desktop := SplitPaneController.handleWindowResize desktop_layout initial_page in
  let back := SplitPaneController.handleWindowResize desktop_layout mobile in
  let full_height (s : style xnum) :=
    {| width := width s; height := Some (percent (int 100));
       overflowY := overflowY s;
       webkitOverflowScrolling := webkitOverflowScrolling s |} in
  primarySection mobile = half_viewport_style
  /\ secondarySection mobile = half_viewport_style
  /\ primarySection desktop = full_height (primarySection initial_page)
  /\ secondarySection desktop = full_height (secondarySection initial_page)
  /\ primarySection back = full_height half_viewport_style
  /\ secondarySection back = full_height half_viewport_style
  /\ SplitPaneController.handleWindowResize tall_viewport desktop = mobile.
Proof.
  apply (window_resize_across_the_breakpoint tall_viewport desktop_layout initial_page);
    reflexivity.
Defined.

(** X6.  The split follows the pointer.  In exact arithmetic, over a
    container of positive extent [W] a pointer at coordinate [x] gives
    the bounded percentage 20 when [x] is at most a fifth of [W], 80
    when it is at least four fifths of [W], and [100 * x / W] itself in
    between. *)
Theorem bounded_percentage_follows_the_pointer :
  forall (this : SplitPaneController.t xnum) (x W : Q),
    SplitPaneController.MIN_SIZE_PERCENTAGE this = int 20 ->
    SplitPaneController.MAX_SIZE_PERCENTAGE this = int 80 ->
    (0 < W)%Q ->
    exists b : Q,
      SplitPaneController.getBoundedPercentage this (XFin x / XFin W * int 100)%js = XFin b
      /\ ((100 * x <= 20 * W)%Q -> (b == 20)%Q)
      /\ ((20 * W <= 100 * x)%Q /\ (100 * x <= 80 * W)%Q -> (b == x / W * 100)%Q)
      /\ ((80 * W <= 100 * x)%Q -> (b == 80)%Q).
Proof.
  intros this x W Hmin Hmax HW.
  unfold SplitPaneController.getBoundedPercentage. rewrite Hmin, Hmax.
  assert (Hz : Exact.is_zero W = false).
  { unfold Exact.is_zero. apply Z.eqb_neq. destruct W as [n d]. cbn.
    unfold Qlt in HW. cbn in HW. lia. }
  assert (Ediv : (XFin x / XFin W * int 100)%js = XFin (x / W * 100)).
  { cbn. rewrite Hz. reflexivity. }
  rewrite Ediv.
  change (@Math_max xnum exact) with Exact.max.
  change (@Math_min xnum exact) with Exact.min.
  change (int 20 : xnum) with (XFin 20). change (int 80 : xnum) with (XFin 80).
  destruct (exact_min_fin 80 (x / W * 100)) as (m & Em & Hm1 & Hm2 & Hm3). rewrite Em.
  destruct (exact_max_fin 20 m) as (b & Eb & Hb1 & Hb2 & Hb3). rewrite Eb.
  exists b. split; [reflexivity |].
  assert (Hq : (x / W * 100 * W == 100 * x)%Q) by (field; lra).
  assert (Hle : forall k : Q, (k * W <= 100 * x)%Q <-> (k <= x / W * 100)%Q).
  { intros k. rewrite <- Hq. split; intros Hk.
    - apply Qmult_le_r in Hk; [exact Hk | exact HW].
    - apply Qmult_le_r; [exact HW | exact Hk]. }
  assert (Hge : forall k : Q, (100 * x <= k * W)%Q <-> (x / W * 100 <= k)%Q).
  { intros k. rewrite <- Hq. split; intros Hk.
    - apply Qmult_le_r in Hk; [exact Hk | exact HW].
    - apply Qmult_le_r; [exact HW | exact Hk]. }
  split; [| split].
  - intros Hlow. apply Hge in Hlow.
    destruct Hb3 as [E | E]; destruct Hm3 as [E' | E']; lra.
  - intros [Hlow Hhigh]. apply Hle in Hlow. apply Hge in Hhigh.
    destruct Hb3 as [E | E]; destruct Hm3 as [E' | E']; lra.
  - intros Hhigh. apply Hle in Hhigh.
    destruct Hb3 as [E | E]; destruct Hm3 as [E' | E']; lra.
Qed.

(** A pointer at 320 of 1280 pixels: 25 percent. *)
Lemma bounded_percentage_follows_the_pointer_witness :
  exists b : Q,
    SplitPaneController.getBoundedPercentage SplitPaneController.constructor
      (XFin 320 / XFin 1280 * int 100)%js = XFin b
    /\ ((100 * 320 <= 20 * 1280)%Q -> (b == 20)%Q)
    /\ ((20 * 1280 <= 100 * 320)%Q /\ (100 * 320 <= 80 * 1280)%Q -> (b == 320 / 1280 * 100)%Q)
    /\ ((80 * 1280 <= 100 * 320)%Q -> (b == 80)%Q).
Proof.
  apply (bounded_percentage_follows_the_pointer SplitPaneController.constructor 320 1280);
    [reflexivity | reflexivity | lra].
Defined.

(** X7.  A container without extent.  In the doubles the script
    computes with, while the controller is Dragging, a finite pointer
    coordinate other than zero over a container extent of zero makes an
    infinite percentage, which the bounds bring back: a positive
    coordinate over +0 writes 80 to the primary section and 20 to the
    secondary one, a negative coordinate 20 and 80 (the other way round
    over -0). *)
Theorem zero_extent_pins_the_split :
  forall (this : SplitPaneController.t spec_float) (w : layout spec_float)
         (p : page spec_float) (e : pointer spec_float)
         (s : bool) (m : positive) (ex : Z) (s0 : bool),
    SplitPaneController.isDragging this = true ->
    SplitPaneController.MIN_SIZE_PERCENTAGE this = int 20 ->
    SplitPaneController.MAX_SIZE_PERCENTAGE this = int 80 ->
    let desktop := SplitPaneController.isDesktopViewport w in
    (if desktop then clientX e else clientY e) = S754_finite s m ex ->
    (if desktop then container_offsetWidth w else container_offsetHeight w)
    = S754_zero s0 ->
    let p' := SplitPaneController.handleDragMove this w p e in
    let b : spec_float := if xorb s s0 then int 20 else int 80 in
    let c : spec_float := if xorb s s0 then int 80 else int 20 in
    if desktop
    then width (primarySection p') = Some (percent b)
         /\ width (secondarySection p') = Some (percent c)
    else height (primarySection p') = Some (vh b)
         /\ height (secondarySection p') = Some (vh c).
Proof.
  intros this w p e s m ex s0 Hdrag Hmin Hmax desktop Hpos Hext. cbv zeta.
  unfold SplitPaneController.handleDragMove. rewrite Hdrag. cbn [negb].
  subst desktop. destruct (SplitPaneController.isDesktopViewport w).
  - unfold SplitPaneController.handleHorizontalResize,
      SplitPaneController.getBoundedPercentage.
    rewrite Hmin, Hmax, Hpos, Hext. cbn [primarySection secondarySection set_primary
      set_secondary width set_width].
    destruct s, s0; vm_compute; split; reflexivity.
  - unfold SplitPaneController.handleVerticalResize,
      SplitPaneController.getBoundedPercentage.
    rewrite Hmin, Hmax, Hpos, Hext. cbn [primarySection secondarySection set_primary
      set_secondary height set_height].
    destruct s, s0; vm_compute; split; reflexivity.
Qed.

(** The pointer 120 pixels down, the container collapsed to no height. *)
Lemma zero_extent_pins_the_split_witness :
  let p' := SplitPaneController.handleDragMove
              (SplitPaneController.set_isDragging SplitPaneController.constructor true)
              collapsed_layout initial_page {| clientX := int 10; clientY := int 120 |} in
  height (primarySection p') = Some (vh (int 80))
  /\ height (secondarySection p') = Some (vh (int 20)).
Proof.
  apply (zero_extent_pins_the_split
           (SplitPaneController.set_isDragging SplitPaneController.constructor true)
           collapsed_layout initial_page {| clientX := int 10; clientY := int 120 |}
           false 8444249301319680 (-46) false);
    reflexivity.
Defined.



(** X9.  Two handlers, one touch-move.  When both drag flags are set,
    as after a touch-start on the divider, a touch-move runs the
    stand-alone handler and then the controller's.  On a viewport
    narrower than 1024 pixels both write the heights, and what stays is
    the controller's pair in vh; the pixel heights are overwritten.  On
    a wider viewport the controller writes the widths, and the pixel
    heights of the stand-alone handler stay beside them. *)
Theorem touch_move_runs_both_handlers :
  forall {num : Type} `{Number num} (s : Listeners.state num) (w : layout num)
         (on : Listeners.target) (touch : pointer num),
    SplitPaneController.isDragging (Listeners.controller s) = true ->
    TouchBlock.isDragging (Listeners.block s) = true ->
    let p' := Listeners.dom (fst (Listeners.dispatch s w (Listeners.touchmove on touch))) in
    let h := TouchBlock.newHeight (Listeners.block s) w touch in
    if SplitPaneController.isDesktopViewport w then
      let b := SplitPaneController.getBoundedPercentage (Listeners.controller s)
                 (clientX touch / container_offsetWidth w * int 100)%js in
      width (primarySection p') = Some (percent b)
      /\ width (secondarySection p') = Some (percent (int 100 - b)%js)
      /\ height (primarySection p') = Some (px h)
      /\ height (secondarySection p') = Some (px (innerHeight w - h)%js)
    else
      let b := SplitPaneController.getBoundedPercentage (Listeners.controller s)
                 (clientY touch / container_offsetHeight w * int 100)%js in
      height (primarySection p') = Some (vh b)
      /\ height (secondarySection p') = Some (vh (int 100 - b)%js)
      /\ width (primarySection p') = width (primarySection (Listeners.dom s))
      /\ width (secondarySection p') = width (secondarySection (Listeners.dom s)).
Proof.
  intros num N s w on touch Hc Hb. cbv zeta. cbn.
  unfold TouchBlock.document_touchmove. rewrite Hb. cbn.
  unfold SplitPaneController.handleDragMove. rewrite Hc. cbn [negb].
  destruct (SplitPaneController.isDesktopViewport w); repeat split.
Qed.

(** A finger down on the divider of the phone, then moved. *)
Lemma touch_move_runs_both_handlers_witness :
  let s := fst (Listeners.dispatch Listeners.initial phone
                  (Listeners.touchstart Listeners.divider
                     {| clientX := int 195; clientY := int 422 |})) in
  let touch := {| clientX := int 195; clientY := int 500 |} in
  let p' := Listeners.dom (fst (Listeners.dispatch s phone
                                  (Listeners.touchmove Listeners.divider touch))) in
  let b := SplitPaneController.getBoundedPercentage (Listeners.controller s)
             (clientY touch / container_offsetHeight phone * int 100)%js in
  height (primarySection p') = Some (vh b)
  /\ height (secondarySection p') = Some (vh (int 100 - b)%js)
  /\ width (primarySection p') = width (primarySection (Listeners.dom s))
  /\ width (secondarySection p') = width (secondarySection (Listeners.dom s)).
Proof.
  exact (touch_move_runs_both_handlers
           (fst (Listeners.dispatch Listeners.initial phone
                   (Listeners.touchstart Listeners.divider
                      {| clientX := int 195; clientY := int 422 |})))
           phone Listeners.divider {| clientX := int 195; clientY := int 500 |}
           eq_refl eq_refl).
Defined.

(** ** The bounds, in the doubles the script computes with *)

(** X10.  The percentage bounds hold in doubles.  In IEEE double
    arithmetic, while the controller is Dragging, a drag-move whose raw
    percentage is not NaN writes to the primary section a number that is
    at least 20 and at most 80, as width percent on a viewport at least
    1024 pixels wide and as height vh on a narrower one, and to the
    secondary section 100 minus that number. *)
Theorem drag_move_bounded_in_doubles :
  forall (this : SplitPaneController.t spec_float) (w : layout spec_float)
         (p : page spec_float) (e : pointer spec_float),
    SplitPaneController.isDragging this = true ->
    SplitPaneController.MIN_SIZE_PERCENTAGE this = int 20 ->
    SplitPaneController.MAX_SIZE_PERCENTAGE this = int 80 ->
    let desktop := SplitPaneController.isDesktopViewport w in
    let position := if desktop then clientX e else clientY e in
    let extent := if desktop then container_offsetWidth w else container_offsetHeight w in
    (position / extent * int 100)%js <> S754_nan ->
    exists b : spec_float,
      b <> S754_nan
      /\ (int 20 <=? b)%js = true
      /\ (b <=? int 80)%js = true
      /\ let p' := SplitPaneController.handleDragMove this w p e in
         if desktop
         then width (primarySection p') = Some (percent b)
              /\ width (secondarySection p') = Some (percent (int 100 - b)%js)
         else height (primarySection p') = Some (vh b)
              /\ height (secondarySection p') = Some (vh (int 100 - b)%js).
Proof.
  intros this w p e Hdrag Hmin Hmax desktop position extent Hnan.
  exists (SplitPaneController.getBoundedPercentage this (position / extent * int 100)%js).
  destruct (bounded_percentage_in_doubles this _ Hmin Hmax Hnan) as (Hb & Hlo & Hhi).
  split; [exact Hb |]. split; [exact Hlo |]. split; [exact Hhi |].
  cbv zeta. unfold SplitPaneController.handleDragMove. rewrite Hdrag. cbn [negb].
  subst position extent desktop.
  destruct (SplitPaneController.isDesktopViewport w); split; reflexivity.
Qed.

(** A drag to 500 of the 844 pixels of the phone. *)
Lemma drag_move_bounded_in_doubles_witness :
  exists b : spec_float,
    b <> S754_nan
    /\ (int 20 <=? b)%js = true
    /\ (b <=? int 80)%js = true
    /\ let p' := SplitPaneController.handleDragMove
                   (SplitPaneController.set_isDragging SplitPaneController.constructor true)
                   phone initial_page {| clientX := int 100; clientY := int 500 |} in
       height (primarySection p') = Some (vh b)
       /\ height (secondarySection p') = Some (vh (int 100 - b)%js).
Proof.
  refine (drag_move_bounded_in_doubles
            (SplitPaneController.set_isDragging SplitPaneController.constructor true)
            phone initial_page {| clientX := int 100; clientY := int 500 |}
            eq_refl eq_refl eq_refl _).
  vm_compute. discriminate.
Defined.

(** X11.  The pixel bounds hold in doubles.  In IEEE double arithmetic,
    a touch-move of the stand-alone handler while its drag flag is set,
    with coordinates and viewport height for which neither
    [startHeight + deltaY] nor [innerHeight - 100] is NaN, writes to the
    primary panel a pixel height that is at least 100, and at most
    [innerHeight - 100] whenever that is itself at least 100; the
    secondary panel gets [innerHeight] minus that height. *)
Theorem touch_block_move_bounded_in_doubles :
  forall (c : TouchBlock.t spec_float) (w : layout spec_float) (p : page spec_float)
         (touch : pointer spec_float),
    TouchBlock.isDragging c = true ->
    (TouchBlock.startHeight c + (clientY touch - TouchBlock.startY c))%js <> S754_nan ->
    (innerHeight w - int 100)%js <> S754_nan ->
    exists h : spec_float,
      (int 100 <=? h)%js = true
      /\ ((int 100 <=? innerHeight w - int 100)%js = true ->
          (h <=? innerHeight w - int 100)%js = true)
      /\ let p' := fst (TouchBlock.document_touchmove c w p touch) in
         height (primarySection p') = Some (px h)
         /\ height (secondarySection p') = Some (px (innerHeight w - h)%js).
Proof.
  intros c w p touch Hdrag Hv Hu.
  exists (TouchBlock.newHeight c w touch).
  destruct (new_height_in_doubles c w touch Hv Hu) as [Hlo Hhi].
  split; [exact Hlo |]. split; [exact Hhi |].
  cbv zeta. unfold TouchBlock.document_touchmove. rewrite Hdrag. split; reflexivity.
Qed.

(** A finger that went down at 422 on the phone, now at 603.5. *)
Lemma touch_block_move_bounded_in_doubles_witness :
  exists h : spec_float,
    (int 100 <=? h)%js = true
    /\ ((int 100 <=? innerHeight phone - int 100)%js = true ->
        (h <=? innerHeight phone - int 100)%js = true)
    /\ let p' := fst (TouchBlock.document_touchmove
                        {| TouchBlock.isDragging := true;
                           TouchBlock.startY := int 422;
                           TouchBlock.startHeight := int 422 |}
                        phone initial_page
                        {| clientX := int 200; clientY := lit 6035 10 |}) in
       height (primarySection p') = Some (px h)
       /\ height (secondarySection p') = Some (px (innerHeight phone - h)%js).
Proof.
  apply (touch_block_move_bounded_in_doubles
           {| TouchBlock.isDragging := true;
              TouchBlock.startY := int 422;
              TouchBlock.startHeight := int 422 |}
           phone initial_page {| clientX := int 200; clientY := lit 6035 10 |});
    [reflexivity | vm_compute; discriminate | vm_compute; discriminate].
Defined.

(** ** The earlier version: a resize after a drag *)

(** X12.  What a resize does to a vertical drag, then and now.  On a
    viewport narrower than 1024 pixels, a drag-move writes the two
    heights in vh.  A window resize that follows leaves them in place
    in the earlier version of the script, whose reset sets the widths
    only, and replaces both by 50vh in main.js. *)
Theorem resize_after_vertical_drag_in_both_versions :
  forall {num : Type} `{Number num} (this : SplitPaneController.t num)
         (w : layout num) (p : page num) (e : pointer num),
    SplitPaneController.isDragging this = true ->
    SplitPaneController.isDesktopViewport w = false ->
    let dragged := SplitPaneController.handleDragMove this w p e in
    let b := SplitPaneController.getBoundedPercentage this
               (clientY e / container_offsetHeight w * int 100)%js in
    let earlier := EarlierVersion.handleWindowResize w dragged in
    let now := SplitPaneController.handleWindowResize w dragged in
    height (primarySection earlier) = Some (vh b)
    /\ height (secondarySection earlier) = Some (vh (int 100 - b)%js)
    /\ width (primarySection earlier) = Some (percent (int 100))
    /\ width (secondarySection earlier) = Some (percent (int 100))
    /\ height (primarySection now) = Some (vh (int 50))
    /\ height (secondarySection now) = Some (vh (int 50))
    /\ width (primarySection now) = Some (percent (int 100))
    /\ width (secondarySection now) = Some (percent (int 100)).
Proof.
  intros num N this w p e Hdrag Hnarrow. cbv zeta.
  unfold EarlierVersion.handleWindowResize, SplitPaneController.handleWindowResize,
    SplitPaneController.handleDragMove.
  rewrite Hdrag, Hnarrow. cbn [negb]. repeat split.
Qed.

(** A drag to 500 of the 844 pixels of the phone. *)
Lemma resize_after_vertical_drag_in_both_versions_witness :
  let this := SplitPaneController.set_isDragging SplitPaneController.constructor true in
  let e := {| clientX := int 100; clientY := int 500 |} in
  let dragged := SplitPaneController.handleDragMove this tall_viewport initial_page e in
  let b := SplitPaneController.getBoundedPercentage this
             (clientY e / container_offsetHeight tall_viewport * int 100)%js in
  let earlier := EarlierVersion.handleWindowResize tall_viewport dragged in
  let now := SplitPaneController.handleWindowResize tall_viewport dragged in
  height (primarySection earlier) = Some (vh b)
  /\ height (secondarySection earlier) = Some (vh (int 100 - b)%js)
  /\ width (primarySection earlier) = Some (percent (int 100))
  /\ width (secondarySection earlier) = Some (percent (int 100))
  /\ height (primarySection now) = Some (vh (int 50))
  /\ height (secondarySection now) = Some (vh (int 50))
  /\ width (primarySection now) = Some (percent (int 100))
  /\ width (secondarySection now) = Some (percent (int 100)).
Proof.
  exact (resize_after_vertical_drag_in_both_versions
           (SplitPaneController.set_isDragging SplitPaneController.constructor true)
           tall_viewport initial_page {| clientX := int 100; clientY := int 500 |}
           eq_refl eq_refl).
Defined.

(** ** CanvasAnimationController: what a run keeps *)

Section CanvasRunFacts.
Import CanvasAnimationController.
Context {num : Type} `{Number num}.
Variable Math_hypot : num -> num -> num.

Lemma placement_fade_in (ws : list (word num)) :
  map placement (map fade_in ws) = map placement ws.
Proof. rewrite map_map. reflexivity. Qed.

(** [addText] leaves the labels alone or appends one. *)
Lemma addText_appends (this : t num) (x0 y0 r1 r2 : num) :
  exists added,
    renderedWords (addText Math_hypot this x0 y0 r1 r2) = renderedWords this ++ added
    /\ (length added <= 1)%nat
    /\ dots (addText Math_hypot this x0 y0 r1 r2) = dots this.
Proof.
  unfold addText.
  destruct (Math_hypot _ _ <? int 150)%js;
    [exists []; rewrite app_nil_r; repeat split; cbn; lia |].
  destruct (length _ =? 0)%nat;
    [exists []; rewrite app_nil_r; repeat split; cbn; lia |].
  eexists. split; [reflexivity |]. split; [cbn; lia | reflexivity].
Qed.

Lemma step_appends (this : t num) (ev : event num) :
  exists added,
    map placement (renderedWords (step Math_hypot this ev))
    = map placement (renderedWords this) ++ added
    /\ (length added <= if is_frame ev then 1 else 0)%nat
    /\ map appearance (dots (step Math_hypot this ev)) = map appearance (dots this).
Proof.
  destruct ev as [e | r]; cbn [step is_frame].
  - exists []. rewrite app_nil_r. repeat split. cbn. lia.
  - unfold animateFrame, handleWordGeneration.
    cbn [drawWords renderedWords dots]. rewrite placement_fade_in.
    assert (Hdots : map appearance (dots (updateDots this)) = map appearance (dots this)).
    { cbn. rewrite map_map. reflexivity. }
    destruct (_ && _)%bool.
    + destruct (addText_appends (updateDots this)
                  (x (mousePosition (updateDots this)) + int 30)%js
                  (y (mousePosition (updateDots this)))
                  (random_index r) (random_rotation r)) as (added & E & Hlen & Ed).
      rewrite E, Ed, Hdots. exists (map placement added).
      rewrite map_app, length_map. repeat split. exact Hlen.
    + rewrite Hdots. exists []. rewrite app_nil_r. repeat split. cbn. lia.
Qed.

Lemma run_appends (evs : list (event num)) (this : t num) :
  exists added,
    map placement (renderedWords (run Math_hypot this evs))
    = map placement (renderedWords this) ++ added
    /\ (length added <= length (List.filter is_frame evs))%nat
    /\ map appearance (dots (run Math_hypot this evs)) = map appearance (dots this).
Proof.
  revert this. induction evs as [| ev evs IH]; intros this.
  - exists []. rewrite app_nil_r. repeat split. cbn. lia.
  - destruct (step_appends this ev) as (added & E & Hlen & Ed).
    destruct (IH (step Math_hypot this ev)) as (added' & E' & Hlen' & Ed').
    exists (added ++ added'). cbn [run fold_left] in *. unfold run in *.
    rewrite E', E, Ed', Ed, <- app_assoc. repeat split.
    rewrite length_app. cbn [List.filter]. destruct (is_frame ev); cbn [length]; lia.
Qed.

End CanvasRunFacts.

(** X13.  Labels stay.  Whatever state the animation is in and whatever
    events follow, the labels on the canvas keep their term, position
    and rotation and their order, none is removed, and at most one new
    label is appended per frame. *)
Theorem labels_are_only_ever_appended :
  forall {num : Type} `{Number num} (Math_hypot : num -> num -> num)
         (this : CanvasAnimationController.t num)
         (evs : list (CanvasAnimationController.event num)),
    exists added,
      map placement
        (CanvasAnimationController.renderedWords
           (CanvasAnimationController.run Math_hypot this evs))
      = map placement (CanvasAnimationController.renderedWords this) ++ added
      /\ (length added <= length (List.filter is_frame evs))%nat.
Proof.
  intros num N Math_hypot this evs.
  destruct (run_appends Math_hypot evs this) as (added & E & Hlen & _).
  exists added. split; assumption.
Qed.

(** X14.  Five dots, for good.  After any sequence of mouse moves and
    frames there are five trailing dots, and each has the scale, the
    colour and the speed [createDots] gave it; only positions change. *)
Theorem dots_keep_number_and_appearance :
  forall {num : Type} `{Number num} (Math_hypot : num -> num -> num)
         (evs : list (CanvasAnimationController.event num)),
    let st := CanvasAnimationController.run Math_hypot
                CanvasAnimationController.constructor evs in
    length (CanvasAnimationController.dots st) = 5%nat
    /\ map appearance (CanvasAnimationController.dots st)
       = map (fun i => appearance
                         (CanvasAnimationController.new_dot
                            {| CanvasAnimationController.x := int 0;
                               CanvasAnimationController.y := int 0 |} i))
           [0; 1; 2; 3; 4]%nat.
Proof.
  intros num N Math_hypot evs st.
  destruct (run_appends Math_hypot evs CanvasAnimationController.constructor)
    as (_ & _ & _ & Hdots).
  fold st in Hdots.
  assert (Hlen : length (map appearance (CanvasAnimationController.dots st)) = 5%nat)
    by (rewrite Hdots; reflexivity).
  rewrite length_map in Hlen. split; [exact Hlen |].
  rewrite Hdots. reflexivity.
Qed.

(** ** CanvasAnimationController: easing and fading, frame after frame *)

Lemma updateDot_exact_offsets (mouse : CanvasAnimationController.point xnum)
    (d : CanvasAnimationController.dot xnum) (mx my dx dy s : Q) :
  CanvasAnimationController.x mouse = XFin mx ->
  CanvasAnimationController.y mouse = XFin my ->
  CanvasAnimationController.dot_x d = XFin dx ->
  CanvasAnimationController.dot_y d = XFin dy ->
  CanvasAnimationController.speed d = XFin s ->
  exists dx' dy' : Q,
    CanvasAnimationController.dot_x (CanvasAnimationController.updateDot mouse d) = XFin dx'
    /\ CanvasAnimationController.dot_y (CanvasAnimationController.updateDot mouse d) = XFin dy'
    /\ CanvasAnimationController.speed (CanvasAnimationController.updateDot mouse d) = XFin s
    /\ (mx - dx' == (1 - s) * (mx - dx))%Q
    /\ (my - dy' == (1 - s) * (my - dy))%Q.
Proof.
  intros Hmx Hmy Hdx Hdy Hs.
  exists (dx + (mx + - dx) * s)%Q, (dy + (my + - dy) * s)%Q.
  unfold CanvasAnimationController.updateDot. cbn.
  rewrite Hmx, Hmy, Hdx, Hdy, Hs. cbn.
  split; [reflexivity |]. split; [reflexivity |]. split; [reflexivity |].
  split; ring.
Qed.

Lemma updateDot_iter_exact (mouse : CanvasAnimationController.point xnum)
    (d : CanvasAnimationController.dot xnum) (mx my dx dy s : Q) (n : nat) :
  CanvasAnimationController.x mouse = XFin mx ->
  CanvasAnimationController.y mouse = XFin my ->
  CanvasAnimationController.dot_x d = XFin dx ->
  CanvasAnimationController.dot_y d = XFin dy ->
  CanvasAnimationController.speed d = XFin s ->
  exists dx' dy' : Q,
    CanvasAnimationController.dot_x
      (Nat.iter n (CanvasAnimationController.updateDot mouse) d) = XFin dx'
    /\ CanvasAnimationController.dot_y
         (Nat.iter n (CanvasAnimationController.updateDot mouse) d) = XFin dy'
    /\ CanvasAnimationController.speed
         (Nat.iter n (CanvasAnimationController.updateDot mouse) d) = XFin s
    /\ (mx - dx' == (1 - s) ^ Z.of_nat n * (mx - dx))%Q
    /\ (my - dy' == (1 - s) ^ Z.of_nat n * (my - dy))%Q.
Proof.
  intros Hmx Hmy Hdx Hdy Hs. induction n as [| n IH].
  - exists dx, dy. cbn [Nat.iter].
    change ((1 - s) ^ Z.of_nat 0)%Q with 1%Q.
    repeat split; try assumption; ring.
  - destruct IH as (ax & ay & Hax & Hay & Has & Ex & Ey).
    destruct (updateDot_exact_offsets mouse _ mx my ax ay s Hmx Hmy Hax Hay Has)
      as (bx & b_y & Hbx & Hby & Hbs & Fx & Fy).
    exists bx, b_y. cbn [Nat.iter].
    split; [exact Hbx |]. split; [exact Hby |]. split; [exact Hbs |].
    assert (Hpow : ((1 - s) ^ Z.of_nat (S n) == (1 - s) * (1 - s) ^ Z.of_nat n)%Q).
    { rewrite Nat2Z.inj_succ. unfold Z.succ.
      rewrite Qpower_plus' by lia. rewrite Qpower_1_r. ring. }
    split; [rewrite Fx, Ex, Hpow; ring | rewrite Fy, Ey, Hpow; ring].
Qed.


(** X15.  Easing, in closed form.  In exact arithmetic, [n] updates of
    a dot towards a pointer that stays where it is leave the dot at the
    offset it started with times [(1 - speed)^n], in both coordinates;
    in particular a dot that has reached the pointer stays on it. *)
Theorem dot_offset_after_n_updates :
  forall (mouse : CanvasAnimationController.point xnum)
         (d : CanvasAnimationController.dot xnum) (mx my dx dy s : Q) (n : nat),
    CanvasAnimationController.x mouse = XFin mx ->
    CanvasAnimationController.y mouse = XFin my ->
    CanvasAnimationController.dot_x d = XFin dx ->
    CanvasAnimationController.dot_y d = XFin dy ->
    CanvasAnimationController.speed d = XFin s ->
    let d' := Nat.iter n (CanvasAnimationController.updateDot mouse) d in
    exists dx' dy' : Q,
      CanvasAnimationController.dot_x d' = XFin dx'
      /\ CanvasAnimationController.dot_y d' = XFin dy'
      /\ (mx - dx' == (1 - s) ^ Z.of_nat n * (mx - dx))%Q
      /\ (my - dy' == (1 - s) ^ Z.of_nat n * (my - dy))%Q.
Proof.
  intros mouse d mx my dx dy s n Hmx Hmy Hdx Hdy Hs. cbv zeta.
  destruct (updateDot_iter_exact mouse d mx my dx dy s n Hmx Hmy Hdx Hdy Hs)
    as (ax & ay & Hax & Hay & _ & Ex & Ey).
  exists ax, ay. repeat split; assumption.
Qed.

(** The first dot after three frames, the pointer resting at (100, 50):
    the offsets are down to 0.729 of what they were. *)
Lemma dot_offset_after_n_updates_witness :
  exists dx' dy' : Q,
    CanvasAnimationController.dot_x
      (Nat.iter 3 (CanvasAnimationController.updateDot exact_pointer) exact_first_dot)
    = XFin dx'
    /\ CanvasAnimationController.dot_y
         (Nat.iter 3 (CanvasAnimationController.updateDot exact_pointer) exact_first_dot)
       = XFin dy'
    /\ (100 - dx' == (1 - (100 # 1000)) ^ Z.of_nat 3 * (100 - 0))%Q
    /\ (50 - dy' == (1 - (100 # 1000)) ^ Z.of_nat 3 * (50 - 0))%Q.
Proof.
  apply (dot_offset_after_n_updates exact_pointer exact_first_dot
           100 50 0 0 (100 # 1000) 3); reflexivity.
Defined.

(** [(1 - s)^n * (1 + n * s) <= 1]: the offsets shrink at least like
    [1 / (1 + n * s)]. *)
Lemma easing_factor_bound (s : Q) (n : nat) :
  (0 < s < 1)%Q ->
  (0 <= (1 - s) ^ Z.of_nat n <= 1)%Q
  /\ ((1 - s) ^ Z.of_nat n * (1 + inject_Z (Z.of_nat n) * s) <= 1)%Q.
Proof.
  intros Hs. induction n as [| n [[Hpos Hle] IH]].
  - change ((1 - s) ^ Z.of_nat 0)%Q with 1%Q.
    change (inject_Z (Z.of_nat 0)) with 0%Q. split; lra.
  - assert (Hpow : ((1 - s) ^ Z.of_nat (S n) == (1 - s) * (1 - s) ^ Z.of_nat n)%Q).
    { rewrite Nat2Z.inj_succ. unfold Z.succ.
      rewrite Qpower_plus' by lia. rewrite Qpower_1_r. ring. }
    assert (Hn : (inject_Z (Z.of_nat (S n)) == inject_Z (Z.of_nat n) + 1)%Q).
    { rewrite Nat2Z.inj_succ. unfold Z.succ. rewrite inject_Z_plus. reflexivity. }
    rewrite Hpow, Hn.
    set (p := ((1 - s) ^ Z.of_nat n)%Q) in *.
    set (k := inject_Z (Z.of_nat n)) in *.
    assert (Hk : (0 <= k)%Q).
    { subst k. change 0%Q with (inject_Z 0). rewrite <- Zle_Qle. lia. }
    split; [split; nra |].
    assert (E : ((1 - s) * p * (1 + (k + 1) * s)
                 == (1 - s) * (p * (1 + k * s)) + (1 - s) * s * p)%Q) by ring.
    rewrite E. nra.
Qed.

Lemma shrunk_offset_small (p k s eps a total : Q) :
  (0 <= p)%Q -> (p * (1 + k * s) <= 1)%Q -> (0 <= k)%Q -> (0 < s)%Q -> (0 < eps)%Q ->
  (Qabs a <= total)%Q -> (total < k * s * eps)%Q ->
  (Qabs (p * a) < eps)%Q.
Proof.
  intros Hp Hbound Hk Hs Heps Ha Htotal.
  rewrite Qabs_Qmult, (Qabs_pos p Hp).
  pose proof (Qabs_nonneg a) as Ha0.
  set (b := Qabs a) in *.
  destruct (Qlt_le_dec 0 p) as [Hpos | Hzero].
  - assert (H1 : (p * b < p * (k * s * eps))%Q).
    { apply Qmult_lt_l; [exact Hpos | lra]. }
    assert (H2 : (p * (k * s * eps) == eps * (p * (1 + k * s)) - eps * p)%Q) by ring.
    assert (H3 : (eps * (p * (1 + k * s)) <= eps * 1)%Q).
    { apply Qmult_le_l; [exact Heps | exact Hbound]. }
    assert (H4 : (0 < eps * p)%Q) by (apply Qmult_lt_0_compat; assumption).
    lra.
  - assert (E : (p == 0)%Q) by lra. rewrite E. lra.
Qed.

(** X16.  The dots do arrive, rounding aside.  In exact arithmetic, a
    dot whose speed lies strictly between 0 and 1 comes within any
    distance of a pointer that stays where it is, and remains within
    it: for every positive [eps] there is a number of frames after
    which both offsets of the dot from the pointer are smaller than
    [eps]. *)
Theorem dot_comes_within_any_distance_of_the_pointer :
  forall (mouse : CanvasAnimationController.point xnum)
         (d : CanvasAnimationController.dot xnum) (mx my dx dy s eps : Q),
    CanvasAnimationController.x mouse = XFin mx ->
    CanvasAnimationController.y mouse = XFin my ->
    CanvasAnimationController.dot_x d = XFin dx ->
    CanvasAnimationController.dot_y d = XFin dy ->
    CanvasAnimationController.speed d = XFin s ->
    (0 < s < 1)%Q ->
    (0 < eps)%Q ->
    exists frames : nat,
      forall n : nat, (frames <= n)%nat ->
        exists dx' dy' : Q,
          CanvasAnimationController.dot_x
            (Nat.iter n (CanvasAnimationController.updateDot mouse) d) = XFin dx'
          /\ CanvasAnimationController.dot_y
               (Nat.iter n (CanvasAnimationController.updateDot mouse) d) = XFin dy'
          /\ (Qabs (mx - dx') < eps)%Q
          /\ (Qabs (my - dy') < eps)%Q.
Proof.
  intros mouse d mx my dx dy s eps Hmx Hmy Hdx Hdy Hs Hrange Heps.
  set (total := (Qabs (mx - dx) + Qabs (my - dy))%Q).
  assert (Htotal : (0 <= total)%Q /\ (Qabs (mx - dx) <= total)%Q
                   /\ (Qabs (my - dy) <= total)%Q).
  { subst total. pose proof (Qabs_nonneg (mx - dx)). pose proof (Qabs_nonneg (my - dy)).
    repeat split; lra. }
  clearbody total. destruct Htotal as (Htotal & Hax0 & Hay0).
  set (frames := Z.to_nat (Qceiling (total / (s * eps)) + 1)).
  exists frames. intros n Hn.
  destruct (updateDot_iter_exact mouse d mx my dx dy s n Hmx Hmy Hdx Hdy Hs)
    as (ax & ay & Hax & Hay & _ & Ex & Ey).
  exists ax, ay. split; [exact Hax |]. split; [exact Hay |].
  destruct (easing_factor_bound s n Hrange) as [[Hpos _] Hbound].
  set (k := inject_Z (Z.of_nat n)) in *.
  assert (Hse : (0 < s * eps)%Q) by (apply Qmult_lt_0_compat; lra).
  assert (Hk : (total / (s * eps) < k)%Q).
  { eapply Qle_lt_trans; [apply Qle_ceiling |].
    subst k. rewrite <- Zlt_Qlt.
    assert (0 <= Qceiling (total / (s * eps)))%Z.
    { change 0%Z with (Qceiling 0). apply Qceiling_resp_le.
      apply Qle_shift_div_l; [exact Hse | rewrite Qmult_0_l; exact Htotal]. }
    subst frames. lia. }
  assert (Hk0 : (0 <= k)%Q).
  { subst k. change 0%Q with (inject_Z 0). rewrite <- Zle_Qle. lia. }
  assert (Hlt : (total < k * s * eps)%Q).
  { assert (E : (total == total / (s * eps) * (s * eps))%Q) by (field; lra).
    rewrite E. rewrite <- Qmult_assoc. apply Qmult_lt_r; [exact Hse | exact Hk]. }
  split.
  - rewrite Ex. apply (shrunk_offset_small _ k s eps _ total); try assumption; lra.
  - rewrite Ey. apply (shrunk_offset_small _ k s eps _ total); try assumption; lra.
Qed.

(** The first dot and the pointer at (100, 50): within a thousandth. *)
Lemma dot_comes_within_any_distance_of_the_pointer_witness :
  exists frames : nat,
    forall n : nat, (frames <= n)%nat ->
      exists dx' dy' : Q,
        CanvasAnimationController.dot_x
          (Nat.iter n (CanvasAnimationController.updateDot exact_pointer) exact_first_dot)
        = XFin dx'
        /\ CanvasAnimationController.dot_y
             (Nat.iter n (CanvasAnimationController.updateDot exact_pointer) exact_first_dot)
           = XFin dy'
        /\ (Qabs (100 - dx') < 1 # 1000)%Q
        /\ (Qabs (50 - dy') < 1 # 1000)%Q.
Proof.
  apply (dot_comes_within_any_distance_of_the_pointer exact_pointer exact_first_dot
           100 50 0 0 (100 # 1000) (1 # 1000));
    [reflexivity | reflexivity | reflexivity | reflexivity | reflexivity | lra | lra].
Defined.

Lemma alpha_fade_in_iter {num : Type} `{Number num}
    (w : CanvasAnimationController.word num) (k : nat) :
  CanvasAnimationController.alpha (Nat.iter k CanvasAnimationController.fade_in w)
  = Nat.iter k (fun a => if (a <? int 1)%js then (a + lit 5 100)%js else a)
      (CanvasAnimationController.alpha w).
Proof.
  induction k as [| k IH]; [reflexivity |].
  rewrite !Nat.iter_succ, <- IH. reflexivity.
Qed.

(** X17.  Fading in takes twenty frames.  In the doubles the script
    computes with, a label that starts at opacity 0 is below full
    opacity after each of its first nineteen redraws; the twentieth
    brings it to 1 + 2^-52 (twenty times 0.05, as doubles add up), and
    there it stays however many frames follow. *)
Theorem label_fades_in_over_twenty_frames :
  forall (w : CanvasAnimationController.word spec_float) (k : nat),
    CanvasAnimationController.alpha w = int 0 ->
    let a := CanvasAnimationController.alpha
               (Nat.iter k CanvasAnimationController.fade_in w) in
    if (k <? 20)%nat then (a <? int 1)%js = true
    else a = S754_finite false 4503599627370497 (-52).
Proof.
  intros w k Hw. cbv zeta. rewrite alpha_fade_in_iter, Hw.
  set (fade := fun a : spec_float => if (a <? int 1)%js then (a + lit 5 100)%js else a).
  destruct (k <? 20)%nat eqn:Hk.
  - apply Nat.ltb_lt in Hk.
    do 20 (destruct k as [| k]; [vm_compute; reflexivity |]). lia.
  - apply Nat.ltb_ge in Hk.
    replace k with (k - 20 + 20)%nat by lia. generalize (k - 20)%nat. clear k Hk.
    intros k. rewrite Nat.iter_add.
    replace (Nat.iter 20 fade (int 0)) with (S754_finite false 4503599627370497 (-52))
      by (vm_compute; reflexivity).
    induction k as [| k IH]; [reflexivity |].
    rewrite Nat.iter_succ, IH. vm_compute. reflexivity.
Qed.

(** A label as [addText] pushes it, redrawn 25 times. *)
Lemma label_fades_in_over_twenty_frames_witness :
  CanvasAnimationController.alpha
    (Nat.iter 25 CanvasAnimationController.fade_in
       {| CanvasAnimationController.text := Some "Figma"%string;
          CanvasAnimationController.word_x := int 230;
          CanvasAnimationController.word_y := int 0;
          CanvasAnimationController.rotation := int 0;
          CanvasAnimationController.alpha := int 0 |})
  = S754_finite false 4503599627370497 (-52).
Proof.
  exact (label_fades_in_over_twenty_frames
           {| CanvasAnimationController.text := Some "Figma"%string;
              CanvasAnimationController.word_x := int 230;
              CanvasAnimationController.word_y := int 0;
              CanvasAnimationController.rotation := int 0;
              CanvasAnimationController.alpha := int 0 |} 25 eq_refl).
Defined.

(** ** CanvasAnimationController: what a label shows *)

Lemma Qred_inject_Z (z : Z) : Qred (inject_Z z) = inject_Z z.
Proof.
  unfold Qred, inject_Z. cbn [Qnum Qden].
  pose proof (Z.ggcd_gcd z 1) as Hg.
  pose proof (Z.ggcd_correct_divisors z 1) as Hd.
  destruct (Z.ggcd z 1) as [g [a b]]. cbn [fst] in Hg. destruct Hd as [Ha Hb].
  rewrite Z.gcd_1_r in Hg. cbn [snd].
  replace a with z by lia. replace b with 1 by lia. reflexivity.
Qed.

Lemma exact_index_floor (q : Q) :
  (0 <= Qfloor q)%Z ->
  to_index (Math_floor (XFin q)) = Some (Z.to_N (Qfloor q)).
Proof.
  intros Hz.
  change (to_index (Math_floor (XFin q))) with (Exact.index (XFin (inject_Z (Qfloor q)))).
  unfold Exact.index. rewrite Qred_inject_Z. cbn [Qnum Qden inject_Z].
  replace (0 <=? Qfloor q)%Z with true by (symmetry; apply Z.leb_le; exact Hz).
  reflexivity.
Qed.

(** [arr[Math.floor(r * arr.length)]] names an element when [r] is in
    [0, 1) and the array is not empty. *)
Lemma array_get_random {A} (arr : list A) (r : xnum) :
  unit_interval r = true -> arr <> [] ->
  exists a, array_get arr (Math_floor (r * int (Z.of_nat (length arr)))%js) = Some a.
Proof.
  intros Hr Harr. destruct r as [| s | q]; try discriminate Hr.
  cbn in Hr. apply andb_true_iff in Hr. destruct Hr as [H0 H1].
  apply Qle_bool_iff in H0. apply negb_true_iff in H1.
  assert (Hlt : (q < 1)%Q).
  { apply Qnot_le_lt. intros Hle. apply Qle_bool_iff in Hle. congruence. }
  set (n := length arr).
  assert (Hn : (0 < n)%nat) by (destruct arr; [congruence | cbn; lia]).
  change (XFin q * int (Z.of_nat n))%js with (XFin (q * inject_Z (Z.of_nat n))).
  set (z := Qfloor (q * inject_Z (Z.of_nat n))).
  assert (Hz0 : (0 <= z)%Z).
  { change 0%Z with (Qfloor 0). apply Qfloor_resp_le.
    apply Qmult_le_0_compat; [exact H0 |].
    change 0%Q with (inject_Z 0). rewrite <- Zle_Qle. lia. }
  assert (Hzn : (z < Z.of_nat n)%Z).
  { pose proof (Qfloor_le (q * inject_Z (Z.of_nat n))) as Hfl. fold z in Hfl.
    assert (Hqn : (q * inject_Z (Z.of_nat n) < inject_Z (Z.of_nat n))%Q).
    { rewrite <- (Qmult_1_l (inject_Z (Z.of_nat n))) at 2.
      apply Qmult_lt_r; [| exact Hlt].
      change 0%Q with (inject_Z 0). rewrite <- Zlt_Qlt. lia. }
    rewrite Zlt_Qlt. eapply Qle_lt_trans; eassumption. }
  unfold array_get. rewrite exact_index_floor by exact Hz0. fold z.
  destruct (nth_error arr (N.to_nat (Z.to_N z))) as [a |] eqn:E; [exists a; reflexivity |].
  apply nth_error_None in E. fold n in E. lia.
Qed.

Section LabelFacts.
Import CanvasAnimationController.
Variable Math_hypot : xnum -> xnum -> xnum.

Lemma rotation_in_range (r : xnum) :
  unit_interval r = true ->
  exists q : Q, (r * int 40 - int 20)%js = XFin q /\ (-20 <= q < 20)%Q.
Proof.
  intros Hr. destruct r as [| s | q]; try discriminate Hr.
  cbn in Hr. apply andb_true_iff in Hr. destruct Hr as [H0 H1].
  apply Qle_bool_iff in H0. apply negb_true_iff in H1.
  assert (Hlt : (q < 1)%Q).
  { apply Qnot_le_lt. intros Hle. apply Qle_bool_iff in Hle. congruence. }
  exists (q * 40 + - 20)%Q. split; [reflexivity | lra].
Qed.

Lemma well_formed_fade_in (terms : list string) (ws : list (word xnum)) :
  Forall (well_formed_label terms) ws ->
  Forall (well_formed_label terms) (map fade_in ws).
Proof.
  intros Hws. apply Forall_map. eapply Forall_impl; [exact Hws |].
  intros w (term & q & Ht & Hin & Hr & Hq). exists term, q.
  split; [exact Ht | split; [exact Hin | split; [exact Hr | exact Hq]]].
Qed.

Lemma addText_well_formed (this : t xnum) (x0 y0 r1 r2 : xnum) :
  unit_interval r1 = true -> unit_interval r2 = true ->
  Forall (well_formed_label (designTerms this)) (renderedWords this) ->
  Forall (well_formed_label (designTerms this))
    (renderedWords (addText Math_hypot this x0 y0 r1 r2))
  /\ designTerms (addText Math_hypot this x0 y0 r1 r2) = designTerms this.
Proof.
  intros Hr1 Hr2 Hws. unfold addText.
  destruct (Math_hypot _ _ <? int 150)%js; [split; [exact Hws | reflexivity] |].
  destruct (length _ =? 0)%nat eqn:Hlen; [split; [exact Hws | reflexivity] |].
  cbn [renderedWords designTerms]. split; [| reflexivity].
  apply Forall_app. split; [exact Hws |]. constructor; [| constructor].
  set (availableTerms := filter (λ term, Some term ∉ usedWords this) (designTerms this)) in *.
  destruct (array_get_random availableTerms r1 Hr1) as [term Hterm].
  { intros E. rewrite E in Hlen. discriminate Hlen. }
  destruct (rotation_in_range r2 Hr2) as (q & Hq & Hrange).
  exists term, q. cbn [text rotation].
  split; [exact Hterm |]. split; [| split; assumption].
  assert (Hin : term ∈ availableTerms).
  { unfold array_get in Hterm. destruct (to_index _); [| discriminate].
    apply list_elem_of_In. eapply nth_error_In. exact Hterm. }
  apply list_elem_of_filter in Hin. tauto.
Qed.

Lemma step_well_formed (this : t xnum) (ev : event xnum) :
  draws_in_unit_interval ev = true ->
  Forall (well_formed_label (designTerms this)) (renderedWords this) ->
  Forall (well_formed_label (designTerms this))
    (renderedWords (step Math_hypot this ev))
  /\ designTerms (step Math_hypot this ev) = designTerms this.
Proof.
  intros Hev Hws. destruct ev as [e | r]; cbn [step]; [split; [exact Hws | reflexivity] |].
  cbn in Hev. apply andb_true_iff in Hev. destruct Hev as [Hr1 Hr2].
  unfold animateFrame, handleWordGeneration.
  destruct (_ && _)%bool.
  - destruct (addText_well_formed (updateDots this)
                (x (mousePosition (updateDots this)) + int 30)%js
                (y (mousePosition (updateDots this)))
                (random_index r) (random_rotation r) Hr1 Hr2 Hws) as [Hws' Ht].
    cbn [drawWords renderedWords designTerms]. rewrite Ht. cbn [updateDots designTerms].
    split; [| reflexivity].
    apply well_formed_fade_in. exact Hws'.
  - cbn [drawWords renderedWords designTerms updateDots].
    split; [| reflexivity]. apply well_formed_fade_in. exact Hws.
Qed.

Lemma run_well_formed (evs : list (event xnum)) (this : t xnum) :
  Forall (fun ev => draws_in_unit_interval ev = true) evs ->
  Forall (well_formed_label (designTerms this)) (renderedWords this) ->
  Forall (well_formed_label (designTerms this))
    (renderedWords (run Math_hypot this evs)).
Proof.
  revert this. induction evs as [| ev evs IH]; intros this Hevs Hws; [exact Hws |].
  inversion Hevs as [| ? ? Hev Hrest]; subst.
  destruct (step_well_formed this ev Hev Hws) as [Hws' Ht].
  cbn [run fold_left]. rewrite <- Ht. apply IH; [exact Hrest |].
  rewrite Ht. exact Hws'.
Qed.

End LabelFacts.

(** X18.  Every label is a term of the vocabulary.  In exact
    arithmetic, when every value [Math.random()] hands to the array
    index and to the rotation lies in [0, 1), each label on the canvas
    after any sequence of mouse moves and frames shows one of the eleven
    design terms, never [undefined], and is turned by at least -20 and
    less than 20 degrees. *)
Theorem labels_show_vocabulary_terms :
  forall (Math_hypot : xnum -> xnum -> xnum)
         (evs : list (CanvasAnimationController.event xnum)),
    Forall (fun ev => draws_in_unit_interval ev = true) evs ->
    Forall (well_formed_label
              (CanvasAnimationController.designTerms
                 (@CanvasAnimationController.constructor xnum _)))
      (CanvasAnimationController.renderedWords
         (CanvasAnimationController.run Math_hypot
            CanvasAnimationController.constructor evs)).
Proof.
  intros Math_hypot evs Hevs.
  apply (run_well_formed Math_hypot evs CanvasAnimationController.constructor Hevs).
  constructor.
Qed.

(** Two placements, the draws being 1/2 and 1/4, then 9/10 and 3/4. *)
Lemma labels_show_vocabulary_terms_witness :
  Forall (well_formed_label
            (CanvasAnimationController.designTerms
               (@CanvasAnimationController.constructor xnum _)))
    (CanvasAnimationController.renderedWords
       (CanvasAnimationController.run axis_distance
          CanvasAnimationController.constructor exact_placements)).
Proof.
  apply (labels_show_vocabulary_terms axis_distance exact_placements).
  repeat constructor.
Defined.

Section LabelCount.
Import CanvasAnimationController.
Variable Math_hypot : xnum -> xnum -> xnum.

Lemma counted_step (this : t xnum) (ev : event xnum) :
  draws_in_unit_interval ev = true ->
  counted Math_hypot this -> counted Math_hypot (step Math_hypot this ev).
Proof.
  intros Hev (Hinv & Hwf & Hcount).
  destruct (invariant_step Math_hypot this ev Hinv) as [Hinv' _].
  destruct (step_well_formed Math_hypot this ev Hev Hwf) as [Hwf' Hterms].
  split; [exact Hinv' |]. split; [rewrite Hterms; exact Hwf' |].
  destruct ev as [e | r]; [exact Hcount |].
  cbn [step] in *. unfold animateFrame in *.
  cbn [drawWords renderedWords usedWords] in *. rewrite length_map.
  rewrite Forall_map in Hwf'.
  unfold handleWordGeneration in *.
  destruct (_ && _)%bool eqn:Hguard; [| exact Hcount].
  apply andb_true_iff in Hguard. destruct Hguard as [_ Hguard]. apply Nat.ltb_lt in Hguard.
  destruct Hinv as (_ & _ & _ & Ht & _ & _).
  destruct (addText_cases Math_hypot (updateDots this)
              (x (mousePosition (updateDots this)) + int 30)%js
              (y (mousePosition (updateDots this)))
              (random_index r) (random_rotation r))
    as [Hd E | Hall Hu Hw Hp Hd | w Hd Hx Hy Hfresh Hw Hu Hp Hterms'].
  - rewrite E. exact Hcount.
  - exfalso. cbn [updateDots designTerms usedWords] in Hall, Hguard.
    rewrite Ht in Hall, Hguard. apply (all_terms_used_size (num := xnum)) in Hall. lia.
  - rewrite Hw, Hu in *. rewrite length_app. cbn [length updateDots renderedWords usedWords] in *.
    apply Forall_app in Hwf'. destruct Hwf' as [_ Hlast].
    inversion Hlast as [| ? ? (term & q & Htext & _) _]; subst.
    cbn [text fade_in] in Htext.
    destruct Hfresh as [Hfresh | Hnone]; [| congruence].
    rewrite size_union by (apply disjoint_singleton_l; exact Hfresh).
    rewrite size_singleton. lia.
Qed.

Lemma counted_run (evs : list (event xnum)) (this : t xnum) :
  Forall (fun ev => draws_in_unit_interval ev = true) evs ->
  counted Math_hypot this -> counted Math_hypot (run Math_hypot this evs).
Proof.
  revert this. induction evs as [| ev evs IH]; intros this Hevs Hc; [exact Hc |].
  inversion Hevs as [| ? ? Hev Hrest]; subst.
  cbn [run fold_left]. apply IH; [exact Hrest |]. apply counted_step; assumption.
Qed.

End LabelCount.



(** ** Class lists *)

Lemma contains_true (l : ClassList.t) (c : string) :
  ClassList.contains l c = true <-> c ∈ l.
Proof. unfold ClassList.contains. apply bool_decide_eq_true. Qed.

Lemma contains_eq (l l' : ClassList.t) (c : string) :
  (c ∈ l' <-> c ∈ l) -> ClassList.contains l' c = ClassList.contains l c.
Proof. intros Hiff. unfold ClassList.contains. apply bool_decide_ext. exact Hiff. Qed.

Lemma contains_add (l : ClassList.t) (token c : string) :
  ClassList.contains (ClassList.add l token) c
  = ClassList.contains l c || String.eqb c token.
Proof.
  unfold ClassList.add.
  destruct (ClassList.contains l token) eqn:Hin.
  - destruct (String.eqb_spec c token) as [-> | Hne];
      [rewrite Hin; reflexivity | rewrite orb_false_r; reflexivity].
  - destruct (String.eqb_spec c token) as [-> | Hne].
    + rewrite orb_true_r. apply contains_true, elem_of_app. right. constructor.
    + rewrite orb_false_r. apply contains_eq. rewrite elem_of_app.
      split; [intros [Hc | Hc]; [exact Hc |] | tauto].
      apply list_elem_of_singleton in Hc. contradiction.
Qed.

Lemma contains_remove (l : ClassList.t) (token c : string) :
  ClassList.contains (ClassList.remove l token) c
  = ClassList.contains l c && negb (String.eqb c token).
Proof.
  unfold ClassList.remove.
  destruct (String.eqb_spec c token) as [-> | Hne]; cbn [negb].
  - rewrite andb_false_r. unfold ClassList.contains. apply bool_decide_eq_false.
    rewrite list_elem_of_filter. tauto.
  - rewrite andb_true_r. apply contains_eq. rewrite list_elem_of_filter. tauto.
Qed.

Lemma contains_toggle (l : ClassList.t) (token c : string) :
  ClassList.contains (ClassList.toggle l token) c
  = if String.eqb c token then negb (ClassList.contains l c) else ClassList.contains l c.
Proof.
  unfold ClassList.toggle.
  destruct (ClassList.contains l token) eqn:Hin.
  - rewrite contains_remove.
    destruct (String.eqb_spec c token) as [-> | Hne]; cbn [negb];
      [rewrite Hin; reflexivity | apply andb_true_r].
  - rewrite contains_add.
    destruct (String.eqb_spec c token) as [-> | Hne];
      [rewrite Hin; reflexivity | apply orb_false_r].
Qed.

Lemma NoDup_add (l : ClassList.t) (token : string) :
  NoDup l -> NoDup (ClassList.add l token).
Proof.
  intros Hl. unfold ClassList.add.
  destruct (ClassList.contains l token) eqn:Hin; [exact Hl |].
  apply NoDup_app. split; [exact Hl |]. split; [| apply NoDup_singleton].
  intros c Hc Hc'. apply list_elem_of_singleton in Hc'. subst c.
  apply contains_true in Hc. congruence.
Qed.

Lemma NoDup_remove (l : ClassList.t) (token : string) :
  NoDup l -> NoDup (ClassList.remove l token).
Proof. intros Hl. unfold ClassList.remove. apply NoDup_filter, Hl. Qed.

(** ** ScrollObserverController: reveal sections *)

Section RevealFacts.
Import SectionObserver.
Context {num : Type} `{Number num}.

Lemma handleSectionIntersection_lookup (sections : list (section num)) (e : entry)
    (i : nat) (s : section num) :
  sections !! i = Some s ->
  exists s',
    handleSectionIntersection sections e !! i = Some s'
    /\ transitionDelay s' = transitionDelay s
    /\ observed s' = observed s
    /\ forall c, ClassList.contains (classList s') c
                 = ClassList.contains (classList s) c
                   || (reports_intersecting i [e] && String.eqb c "active").
Proof.
  intros Hs. unfold handleSectionIntersection, reports_intersecting. cbn [existsb].
  destruct (isIntersecting e); cbn [andb orb].
  - destruct (Nat.eqb_spec (target e) i) as [-> | Hne].
    + eexists. rewrite list_lookup_alter_eq, Hs. split; [reflexivity |].
      split; [reflexivity |]. split; [reflexivity |].
      intros c. cbn [classList]. rewrite contains_add. reflexivity.
    + exists s. rewrite list_lookup_alter_ne by exact Hne.
      split; [exact Hs |]. split; [reflexivity |]. split; [reflexivity |].
      intros c. rewrite orb_false_r. reflexivity.
  - exists s. split; [exact Hs |]. split; [reflexivity |]. split; [reflexivity |].
    intros c. rewrite orb_false_r. reflexivity.
Qed.

Lemma sectionObserver_lookup (entries : list entry) (sections : list (section num))
    (i : nat) (s : section num) :
  sections !! i = Some s ->
  exists s',
    sectionObserver sections entries !! i = Some s'
    /\ transitionDelay s' = transitionDelay s
    /\ observed s' = observed s
    /\ forall c, ClassList.contains (classList s') c
                 = ClassList.contains (classList s) c
                   || (reports_intersecting i entries && String.eqb c "active").
Proof.
  revert sections s. induction entries as [| e entries IH]; intros sections s Hs.
  - exists s. split; [exact Hs |]. split; [reflexivity |]. split; [reflexivity |].
    intros c. rewrite orb_false_r. reflexivity.
  - destruct (handleSectionIntersection_lookup sections e i s Hs)
      as (s1 & Hs1 & Hd1 & Ho1 & Hc1).
    destruct (IH _ s1 Hs1) as (s2 & Hs2 & Hd2 & Ho2 & Hc2).
    exists s2. split; [exact Hs2 |]. split; [congruence |]. split; [congruence |].
    intros c. rewrite Hc2, Hc1. unfold reports_intersecting. cbn [existsb].
    rewrite orb_false_r.
    destruct (ClassList.contains (classList s) c), (isIntersecting e && (target e =? i)%nat),
      (existsb _ entries), (String.eqb c "active"); reflexivity.
Qed.

Lemma observe_lookup (batches : list (list entry)) (sections : list (section num))
    (i : nat) (s : section num) :
  sections !! i = Some s ->
  exists s',
    observe sections batches !! i = Some s'
    /\ transitionDelay s' = transitionDelay s
    /\ observed s' = observed s
    /\ forall c, ClassList.contains (classList s') c
                 = ClassList.contains (classList s) c
                   || (reports_intersecting i (concat batches) && String.eqb c "active").
Proof.
  revert sections s. induction batches as [| entries batches IH]; intros sections s Hs.
  - exists s. split; [exact Hs |]. split; [reflexivity |]. split; [reflexivity |].
    intros c. rewrite orb_false_r. reflexivity.
  - destruct (sectionObserver_lookup entries sections i s Hs)
      as (s1 & Hs1 & Hd1 & Ho1 & Hc1).
    destruct (IH _ s1 Hs1) as (s2 & Hs2 & Hd2 & Ho2 & Hc2).
    exists s2. split; [exact Hs2 |]. split; [congruence |]. split; [congruence |].
    intros c. rewrite Hc2, Hc1. cbn [concat]. unfold reports_intersecting.
    rewrite existsb_app.
    destruct (ClassList.contains (classList s) c), (existsb _ entries),
      (existsb _ (concat batches)), (String.eqb c "active"); reflexivity.
Qed.

End RevealFacts.

(** X20.  Revealing is one-way.  [initializeObservers] gives the
    section at position [i] a transition delay of [i * 200] ms and has
    it observed.  After any number of callbacks of the observer, that
    section carries the class [active] exactly if it carried it before
    or some entry reported it as intersecting; an entry that reports it
    out of view takes nothing away, and no other class of the section
    changes. *)
Theorem reveal_sections_activate_once_and_for_all :
  forall {num : Type} `{Number num} (sections : list (SectionObserver.section num))
         (batches : list (list SectionObserver.entry))
         (i : nat) (s : SectionObserver.section num),
    sections !! i = Some s ->
    exists s',
      SectionObserver.observe (SectionObserver.initializeObservers sections) batches !! i
      = Some s'
      /\ SectionObserver.transitionDelay s'
         = Some (SectionObserver.ms (int (Z.of_nat i) * int 200)%js)
      /\ SectionObserver.observed s' = true
      /\ forall c,
           ClassList.contains (SectionObserver.classList s') c
           = ClassList.contains (SectionObserver.classList s) c
             || (reports_intersecting i (concat batches) && String.eqb c "active").
Proof.
  intros num N sections batches i s Hs.
  assert (Hinit : SectionObserver.initializeObservers sections !! i
                  = Some {| SectionObserver.transitionDelay :=
                              Some (SectionObserver.ms (int (Z.of_nat i) * int 200)%js);
                            SectionObserver.classList := SectionObserver.classList s;
                            SectionObserver.observed := true |}).
  { unfold SectionObserver.initializeObservers. rewrite list_lookup_imap, Hs. reflexivity. }
  destruct (observe_lookup batches _ i _ Hinit) as (s' & Hs' & Hd & Ho & Hc).
  exists s'. split; [exact Hs' |]. split; [exact Hd |]. split; [exact Ho |]. exact Hc.
Qed.

(** Three sections; the second comes into view, goes out, the third
    comes into view. *)
Lemma reveal_sections_activate_once_and_for_all_witness :
  let plain := {| SectionObserver.transitionDelay := None;
                  SectionObserver.classList := ["reveal-section"]%string;
                  SectionObserver.observed := false |} in
  let batches :=
    [[{| SectionObserver.isIntersecting := false; SectionObserver.target := 0 |};
      {| SectionObserver.isIntersecting := true; SectionObserver.target := 1 |}];
     [{| SectionObserver.isIntersecting := false; SectionObserver.target := 1 |};
      {| SectionObserver.isIntersecting := true; SectionObserver.target := 2 |}]]%nat in
  exists s',
    SectionObserver.observe
      (SectionObserver.initializeObservers [plain; plain; plain]) batches !! 1%nat
    = Some s'
    /\ SectionObserver.transitionDelay s'
       = Some (SectionObserver.ms (int (Z.of_nat 1) * int 200 : spec_float)%js)
    /\ SectionObserver.observed s' = true
    /\ forall c,
         ClassList.contains (SectionObserver.classList s') c
         = ClassList.contains (SectionObserver.classList plain) c
           || (reports_intersecting 1 (concat batches) && String.eqb c "active").
Proof.
  exact (reveal_sections_activate_once_and_for_all
           [ {| SectionObserver.transitionDelay := None;
                SectionObserver.classList := ["reveal-section"]%string;
                SectionObserver.observed := false |};
             {| SectionObserver.transitionDelay := None;
                SectionObserver.classList := ["reveal-section"]%string;
                SectionObserver.observed := false |};
             {| SectionObserver.transitionDelay := None;
                SectionObserver.classList := ["reveal-section"]%string;
                SectionObserver.observed := false |} ]
           [[{| SectionObserver.isIntersecting := false; SectionObserver.target := 0 |};
             {| SectionObserver.isIntersecting := true; SectionObserver.target := 1 |}];
            [{| SectionObserver.isIntersecting := false; SectionObserver.target := 1 |};
             {| SectionObserver.isIntersecting := true; SectionObserver.target := 2 |}]]%nat
           1%nat _ eq_refl).
Defined.

(** ** The profile image *)

(** X21.  [toggleProfileVisibility] flips the two classes [hidden] and
    [flex] of the profile container and leaves every other class as it
    is, so that a second call undoes the first; a container that shows
    exactly one of the two keeps showing exactly one.  Without the
    container the call throws a TypeError. *)
Theorem profile_visibility_toggle_flips_two_classes :
  forall (classList : ClassList.t),
    Profile.toggleProfileVisibility None = Profile.thrown_TypeError
    /\ exists classList',
         Profile.toggleProfileVisibility (Some classList) = Profile.returned classList'
         /\ (forall c,
               ClassList.contains classList' c
               = if String.eqb c "hidden" || String.eqb c "flex"
                 then negb (ClassList.contains classList c)
                 else ClassList.contains classList c)
         /\ (NoDup classList -> NoDup classList')
         /\ exists classList'',
              Profile.toggleProfileVisibility (Some classList') = Profile.returned classList''
              /\ forall c, ClassList.contains classList'' c = ClassList.contains classList c.
Proof.
  intros classList. split; [reflexivity |].
  assert (Hflip : forall l c,
    ClassList.contains (ClassList.toggle (ClassList.toggle l "hidden") "flex") c
    = if String.eqb c "hidden" || String.eqb c "flex"
      then negb (ClassList.contains l c) else ClassList.contains l c).
  { intros l c. rewrite !contains_toggle.
    destruct (String.eqb_spec c "flex") as [-> | Hf]; [reflexivity |].
    rewrite orb_false_r. reflexivity. }
  assert (Hnodup : forall l token, NoDup l -> NoDup (ClassList.toggle l token)).
  { intros l token Hl. unfold ClassList.toggle.
    destruct (ClassList.contains l token); [apply NoDup_remove | apply NoDup_add]; exact Hl. }
  eexists. split; [reflexivity |]. split; [apply Hflip |].
  split; [intros Hl; apply Hnodup, Hnodup, Hl |].
  eexists. split; [reflexivity |].
  intros c. rewrite !Hflip.
  destruct (String.eqb c "hidden" || String.eqb c "flex"); [apply negb_involutive | reflexivity].
Qed.

Lemma contains_show_modal (l : ClassList.t) (c : string) :
  ClassList.contains (Profile.run_callback l Profile.show_modal) c
  = ClassList.contains l c
    && negb (String.eqb c "translate-y-full" || String.eqb c "opacity-0").
Proof.
  cbn [Profile.run_callback]. rewrite !contains_remove.
  destruct (ClassList.contains l c), (String.eqb c "translate-y-full"),
    (String.eqb c "opacity-0"); reflexivity.
Qed.

Lemma contains_hide_modal (l : ClassList.t) (c : string) :
  ClassList.contains (Profile.run_callback l Profile.hide_modal) c
  = ClassList.contains l c || String.eqb c "hidden".
Proof. cbn [Profile.run_callback]. apply contains_add. Qed.

(** X22.  Opening and closing the profile image.  From a modal that is
    out of sight (classes [hidden], [translate-y-full] and [opacity-0])
    with nothing pending, a click and the next frame leave it in full
    view, without any of the three; a second click and its timeout then
    put all three back, every other class being as it was before the
    first click, and nothing is left pending. *)
Theorem profile_image_opens_and_closes :
  forall (s : Profile.t) (classList : ClassList.t),
    Profile.modal s = Some classList ->
    Profile.animation_frame_callbacks s = [] ->
    Profile.timeouts s = [] ->
    Profile.closed classList ->
    exists opened closed_again,
      Profile.modal (Profile.run s [Profile.click; Profile.animation_frame])
      = Some opened
      /\ Profile.open opened
      /\ (forall c, ClassList.contains opened c
                    = ClassList.contains classList c
                      && negb (String.eqb c "hidden" || String.eqb c "translate-y-full"
                               || String.eqb c "opacity-0"))
      /\ Profile.run s [Profile.click; Profile.animation_frame;
                        Profile.click; Profile.timeout]
         = {| Profile.modal := Some closed_again;
              Profile.animation_frame_callbacks := [];
              Profile.timeouts := [];
              Profile.console_errors := Profile.console_errors s |}
      /\ Profile.closed closed_again
      /\ (forall c, ClassList.contains closed_again c = ClassList.contains classList c).
Proof.
  intros s classList Hmodal Hframes Htimeouts (Hh & Ht & Ho).
  destruct s as [m frames timers errors]. cbn in Hmodal, Hframes, Htimeouts. subst.
  set (opened := Profile.run_callback (ClassList.remove classList "hidden") Profile.show_modal).
  assert (Hopened : forall c, ClassList.contains opened c
                    = ClassList.contains classList c
                      && negb (String.eqb c "hidden" || String.eqb c "translate-y-full"
                               || String.eqb c "opacity-0")).
  { intros c. subst opened. rewrite contains_show_modal, contains_remove.
    destruct (ClassList.contains classList c), (String.eqb c "hidden"),
      (String.eqb c "translate-y-full"), (String.eqb c "opacity-0"); reflexivity. }
  assert (Hopen : Profile.open opened).
  { unfold Profile.open. rewrite !Hopened. cbn. rewrite !andb_false_r. repeat split. }
  assert (Hfirst : Profile.run
                     {| Profile.modal := Some classList;
                        Profile.animation_frame_callbacks := [];
                        Profile.timeouts := [];
                        Profile.console_errors := errors |}
                     [Profile.click; Profile.animation_frame]
                   = {| Profile.modal := Some opened;
                        Profile.animation_frame_callbacks := [];
                        Profile.timeouts := [];
                        Profile.console_errors := errors |}).
  { unfold Profile.run. cbn [fold_left Profile.step].
    unfold Profile.toggleProfileImage. cbn [Profile.modal]. rewrite Hh. reflexivity. }
  set (closed_again :=
         Profile.run_callback
           (ClassList.add (ClassList.add opened "translate-y-full") "opacity-0")
           Profile.hide_modal).
  exists opened, closed_again.
  split; [rewrite Hfirst; reflexivity |].
  split; [exact Hopen |]. split; [exact Hopened |].
  assert (Hagain : forall c, ClassList.contains closed_again c = ClassList.contains classList c).
  { intros c. subst closed_again. rewrite contains_hide_modal, !contains_add, Hopened.
    destruct (String.eqb_spec c "hidden") as [-> | H1]; [rewrite Hh; reflexivity |].
    destruct (String.eqb_spec c "translate-y-full") as [-> | H2];
      [rewrite Ht; reflexivity |].
    destruct (String.eqb_spec c "opacity-0") as [-> | H3]; [rewrite Ho; reflexivity |].
    cbn. rewrite andb_true_r, !orb_false_r. reflexivity. }
  split; [| split; [| exact Hagain]].
  - change [Profile.click; Profile.animation_frame; Profile.click; Profile.timeout]
      with ([Profile.click; Profile.animation_frame] ++ [Profile.click; Profile.timeout]).
    unfold Profile.run at 1. rewrite fold_left_app.
    fold (Profile.run {| Profile.modal := Some classList;
                         Profile.animation_frame_callbacks := [];
                         Profile.timeouts := [];
                         Profile.console_errors := errors |}
            [Profile.click; Profile.animation_frame]).
    rewrite Hfirst. cbn [fold_left Profile.step].
    unfold Profile.toggleProfileImage. cbn [Profile.modal].
    destruct Hopen as (Hh' & _ & _). rewrite Hh'. reflexivity.
  - unfold Profile.closed. rewrite !Hagain. repeat split; assumption.
Qed.

(** A modal with the three classes and one more. *)
Lemma profile_image_opens_and_closes_witness :
  let classList := ["fixed"; "hidden"; "translate-y-full"; "opacity-0"]%string in
  let s := {| Profile.modal := Some classList;
              Profile.animation_frame_callbacks := [];
              Profile.timeouts := [];
              Profile.console_errors := 0 |} in
  exists opened closed_again,
    Profile.modal (Profile.run s [Profile.click; Profile.animation_frame])
    = Some opened
    /\ Profile.open opened
    /\ (forall c, ClassList.contains opened c
                  = ClassList.contains classList c
                    && negb (String.eqb c "hidden" || String.eqb c "translate-y-full"
                             || String.eqb c "opacity-0"))
    /\ Profile.run s [Profile.click; Profile.animation_frame;
                      Profile.click; Profile.timeout]
       = {| Profile.modal := Some closed_again;
            Profile.animation_frame_callbacks := [];
            Profile.timeouts := [];
            Profile.console_errors := Profile.console_errors s |}
    /\ Profile.closed closed_again
    /\ (forall c, ClassList.contains closed_again c = ClassList.contains classList c).
Proof.
  apply (profile_image_opens_and_closes
           {| Profile.modal := Some ["fixed"; "hidden"; "translate-y-full"; "opacity-0"]%string;
              Profile.animation_frame_callbacks := [];
              Profile.timeouts := [];
              Profile.console_errors := 0 |}
           ["fixed"; "hidden"; "translate-y-full"; "opacity-0"]%string);
    [reflexivity | reflexivity | reflexivity | repeat split].
Defined.

(** X23.  A second click before the next frame.  From a modal that is
    out of sight with nothing pending, two clicks in a row take the
    opening branch and then the closing branch; once the frame callback
    of the first and the timeout of the second have run, in either
    order, the modal is hidden again but has lost [translate-y-full] and
    [opacity-0]: it is neither in the state it started in nor in view. *)
Theorem profile_image_double_click_loses_transition_classes :
  forall (s : Profile.t) (classList : ClassList.t),
    Profile.modal s = Some classList ->
    Profile.animation_frame_callbacks s = [] ->
    Profile.timeouts s = [] ->
    Profile.closed classList ->
    exists frame_first timeout_first,
      Profile.run s [Profile.click; Profile.click; Profile.animation_frame; Profile.timeout]
      = {| Profile.modal := Some frame_first;
           Profile.animation_frame_callbacks := [];
           Profile.timeouts := [];
           Profile.console_errors := Profile.console_errors s |}
      /\ Profile.run s [Profile.click; Profile.click; Profile.timeout; Profile.animation_frame]
         = {| Profile.modal := Some timeout_first;
              Profile.animation_frame_callbacks := [];
              Profile.timeouts := [];
              Profile.console_errors := Profile.console_errors s |}
      /\ forall l, l = frame_first \/ l = timeout_first ->
           ClassList.contains l "hidden" = true
           /\ ClassList.contains l "translate-y-full" = false
           /\ ClassList.contains l "opacity-0" = false
           /\ forall c, c <> "hidden"%string -> c <> "translate-y-full"%string ->
                        c <> "opacity-0"%string ->
                        ClassList.contains l c = ClassList.contains classList c.
Proof.
  intros s classList Hmodal Hframes Htimeouts (Hh & Ht & Ho).
  destruct s as [m frames timers errors]. cbn in Hmodal, Hframes, Htimeouts. subst.
  assert (Hshown : ClassList.contains (ClassList.remove classList "hidden") "hidden" = false).
  { rewrite contains_remove. cbn. apply andb_false_r. }
  assert (Hclicks : Profile.run
                      {| Profile.modal := Some classList;
                         Profile.animation_frame_callbacks := [];
                         Profile.timeouts := [];
                         Profile.console_errors := errors |}
                      [Profile.click; Profile.click]
                    = {| Profile.modal :=
                           Some (ClassList.add
                                   (ClassList.add (ClassList.remove classList "hidden")
                                      "translate-y-full") "opacity-0");
                         Profile.animation_frame_callbacks := [Profile.show_modal];
                         Profile.timeouts := [Profile.hide_modal];
                         Profile.console_errors := errors |}).
  { unfold Profile.run. cbn [fold_left Profile.step].
    unfold Profile.toggleProfileImage at 2. cbn [Profile.modal]. rewrite Hh.
    unfold Profile.toggleProfileImage. cbn [Profile.modal]. rewrite Hshown. reflexivity. }
  set (pending := ClassList.add (ClassList.add (ClassList.remove classList "hidden")
                                   "translate-y-full") "opacity-0") in *.
  exists (Profile.run_callback (Profile.run_callback pending Profile.show_modal)
            Profile.hide_modal),
         (Profile.run_callback (Profile.run_callback pending Profile.hide_modal)
            Profile.show_modal).
  split.
  { change [Profile.click; Profile.click; Profile.animation_frame; Profile.timeout]
      with ([Profile.click; Profile.click] ++ [Profile.animation_frame; Profile.timeout]).
    unfold Profile.run at 1. rewrite fold_left_app.
    fold (Profile.run {| Profile.modal := Some classList;
                         Profile.animation_frame_callbacks := [];
                         Profile.timeouts := [];
                         Profile.console_errors := errors |}
            [Profile.click; Profile.click]).
    rewrite Hclicks. reflexivity. }
  split.
  { change [Profile.click; Profile.click; Profile.timeout; Profile.animation_frame]
      with ([Profile.click; Profile.click] ++ [Profile.timeout; Profile.animation_frame]).
    unfold Profile.run at 1. rewrite fold_left_app.
    fold (Profile.run {| Profile.modal := Some classList;
                         Profile.animation_frame_callbacks := [];
                         Profile.timeouts := [];
                         Profile.console_errors := errors |}
            [Profile.click; Profile.click]).
    rewrite Hclicks. reflexivity. }
  intros l [-> | ->]; subst pending;
    rewrite ?contains_hide_modal, ?contains_show_modal, ?contains_hide_modal,
      ?contains_add, ?contains_remove;
    (split; [cbn; rewrite ?orb_true_r, ?andb_true_r; reflexivity |]);
    (split; [cbn; rewrite ?andb_false_r; reflexivity |]);
    (split; [cbn; rewrite ?andb_false_r; reflexivity |]);
    intros c H1 H2 H3;
    rewrite ?contains_hide_modal, ?contains_show_modal, ?contains_hide_modal,
      ?contains_add, ?contains_remove;
    apply String.eqb_neq in H1, H2, H3; rewrite H1, H2, H3;
    cbn; rewrite ?orb_false_r, ?andb_true_r; reflexivity.
Qed.

(** A modal with the three classes and one more. *)
Lemma profile_image_double_click_loses_transition_classes_witness :
  let classList := ["fixed"; "hidden"; "translate-y-full"; "opacity-0"]%string in
  let s := {| Profile.modal := Some classList;
              Profile.animation_frame_callbacks := [];
              Profile.timeouts := [];
              Profile.console_errors := 0 |} in
  exists frame_first timeout_first,
    Profile.run s [Profile.click; Profile.click; Profile.animation_frame; Profile.timeout]
    = {| Profile.modal := Some frame_first;
         Profile.animation_frame_callbacks := [];
         Profile.timeouts := [];
         Profile.console_errors := Profile.console_errors s |}
    /\ Profile.run s [Profile.click; Profile.click; Profile.timeout; Profile.animation_frame]
       = {| Profile.modal := Some timeout_first;
            Profile.animation_frame_callbacks := [];
            Profile.timeouts := [];
            Profile.console_errors := Profile.console_errors s |}
    /\ forall l, l = frame_first \/ l = timeout_first ->
         ClassList.contains l "hidden" = true
         /\ ClassList.contains l "translate-y-full" = false
         /\ ClassList.contains l "opacity-0" = false
         /\ forall c, c <> "hidden"%string -> c <> "translate-y-full"%string ->
                      c <> "opacity-0"%string ->
                      ClassList.contains l c = ClassList.contains classList c.
Proof.
  apply (profile_image_double_click_loses_transition_classes
           {| Profile.modal := Some ["fixed"; "hidden"; "translate-y-full"; "opacity-0"]%string;
              Profile.animation_frame_callbacks := [];
              Profile.timeouts := [];
              Profile.console_errors := 0 |}
           ["fixed"; "hidden"; "translate-y-full"; "opacity-0"]%string);
    [reflexivity | reflexivity | reflexivity | repeat split].
Defined.

(** ** The mobile view switch *)

(** X24.  The view switch alternates.  After the first click exactly one
    of the two sections is displayed and the button offers the other;
    every further click swaps them.  Counting from a page whose design
    section is not hidden inline (as it loads), an odd number of clicks
    shows the development section and an even number the design
    section. *)
Theorem view_switch_alternates :
  forall (s : ViewSwitch.t) (n : nat),
    Nat.iter (S n) ViewSwitch.on_click s
    = if xorb (String.eqb (ViewSwitch.designSection_display s) "none") (Nat.odd n)
      then design_view else dev_view.
Proof.
  intros s n. induction n as [| n IH].
  - cbn. unfold ViewSwitch.on_click.
    destruct (String.eqb (ViewSwitch.designSection_display s) "none"); reflexivity.
  - rewrite Nat.iter_succ, IH, Nat.odd_succ, <- Nat.negb_odd.
    destruct (String.eqb (ViewSwitch.designSection_display s) "none"), (Nat.odd n);
      reflexivity.
Qed.

(** ** The repository feed, response by response *)

Section RepositoryFeedFacts.
Import Feeds.
Context {num : Type}.
Variable fault_message : engine_fault num -> string.

Lemma render_repos_until_nullish (l1 l2 : list (value num)) (v : value num) (d : dom num) :
  existsb nullish l1 = false -> nullish v = true ->
  mapM (render_repo fault_message) (l1 ++ v :: l2) d
  = (thrown (TypeError (fault_message (read_property_of v "private"))), d).
Proof.
  intros Hl1 Hv. induction l1 as [| a l1 IH]; cbn [app mapM].
  - unfold bind at 1. rewrite render_repo_value, Hv. reflexivity.
  - cbn [existsb] in Hl1. apply orb_false_iff in Hl1. destruct Hl1 as [Ha Hl1].
    unfold bind at 1. rewrite render_repo_value, Ha.
    unfold bind at 1. rewrite (IH Hl1). reflexivity.
Qed.

End RepositoryFeedFacts.




(** X27.  Missing containers.  Without #projects-grid the repository
    renderer does not return: writing the loading indicator throws, the
    handler catches that and throws again on writing its message, and
    the TypeError leaves the function, whatever the network would have
    answered.  Without #design-projects the design renderer returns at
    once and changes nothing, and so does [renderFigmaProjects]. *)
Theorem feed_renderers_without_their_container :
  forall {num : Type} (fault_message : Feeds.engine_fault num -> string)
         (Date_time : Feeds.value num -> option Z)
         (github team : Feeds.fetch_result num)
         (files_request : Feeds.value num -> Feeds.fetch_result num)
         (files : list (Feeds.value num)) (d : Feeds.dom num),
    (Feeds.projects_grid d = None ->
     Feeds.fetchGitHubRepos fault_message github d
     = (Feeds.thrown
          (Feeds.TypeError (fault_message (Feeds.set_property_of_null "innerHTML"))),
        d))
    /\ (Feeds.design_projects d = None ->
        Feeds.fetchRecentFigmaFiles fault_message Date_time team files_request d
        = (Feeds.returned tt, d)
        /\ Feeds.renderFigmaProjects fault_message files d = (Feeds.returned tt, d)).
Proof.
  intros num fault_message Date_time github team files_request files d. split.
  - intros Hgrid. unfold Feeds.fetchGitHubRepos, Feeds.try_catch.
    unfold Feeds.bind at 1. unfold Feeds.set_projects_grid. rewrite Hgrid.
    cbn [Feeds.projects_grid]. rewrite Hgrid. reflexivity.
  - intros Hdesign. unfold Feeds.fetchRecentFigmaFiles, Feeds.renderFigmaProjects.
    rewrite Hdesign. split; reflexivity.
Qed.

(** ** The design-file feed, for any number of projects *)

Section DesignFeedFacts.
Import Feeds.
Context {num : Type}.
Variable fault_message : engine_fault num -> string.
Variable Date_time : value num -> option Z.
Variable files_request : value num -> fetch_result num.

Lemma getFigmaProjectFiles_project (fields : list (string * value num))
    (files : list (value num)) (d : dom num) :
  project_files files_request (object fields) files ->
  getFigmaProjectFiles fault_message files_request (lookup_field "id" fields) d
  = (returned (array files), d).
Proof.
  intros Hp. inversion Hp as [? r g ? Hreq Hbody Hfiles | ? Hfail]; subst.
  - rewrite (getFigmaProjectFiles_listed fault_message files_request _ r g d Hreq Hbody).
    rewrite Hfiles. reflexivity.
  - apply getFigmaProjectFiles_failed. exact Hfail.
Qed.

(** The loop over the projects appends the files of each, in order. *)
Lemma collect_files_projects (projects : list (value num))
    (filess : list (list (value num))) (allFiles : list (value num)) (d : dom num) :
  Forall2 (project_files files_request) projects filess ->
  collect_files fault_message files_request projects allFiles d
  = (returned (allFiles ++ concat filess), d).
Proof.
  intros Hall. revert allFiles.
  induction Hall as [| project files projects filess Hp Hrest IH]; intros allFiles.
  - cbn. rewrite app_nil_r. reflexivity.
  - assert (Hobj : exists fields, project = object fields)
      by (inversion Hp; eexists; reflexivity).
    destruct Hobj as [fields ->].
    cbn [collect_files]. unfold bind at 1. cbn [get ret].
    rewrite (bind_returned _ _ d d (array files))
      by (apply getFigmaProjectFiles_project; exact Hp).
    unfold bind at 1. cbn [iterate ret].
    rewrite IH. cbn [concat]. rewrite app_assoc. reflexivity.
Qed.

(** The renderer up to the loop over the projects. *)
Lemma fetchRecentFigmaFiles_listed (team : response num)
    (data : list (string * value num)) (projects : list (value num))
    (d : dom num) (content : list (block num)) :
  design_projects d = Some content ->
  response_body team = json (object data) ->
  lookup_field "projects" data = array projects ->
  fetchRecentFigmaFiles fault_message Date_time (resolved team) files_request d
  = try_catch
      (bind (collect_files fault_message files_request projects []) (fun allFiles =>
       bind (sort (by_last_modified fault_message Date_time) allFiles) (fun sorted =>
       renderFigmaProjects fault_message (firstn 5 sorted))))
      (fun error => set_design_projects fault_message [error_block (message error)])
      {| projects_grid := projects_grid d; design_projects := Some [spinner] |}.
Proof.
  intros Hcontainer Hteam Hprojects.
  unfold fetchRecentFigmaFiles. rewrite Hcontainer. unfold try_catch.
  unfold bind at 1. unfold set_design_projects at 1. rewrite Hcontainer.
  unfold bind at 1. cbn [await_fetch ret].
  unfold bind at 1. unfold await_json. rewrite Hteam. cbn [ret].
  unfold bind at 1. cbn [get ret]. rewrite Hprojects.
  unfold bind at 1. cbn [iterate ret]. reflexivity.
Qed.

End DesignFeedFacts.



(** X29.  A file listing without files.  When a project's file request
    is answered with JSON that has no array (or string) under [files],
    as the design API's error objects are, the loop over the projects
    stops there: the files gathered from the projects before it are
    dropped, the later projects are not asked for their files, and the
    container ends up with one error block, whose text is what the
    engine says about spreading that value. *)
Theorem design_feed_stops_at_a_listing_without_files :
  forall {num : Type} (fault_message : Feeds.engine_fault num -> string)
         (Date_time : Feeds.value num -> option Z)
         (files_request : Feeds.value num -> Feeds.fetch_result num)
         (d : Feeds.dom num) (content : list (Feeds.block num))
         (team r : Feeds.response num) (data fields g : list (string * Feeds.value num))
         (before after : list (Feeds.value num)) (filess : list (list (Feeds.value num))),
    Feeds.design_projects d = Some content ->
    Feeds.response_body team = Feeds.json (Feeds.object data) ->
    Feeds.lookup_field "projects" data
    = Feeds.array (before ++ Feeds.object fields :: after) ->
    Forall2 (project_files files_request) before filess ->
    files_request (Feeds.lookup_field "id" fields) = Feeds.resolved r ->
    Feeds.response_body r = Feeds.json (Feeds.object g) ->
    iterable (Feeds.lookup_field "files" g) = false ->
    Feeds.fetchRecentFigmaFiles fault_message Date_time (Feeds.resolved team)
      files_request d
    = (Feeds.returned tt,
       {| Feeds.projects_grid := Feeds.projects_grid d;
          Feeds.design_projects :=
            Some [Feeds.error_block
                    (fault_message (Feeds.not_iterable (Feeds.lookup_field "files" g)))] |}).
Proof.
  intros num fault_message Date_time files_request d content team r data fields g
    before after filess Hcontainer Hteam Hprojects Hbefore Hreq Hbody Hfiles.
  rewrite (fetchRecentFigmaFiles_listed fault_message Date_time files_request
             team data _ d content Hcontainer Hteam Hprojects).
  set (d1 := {| Feeds.projects_grid := Feeds.projects_grid d;
                Feeds.design_projects := Some [Feeds.spinner] |}).
  assert (Hcollect : forall allFiles,
    Feeds.collect_files fault_message files_request
      (before ++ Feeds.object fields :: after) allFiles d1
    = (Feeds.thrown
         (Feeds.TypeError
            (fault_message (Feeds.not_iterable (Feeds.lookup_field "files" g)))),
       d1)).
  { clear Hprojects.
    induction Hbefore as [| project files before filess Hp Hrest IH]; intros allFiles.
    - cbn [app Feeds.collect_files]. unfold Feeds.bind at 1. cbn [Feeds.get Feeds.ret].
      rewrite (bind_returned _ _ d1 d1 (Feeds.lookup_field "files" g))
        by (eapply getFigmaProjectFiles_listed; eassumption).
      unfold Feeds.bind at 1.
      destruct (Feeds.lookup_field "files" g); try discriminate Hfiles; reflexivity.
    - assert (Hobj : exists pf, project = Feeds.object pf)
        by (inversion Hp; eexists; reflexivity).
      destruct Hobj as [pf ->].
      cbn [app Feeds.collect_files]. unfold Feeds.bind at 1. cbn [Feeds.get Feeds.ret].
      rewrite (bind_returned _ _ d1 d1 (Feeds.array files))
        by (apply getFigmaProjectFiles_project; exact Hp).
      unfold Feeds.bind at 1. cbn [Feeds.iterate Feeds.ret]. apply IH. }
  unfold Feeds.try_catch. unfold Feeds.bind at 1. rewrite Hcollect. reflexivity.
Qed.

(** The first project answers with its four files, the second with the
    API's error object. *)
Lemma design_feed_stops_at_a_listing_without_files_witness :
  let denied := [("status", Feeds.number (int 403)); ("err", Feeds.str "Forbidden")]%string in
  let files_request (id : Feeds.value spec_float) :=
    match id with
    | Feeds.str "11" => Feeds.resolved (files_listing first_project_files)
    | _ => Feeds.resolved {| Feeds.status := 403;
                             Feeds.response_body := Feeds.json (Feeds.object denied) |}
    end in
  Feeds.fetchRecentFigmaFiles engine_text iso_time (Feeds.resolved team_listing)
    files_request loaded_page
  = (Feeds.returned tt,
     {| Feeds.projects_grid := Feeds.projects_grid loaded_page;
        Feeds.design_projects :=
          Some [Feeds.error_block
                  (engine_text (Feeds.not_iterable (Feeds.lookup_field "files" denied)))] |}).
Proof.
  apply (design_feed_stops_at_a_listing_without_files engine_text iso_time
           (fun id => match id with
                      | Feeds.str "11" => Feeds.resolved (files_listing first_project_files)
                      | _ => Feeds.resolved
                               {| Feeds.status := 403;
                                  Feeds.response_body :=
                                    Feeds.json
                                      (Feeds.object
                                         [("status", Feeds.number (int 403));
                                          ("err", Feeds.str "Forbidden")]%string) |}
                      end)
           loaded_page [] team_listing
           {| Feeds.status := 403;
              Feeds.response_body :=
                Feeds.json (Feeds.object [("status", Feeds.number (int 403));
                                          ("err", Feeds.str "Forbidden")]%string) |}
           team_data second_project
           [("status", Feeds.number (int 403)); ("err", Feeds.str "Forbidden")]%string
           [Feeds.object first_project] [] [first_project_files]);
    try reflexivity.
  constructor; [| constructor]. eapply files_listed; reflexivity.
Defined.
